(** * Audio Forensic Detector: the analysis contract and its consumers

    The web application (Next.js, TypeScript) consumes the [AnalysisResult]
    of an audio analysis pipeline: [lib/database.ts] persists it,
    [lib/pdf-generator.ts] prints it, [app/components/sonar-view.tsx] draws
    it, [app/components/enhanced-audio-analysis.tsx] hands it to the first
    two and [app/api/classify-audio/route.ts] proxies an external classifier.

    JavaScript values live in a store of arrays and objects addressed by
    references, so that in-place array methods and aliasing are visible.
    JavaScript numbers are kept behind the interface [Num]: binary64 floats
    give the executable reading, the real numbers the idealised one. *)

From Stdlib Require Import ZArith Reals Lra Lia Floats Ascii String List Permutation.
From Stdlib Require Import DecimalString Sorted.
From Equations Require Import Equations.
From stdpp Require Import gmap strings list.

Set Default Proof Using "Type".

(** ** Numbers *)

Class Num (A : Type) : Type := {
  nzero : A;
  nof_Z : Z -> A;
  nadd : A -> A -> A;
  nsub : A -> A -> A;
  nmul : A -> A -> A;
  ndiv : A -> A -> A;
  nsqrt : A -> A;
  nabs : A -> A;
  neqb : A -> A -> bool;
  nltb : A -> A -> bool;
  nleb : A -> A -> bool
}.

Declare Scope num_scope.
Delimit Scope num_scope with num.
Infix "+" := nadd : num_scope.
Infix "-" := nsub : num_scope.
Infix "*" := nmul : num_scope.
Infix "/" := ndiv : num_scope.
Infix "<?" := nltb : num_scope.
Infix "<=?" := nleb : num_scope.
Infix "=?" := neqb : num_scope.
Notation "# n" := (nof_Z n%Z) (at level 5, n at level 0, format "# n") : num_scope.

(** A count (an array length, an index) as a number. *)
Definition nof_nat {A} `{Num A} (n : nat) : A := nof_Z (Z.of_nat n).

(** [x > y] in the source is [y < x]. *)
Definition ngtb {A} `{Num A} (x y : A) : bool := nltb y x.

(** Exact for the integers a binary64 float represents. *)
Definition float_of_Z (z : Z) : float :=
  match z with
  | Zneg p => PrimFloat.opp (PrimFloat.of_uint63 (Uint63.of_Z (Zpos p)))
  | _ => PrimFloat.of_uint63 (Uint63.of_Z z)
  end.

#[export] Instance float_Num : Num float := {|
  nzero := 0%float;
  nof_Z := float_of_Z;
  nadd := PrimFloat.add;
  nsub := PrimFloat.sub;
  nmul := PrimFloat.mul;
  ndiv := PrimFloat.div;
  nsqrt := PrimFloat.sqrt;
  nabs := PrimFloat.abs;
  neqb := PrimFloat.eqb;
  nltb := PrimFloat.ltb;
  nleb := PrimFloat.leb
|}.

Definition Reqb (x y : R) : bool := if Req_dec_T x y then true else false.
Definition Rltb (x y : R) : bool := if Rlt_dec x y then true else false.
Definition Rleb (x y : R) : bool := if Rle_dec x y then true else false.

#[export] Instance R_Num : Num R := {|
  nzero := 0%R;
  nof_Z := IZR;
  nadd := Rplus;
  nsub := Rminus;
  nmul := Rmult;
  ndiv := Rdiv;
  nsqrt := R_sqrt.sqrt;
  nabs := Rabs;
  neqb := Reqb;
  nltb := Rltb;
  nleb := Rleb
|}.

(** ** JavaScript values, the store, exceptions *)

Module JS.

Definition loc := positive.

Inductive exn : Type :=
| TypeError (msg : string)
| Error (msg : string).

Inductive outcome (A : Type) : Type :=
| Ok (a : A)
| Throw (e : exn).
Arguments Ok {A} a.
Arguments Throw {A} e.

#[export] Instance outcome_ret : MRet outcome := fun A a => Ok a.

#[export] Instance outcome_bind : MBind outcome := fun A B k m =>
  match m with
  | Ok a => k a
  | Throw e => Throw e
  end.

Section Values.
Context {num : Type} `{Num num}.

Inductive value : Type :=
| VUndef
| VNull
| VBool (b : bool)
| VNum (n : num)
| VStr (s : string)
| VRef (l : loc).

(** A store cell: an array or a plain object. *)
Inductive cell : Type :=
| CArr (elems : list value)
| CObj (fields : gmap string value).

(** ToBoolean: [undefined], [null], [false], [0], [NaN] and the empty string
    are falsy. *)
Definition truthy (v : value) : bool :=
  match v with
  | VUndef | VNull => false
  | VBool b => b
  | VNum n => negb (neqb n nzero) && neqb n n
  | VStr s => negb (String.eqb s "")
  | VRef _ => true
  end.

(** [a || b] *)
Definition or_else (a b : value) : value := if truthy a then a else b.

(** Property read [v.f].  Reading a property of [undefined] or [null]
    throws; arrays and strings answer [length]; a missing property is
    [undefined] (and so is any property behind a reference the store does
    not hold, which no store built here contains). *)
Definition get (h : gmap loc cell) (v : value) (f : string) : outcome value :=
  match v with
  | VUndef => Throw (TypeError ("Cannot read properties of undefined (reading '" ++ f ++ "')"))
  | VNull => Throw (TypeError ("Cannot read properties of null (reading '" ++ f ++ "')"))
  | VRef l =>
      match h !! l with
      | Some (CObj m) => Ok (default VUndef (m !! f))
      | Some (CArr es) =>
          Ok (if String.eqb f "length" then VNum (nof_nat (length es)) else VUndef)
      | None => Ok VUndef
      end
  | VStr s => Ok (if String.eqb f "length" then VNum (nof_nat (String.length s)) else VUndef)
  | VBool _ | VNum _ => Ok VUndef
  end.

(** Optional chaining [v?.f]. *)
Definition get_opt (h : gmap loc cell) (v : value) (f : string) : outcome value :=
  match v with
  | VUndef | VNull => Ok VUndef
  | _ => get h v f
  end.

(** The elements behind a value on which an array method is called;
    calling one on anything but an array throws. *)
Definition array_of (h : gmap loc cell) (v : value) (method : string) : outcome (list value) :=
  match v with
  | VUndef => Throw (TypeError ("Cannot read properties of undefined (reading '" ++ method ++ "')"))
  | VNull => Throw (TypeError ("Cannot read properties of null (reading '" ++ method ++ "')"))
  | VRef l =>
      match h !! l with
      | Some (CArr es) => Ok es
      | _ => Throw (TypeError (method ++ " is not a function"))
      end
  | _ => Throw (TypeError (method ++ " is not a function"))
  end.

(** ToNumber on the operands the consumers meet; [None] stands for NaN.
    Strings and references go through string parsing in JavaScript, which
    is outside this model: they are read as NaN, also a string that
    spells a number.  What is proved of arithmetic and comparisons assumes
    operands that are numbers, or does not depend on the reading. *)
Definition to_number (v : value) : option num :=
  match v with
  | VNum n => Some n
  | VNull => Some nzero
  | VBool b => Some (if b then nof_Z 1 else nzero)
  | VUndef | VStr _ | VRef _ => None
  end.

(** [x > y] on values: false as soon as one side is NaN. *)
Definition gt_value (x : value) (y : num) : bool :=
  match to_number x with
  | Some n => ngtb n y
  | None => false
  end.

(** [Array.prototype.map], with the index, for a callback that may throw. *)
Fixpoint mapi_from {A} (i : nat) (f : value -> nat -> outcome A) (l : list value)
  : outcome (list A) :=
  match l with
  | [] => Ok []
  | x :: r =>
      y ← f x i;
      ys ← mapi_from (S i) f r;
      Ok (y :: ys)
  end.

(** [l.map((x, index) => f(x, index))] *)
Definition mapi {A} (f : value -> nat -> outcome A) (l : list value) : outcome (list A) :=
  mapi_from 0 f l.

(** A left fold with a callback that may throw. *)
Fixpoint fold_outcome {A B} (f : A -> B -> outcome A) (l : list B) (acc : A) : outcome A :=
  match l with
  | [] => Ok acc
  | x :: r => acc' ← f acc x; fold_outcome f r acc'
  end.

(** [Array.prototype.reduce] without an initial value: the first element
    seeds the accumulator, and an empty array throws. *)
Definition reduce1 (f : value -> value -> outcome value) (l : list value) : outcome value :=
  match l with
  | [] => Throw (TypeError "Reduce of empty array with no initial value")
  | x :: r => fold_outcome f r x
  end.

(** [Array.prototype.sort(cmp)] is stable; [after a b] says that the
    comparator's result for [(a, b)] is positive, which puts [a] after [b].
    Inserting each element in front of the sorted rest, past the elements
    it goes after, keeps equal elements in their order.  For a consistent
    comparator (a strict weak order, as a difference of numbers is) every
    stable sort leaves this order; for an inconsistent one (NaN keys) the
    order is implementation-defined and this one is not promised to be the
    engine's: what is proved of the order assumes that the keys are
    numbers.  The caller writes the sorted list back into the array the
    method was called on. *)
Fixpoint insert_sorted {A} (after : A -> A -> bool) (x : A) (l : list A) : list A :=
  match l with
  | [] => [x]
  | y :: r => if after x y then y :: insert_sorted after x r else x :: y :: r
  end.

(** The elements of [l] in the order [sort] leaves them in. *)
Fixpoint stable_sort {A} (after : A -> A -> bool) (l : list A) : list A :=
  match l with
  | [] => []
  | x :: r => insert_sorted after x (stable_sort after r)
  end.

(** Allocation of a fresh cell. *)
Definition alloc (c : cell) (h : gmap loc cell) : gmap loc cell * value :=
  let l := fresh (dom h) in (<[l := c]> h, VRef l).

(** Allocation of one cell after the other; the references in order. *)
Fixpoint alloc_list (cs : list cell) (h : gmap loc cell) : gmap loc cell * list value :=
  match cs with
  | [] => (h, [])
  | c :: r =>
      let '(h1, v) := alloc c h in
      let '(h2, vs) := alloc_list r h1 in
      (h2, v :: vs)
  end.

End Values.

Arguments value num : clear implicits.
Arguments cell num : clear implicits.

End JS.

(** ** The analysis pipeline

    The pipeline itself (the analysis script the web application calls) is
    not among the source files; only its consumers are.  Its stages are
    written down here from the design contract, each definition saying so.
    The spectral transform, the classifier and the logarithm are
    capabilities handed to it. *)

Module Pipeline.

Local Open Scope num_scope.

(** Modelled from the spec: the error taxonomy of the missing pipeline. *)
Inductive PipelineError : Type :=
| InvalidConfig
| EmptyInputError
| DecodeError.

(** Modelled from the spec: the fixed label set of the missing Classifier. *)
Inductive Label : Type := Voice | Percussion | Tone | Ambient | Unknown.

Section Stages.
Context {num : Type} `{Num num}.

(** Modelled from the spec: the recognised options
    [{frameSize, hopSize, sensitivityFactor, minHoldTimeMs, referenceDb}];
    the smoothing weight and the initial value of the noise floor are the
    tuning constants the contract leaves to the implementer. *)
Record Config : Type := {
  frameSize : Z;
  hopSize : Z;
  sensitivityFactor : num;
  minHoldTimeMs : num;
  referenceDb : num;
  noiseAlpha : num;
  noiseFloor0 : num
}.

(** Modelled from the spec: a waveform is a sequence of amplitude samples
    with a sample rate; its duration is sample count / sample rate. *)
Record Waveform : Type := {
  wf_samples : list num;
  wf_sampleRate : num
}.

(** Modelled from the spec: the sample count of a waveform. *)
Definition sampleCount (w : Waveform) : nat := length (wf_samples w).

(** Modelled from the spec: duration = sample count / sample rate. *)
Definition wf_duration (w : Waveform) : num := nof_nat (sampleCount w) / wf_sampleRate w.

(** Modelled from the spec: a Frame of the missing segmenter, a
    fixed-length slice of the waveform with its start offset (in samples). *)
Record Frame : Type := {
  startIndex : nat;
  frameData : list num
}.

(** Modelled from the spec: SpectrumPoint, [{frequency, magnitude, time}]. *)
Record SpectrumPoint : Type := {
  sp_frequency : num;
  sp_magnitude : num;
  sp_time : num
}.

(** Modelled from the spec: SoundEvent, [{time, type, frequency, amplitude,
    decibels, confidence?}]. *)
Record SoundEvent : Type := {
  ev_time : num;
  ev_type : Label;
  ev_frequency : num;
  ev_amplitude : num;
  ev_decibels : num;
  ev_confidence : option num
}.

(** Modelled from the spec: AnalysisResult, the aggregate the missing
    pipeline returns; [detectedSounds] is a count. *)
Record AnalysisResult : Type := {
  duration : num;
  sampleRate : num;
  averageRMS : num;
  detectedSounds : nat;
  dominantFrequency : num;
  maxDecibels : num;
  soundEvents : list SoundEvent;
  frequencySpectrum : list SpectrumPoint
}.

(** Modelled from the spec: the per-frame scalar features of the missing
    Feature Extractor. *)
Record Features : Type := {
  ft_time : num;
  ft_rms : num;
  ft_decibels : num;
  ft_frequency : num
}.

(** Modelled from the spec: the pluggable parts of the pipeline, the
    Spectral Transformer (sample rate and frame to magnitude spectrum), the
    Classifier capability [classify(features) -> (label, confidence)] and
    the base-10 logarithm of the decibel formula. *)
Record Capabilities : Type := {
  spectrumOf : num -> Frame -> list SpectrumPoint;
  classify : Features -> Label * option num;
  log10 : num -> num
}.

(** *** Frame Segmenter *)

(** Modelled from the spec: a slice of [n] samples of the missing
    segmenter, zero-padded when the waveform runs short. *)
Definition padTo (n : nat) (l : list num) : list num :=
  take n l ++ replicate (n - length l) nzero.

(** Modelled from the spec: the Frame Segmenter.  Frames start every
    [hop] samples and each holds [f] samples; the frame that reaches the
    end of the waveform is the last one and is zero-padded if it runs
    short. *)
Equations framesFrom (f h : positive) (start : nat) (rest : list num) : list Frame
  by wf (length rest) lt :=
framesFrom f h start rest with le_lt_dec (length rest) (Pos.to_nat f) := {
  | left _ => [ {| startIndex := start; frameData := padTo (Pos.to_nat f) rest |} ]
  | right _ =>
      {| startIndex := start; frameData := padTo (Pos.to_nat f) rest |}
        :: framesFrom f h (start + Pos.to_nat h) (drop (Pos.to_nat h) rest) }.
Next Obligation.
  intros f h _ rest Hlt _. rewrite length_drop.
  pose proof (Pos2Nat.is_pos h). lia.
Qed.

(** Modelled from the spec: the frame count the contract asks of the
    missing segmenter, [ceil(n / f)] for [f > 0]. *)
Definition ceilDiv (n f : Z) : Z := (n + f - 1) / f.

(** Modelled from the spec: the segmenter fails with [InvalidConfig] when
    [frameSize <= 0] or [hopSize <= 0]; an empty waveform has no frame. *)
Definition segment (cfg : Config) (w : Waveform) : PipelineError + list Frame :=
  match frameSize cfg, hopSize cfg with
  | Zpos f, Zpos h =>
      match wf_samples w with
      | [] => inr []
      | _ :: _ => inr (framesFrom f h 0 (wf_samples w))
      end
  | _, _ => inl InvalidConfig
  end.

(** *** Feature Extractor *)

(** Modelled from the spec: the sum of squares under the root mean square
    of the missing Feature Extractor. *)
Definition sumSquares (l : list num) : num :=
  fold_left (fun acc x => acc + x * x) l nzero.

(** Modelled from the spec: RMS energy, root-mean-square of the samples;
    zero on an empty frame. *)
Definition rmsOf (l : list num) : num :=
  match l with
  | [] => nzero
  | _ :: _ => nsqrt (sumSquares l / nof_nat (length l))
  end.

(** Modelled from the spec: the floor value, -60 dB. *)
Definition dbFloor : num := nzero - #60.

(** Modelled from the spec: [20 * log10(rms / reference)], with the floor
    -60 dB substituted when rms is 0. *)
Definition decibelsOf (caps : Capabilities) (cfg : Config) (rms : num) : num :=
  if rms =? nzero then dbFloor
  else #20 * log10 caps (rms / referenceDb cfg).

(** Modelled from the spec: the max-magnitude bin of the missing Feature
    Extractor, the first one among equals. *)
Definition strongest (best : option SpectrumPoint) (p : SpectrumPoint)
  : option SpectrumPoint :=
  match best with
  | None => Some p
  | Some b => if sp_magnitude b <? sp_magnitude p then Some p else Some b
  end.

(** Modelled from the spec: the dominant frequency is the frequency of the
    max-magnitude spectrum bin; zero when there is no bin. *)
Definition dominantOf (sp : list SpectrumPoint) : num :=
  match fold_left strongest sp None with
  | Some b => sp_frequency b
  | None => nzero
  end.

(** Modelled from the spec: the missing Feature Extractor, per frame: start
    time, RMS energy, decibel level, dominant frequency. *)
Definition featuresOf (caps : Capabilities) (cfg : Config) (rate : num) (fr : Frame)
  : Features :=
  let rms := rmsOf (frameData fr) in
  {| ft_time := nof_nat (startIndex fr) / rate;
     ft_rms := rms;
     ft_decibels := decibelsOf caps cfg rms;
     ft_frequency := dominantOf (spectrumOf caps rate fr) |}.

(** *** Event Detector *)

(** Modelled from the spec: an open candidate of the missing Event
    Detector, onset time and the strongest frame seen so far. *)
Record Candidate : Type := {
  onset : num;
  peak : Features
}.

(** Modelled from the spec: the two states of the missing Event Detector;
    an open event remembers since when the signal has been
    under the threshold, if it is. *)
Inductive Mode : Type :=
| Idle
| InEvent (c : Candidate) (quietFrom : option num).

(** Modelled from the spec: the state the missing Event Detector threads
    through the frames, the mode and the running noise
    floor. *)
Record Detector : Type := {
  mode : Mode;
  noiseFloor : num
}.

(** Modelled from the spec: the missing detector starts idle. *)
Definition initialDetector (cfg : Config) : Detector :=
  {| mode := Idle; noiseFloor := noiseFloor0 cfg |}.

(** Modelled from the spec: a frame is loud when its RMS exceeds
    [noiseFloor * sensitivityFactor]. *)
Definition loud (cfg : Config) (d : Detector) (x : Features) : bool :=
  ngtb (ft_rms x) (noiseFloor d * sensitivityFactor cfg).

(** Modelled from the spec: the noise floor is an exponential moving
    average of the RMS. *)
Definition nextFloor (cfg : Config) (d : Detector) (x : Features) : num :=
  (#1 - noiseAlpha cfg) * noiseFloor d + noiseAlpha cfg * ft_rms x.

(** Modelled from the spec: on Idle to InEvent a candidate opens with the
    onset time and the values of the frame. *)
Definition openAt (x : Features) : Candidate :=
  {| onset := ft_time x; peak := x |}.

(** Modelled from the spec: the peak policy of the missing detector, keep
    the strongest frame of the event span. *)
Definition louder (c : Candidate) (x : Features) : Candidate :=
  if ft_rms (peak c) <? ft_rms x then {| onset := onset c; peak := x |} else c.

(** Modelled from the spec: since when the signal has been under the
    threshold, this frame included. *)
Definition quietStart (q : option num) (x : Features) : num := default (ft_time x) q.

(** Modelled from the spec: the signal has stayed under the threshold for
    the minimum hold time (frame times are in seconds). *)
Definition heldQuiet (cfg : Config) (since now : num) : bool :=
  minHoldTimeMs cfg <=? (now - since) * #1000.

(** Modelled from the spec: the transitions of the Event Detector over one
    frame, with the candidates it emits. *)
Inductive step (cfg : Config) : Detector -> Features -> Detector -> list Candidate -> Prop :=
| step_onset d x :
    mode d = Idle ->
    loud cfg d x = true ->
    step cfg d x {| mode := InEvent (openAt x) None; noiseFloor := nextFloor cfg d x |} []
| step_idle d x :
    mode d = Idle ->
    loud cfg d x = false ->
    step cfg d x {| mode := Idle; noiseFloor := nextFloor cfg d x |} []
| step_sustain d x c q :
    mode d = InEvent c q ->
    loud cfg d x = true ->
    step cfg d x {| mode := InEvent (louder c x) None; noiseFloor := nextFloor cfg d x |} []
| step_dip d x c q :
    mode d = InEvent c q ->
    loud cfg d x = false ->
    heldQuiet cfg (quietStart q x) (ft_time x) = false ->
    step cfg d x
      {| mode := InEvent c (Some (quietStart q x)); noiseFloor := nextFloor cfg d x |} []
| step_close d x c q :
    mode d = InEvent c q ->
    loud cfg d x = false ->
    heldQuiet cfg (quietStart q x) (ft_time x) = true ->
    step cfg d x {| mode := Idle; noiseFloor := nextFloor cfg d x |} [c].

(** Modelled from the spec: a run over the frame sequence; a candidate
    still open when the waveform ends is closed and emitted. *)
Inductive run (cfg : Config) : Detector -> list Features -> list Candidate -> Prop :=
| run_end_idle d :
    mode d = Idle ->
    run cfg d [] []
| run_end_open d c q :
    mode d = InEvent c q ->
    run cfg d [] [c]
| run_step d x d' out xs rest :
    step cfg d x d' out ->
    run cfg d' xs rest ->
    run cfg d (x :: xs) (out ++ rest).

(** Modelled from the spec: the same transitions of the missing detector,
    as a function. *)
Definition detectStep (cfg : Config) (d : Detector) (x : Features)
  : Detector * list Candidate :=
  let nf := nextFloor cfg d x in
  match mode d with
  | Idle =>
      if loud cfg d x
      then ({| mode := InEvent (openAt x) None; noiseFloor := nf |}, [])
      else ({| mode := Idle; noiseFloor := nf |}, [])
  | InEvent c q =>
      if loud cfg d x
      then ({| mode := InEvent (louder c x) None; noiseFloor := nf |}, [])
      else if heldQuiet cfg (quietStart q x) (ft_time x)
      then ({| mode := Idle; noiseFloor := nf |}, [c])
      else ({| mode := InEvent c (Some (quietStart q x)); noiseFloor := nf |}, [])
  end.

(** Modelled from the spec: the run of the missing detector as a function;
    a candidate open at the end is emitted. *)
Fixpoint detect (cfg : Config) (d : Detector) (xs : list Features) : list Candidate :=
  match xs with
  | [] =>
      match mode d with
      | Idle => []
      | InEvent c _ => [c]
      end
  | x :: r =>
      let '(d', out) := detectStep cfg d x in
      out ++ detect cfg d' r
  end.

(** *** Classifier *)

(** Modelled from the spec: a closed candidate becomes a SoundEvent with
    its peak-observed values and the label the classifier returns. *)
Definition toEvent (caps : Capabilities) (c : Candidate) : SoundEvent :=
  let '(label, conf) := classify caps (peak c) in
  {| ev_time := onset c;
     ev_type := label;
     ev_frequency := ft_frequency (peak c);
     ev_amplitude := ft_rms (peak c);
     ev_decibels := ft_decibels (peak c);
     ev_confidence := conf |}.

(** *** Aggregator *)

(** Modelled from the spec: one step of the missing Aggregator's scan of
    the events, their count and the largest decibel value. *)
Definition scanEvent (acc : nat * option num) (e : SoundEvent) : nat * option num :=
  (S (fst acc),
   Some (match snd acc with
         | None => ev_decibels e
         | Some m => if m <? ev_decibels e then ev_decibels e else m
         end)).

(** Modelled from the spec: the sum under the average RMS. *)
Definition sumOf (l : list num) : num := fold_left nadd l nzero.

(** Modelled from the spec: the average of the frames' RMS; zero without
    frames. *)
Definition meanOf (l : list num) : num :=
  match l with
  | [] => nzero
  | _ :: _ => sumOf l / nof_nat (length l)
  end.

(** Modelled from the spec: the Aggregator, a pure reduction of the frame
    features, the events and the spectrum into the summary record. *)
Definition aggregate (w : Waveform) (fts : list Features)
    (events : list SoundEvent) (spectrum : list SpectrumPoint) : AnalysisResult :=
  let '(count, maxDb) := fold_left scanEvent events (0, None) in
  {| duration := wf_duration w;
     sampleRate := wf_sampleRate w;
     averageRMS := meanOf (map ft_rms fts);
     detectedSounds := count;
     dominantFrequency := dominantOf spectrum;
     maxDecibels := default dbFloor maxDb;
     soundEvents := events;
     frequencySpectrum := spectrum |}.

(** *** The pipeline *)

(** Modelled from the spec: the full spectrum list of the missing
    pipeline, the spectra of the frames in order. *)
Definition spectraOf (caps : Capabilities) (rate : num) (frames : list Frame)
  : list SpectrumPoint :=
  flat_map (spectrumOf caps rate) frames.

(** Modelled from the spec: the missing pipeline as a whole, waveform,
    frames, spectra, features, events, classified events, summary; [InvalidConfig] and [EmptyInputError] are
    raised before any processing. *)
Definition analyze (caps : Capabilities) (cfg : Config) (w : Waveform)
  : PipelineError + AnalysisResult :=
  match frameSize cfg, hopSize cfg with
  | Zpos f, Zpos h =>
      match wf_samples w with
      | [] => inl EmptyInputError
      | _ :: _ =>
          let frames := framesFrom f h 0 (wf_samples w) in
          let fts := map (featuresOf caps cfg (wf_sampleRate w)) frames in
          let events := map (toEvent caps) (detect cfg (initialDetector cfg) fts) in
          inr (aggregate w fts events (spectraOf caps (wf_sampleRate w) frames))
      end
  | _, _ => inl InvalidConfig
  end.

(** Modelled from the spec: the missing pipeline as a relation between its
    input and what a run yields, with the detector given by its
    transitions. *)
Inductive analyzes (caps : Capabilities) (cfg : Config) (w : Waveform)
  : PipelineError + AnalysisResult -> Prop :=
| analyzes_invalid :
    (frameSize cfg <= 0 \/ hopSize cfg <= 0)%Z ->
    analyzes caps cfg w (inl InvalidConfig)
| analyzes_empty :
    (0 < frameSize cfg)%Z -> (0 < hopSize cfg)%Z ->
    wf_samples w = [] ->
    analyzes caps cfg w (inl EmptyInputError)
| analyzes_ok frames cands :
    (0 < frameSize cfg)%Z -> (0 < hopSize cfg)%Z ->
    wf_samples w <> [] ->
    segment cfg w = inr frames ->
    run cfg (initialDetector cfg)
      (map (featuresOf caps cfg (wf_sampleRate w)) frames) cands ->
    analyzes caps cfg w
      (inr (aggregate w (map (featuresOf caps cfg (wf_sampleRate w)) frames)
              (map (toEvent caps) cands)
              (spectraOf caps (wf_sampleRate w) frames))).

End Stages.

Arguments Config num : clear implicits.
Arguments Candidate num : clear implicits.
Arguments Mode num : clear implicits.
Arguments Detector num : clear implicits.
Arguments Waveform num : clear implicits.
Arguments Frame num : clear implicits.
Arguments SpectrumPoint num : clear implicits.
Arguments SoundEvent num : clear implicits.
Arguments AnalysisResult num : clear implicits.
Arguments Features num : clear implicits.
Arguments Capabilities num : clear implicits.

End Pipeline.

(** ** lib/supabase.ts *)

Module Supabase.

(** [process.env]: a variable is a string or absent. *)
Record Env : Type := {
  NEXT_PUBLIC_SUPABASE_URL : option string;
  NEXT_PUBLIC_SUPABASE_ANON_KEY : option string
}.

(** The client [createClient(url, key)] returns. *)
Inductive Client : Type := createClient (url key : string).

(** [process.env.NEXT_PUBLIC_SUPABASE_URL] and
    [process.env.NEXT_PUBLIC_SUPABASE_ANON_KEY] *)
Definition supabaseUrl (env : Env) : option string := NEXT_PUBLIC_SUPABASE_URL env.
Definition supabaseKey (env : Env) : option string := NEXT_PUBLIC_SUPABASE_ANON_KEY env.

(** An absent variable and the empty string are falsy. *)
Definition given (o : option string) : bool :=
  match o with
  | Some s => negb (String.eqb s "")
  | None => false
  end.

(** [supabaseUrl && supabaseKey ? createClient(supabaseUrl, supabaseKey) : null] *)
Definition supabase (env : Env) : option Client :=
  match supabaseUrl env, supabaseKey env with
  | Some u, Some k =>
      if given (Some u) && given (Some k) then Some (createClient u k) else None
  | _, _ => None
  end.

(** [!!(supabaseUrl && supabaseKey && supabase)] *)
Definition isSupabaseAvailable (env : Env) : bool :=
  given (supabaseUrl env) && given (supabaseKey env) && bool_decide (is_Some (supabase env)).

(** What [getSupabaseStatus] answers. *)
Record ConnectionStatus : Type := {
  connected : bool;
  url : option string;
  error : option string
}.

(** [getSupabaseStatus()] *)
Definition getSupabaseStatus (env : Env) : ConnectionStatus :=
  if negb (given (supabaseUrl env)) then
    {| connected := false; url := None;
       error := Some "NEXT_PUBLIC_SUPABASE_URL not found in environment variables" |}
  else if negb (given (supabaseKey env)) then
    {| connected := false; url := None;
       error := Some "NEXT_PUBLIC_SUPABASE_ANON_KEY not found in environment variables" |}
  else
    match supabase env with
    | None =>
        {| connected := false; url := None;
           error := Some "Failed to create Supabase client" |}
    | Some _ => {| connected := true; url := supabaseUrl env; error := None |}
    end.

End Supabase.

(** ** lib/database.ts *)

Module Database.
Import JS Supabase.

(** [s.includes(needle)] *)
Fixpoint includes (needle s : string) : bool :=
  if String.prefix needle s then true
  else match s with
       | EmptyString => false
       | String _ r => includes needle r
       end.

(** Decimal text of a non-negative integer, as string concatenation with a
    number gives it. *)
Definition decimal (n : N) : string := NilEmpty.string_of_uint (N.to_uint n).

Section Service.
Context {num : Type} `{Num num}.

(** The row written to [audio_analyses] (interface [AudioAnalysisRecord]);
    the optional columns [id], [created_at] and [user_id] are left to the
    database. *)
Record AudioAnalysisRecord : Type := {
  filename : value num;
  duration : value num;
  sample_rate : value num;
  average_rms : value num;
  detected_sounds : value num;
  dominant_frequency : value num;
  max_decibels : value num;
  sound_events : value num;
  frequency_spectrum : value num;
  analysis_results : value num
}.

(** What [insert([record]).select()] answers: the stored rows' ids, or an
    error message. *)
Record InsertReply : Type := {
  data : option (list string);
  error : option string
}.

(** What the service does to the outside world. *)
Inductive Effect : Type :=
| SetTimeout (ms : N)
| Insert (table : string) (row : AudioAnalysisRecord).

(** [v || []]: the empty array is freshly allocated. *)
Definition or_empty_array (h : gmap loc (cell num)) (v : value num)
  : gmap loc (cell num) * value num :=
  if truthy v then (h, v) else alloc (CArr []) h.

(** The object literal of [saveAnalysis], its properties read in order. *)
Definition analysisRecord (h : gmap loc (cell num)) (audioData : value num)
  : outcome (gmap loc (cell num) * AudioAnalysisRecord) :=
  name ← get h audioData "name";
  ar ← get h audioData "analysisResults";
  d ← get h ar "duration";
  sr ← get h ar "sampleRate";
  rms ← get h ar "averageRMS";
  ds ← get h ar "detectedSounds";
  df ← get h ar "dominantFrequency";
  md ← get h ar "maxDecibels";
  se ← get h ar "soundEvents";
  let '(h1, se') := or_empty_array h se in
  fs ← get h1 ar "frequencySpectrum";
  let '(h2, fs') := or_empty_array h1 fs in
  Ok (h2,
      {| filename := name;
         duration := d;
         sample_rate := sr;
         average_rms := rms;
         detected_sounds := ds;
         dominant_frequency := df;
         max_decibels := md;
         sound_events := se';
         frequency_spectrum := fs';
         analysis_results := ar |}).

(** [o.f] on the fields of an object. *)
Definition read (fields : gmap string (value num)) (f : string) : value num :=
  default VUndef (fields !! f).

(** The names under which [saveAnalysis] looks for the analysis data. *)
Definition fieldNames : list string :=
  [ "duration"; "sampleRate"; "averageRMS"; "detectedSounds";
    "dominantFrequency"; "maxDecibels"; "soundEvents"; "frequencySpectrum" ].

(** [v] is an array and it is empty. *)
Definition emptyArray (h : gmap loc (cell num)) (v : value num) : Prop :=
  exists l, v = VRef l /\ h !! l = Some (CArr []).

(** The double quote character. *)
Definition quote : string := String (Ascii.ascii_of_nat 34) EmptyString.

(** The message PostgreSQL gives when the table is missing. *)
Definition missingTables : string :=
  "relation " ++ quote ++ "public.audio_analyses" ++ quote ++ " does not exist".

(** Where a promise ends: resolved with a value ([Ok]) or rejected
    ([Throw]), after the effects listed. *)
Record Settled : Type := {
  effects : list Effect;
  store : gmap loc (cell num);
  result : outcome (value num)
}.

(** [data[0].id] *)
Definition firstId (d : option (list string)) : outcome (value num) :=
  match d with
  | None => Throw (TypeError "Cannot read properties of null (reading '0')")
  | Some [] => Throw (TypeError "Cannot read properties of undefined (reading 'id')")
  | Some (id :: _) => Ok (VStr id)
  end.

(** [DatabaseService.saveAnalysis(audioData)], given the environment, the
    clock reading [Date.now()] and the answer of the database to an insert.
    Console output is not part of the model. *)
Definition saveAnalysis (env : Env) (now : N)
    (insert : AudioAnalysisRecord -> InsertReply)
    (h : gmap loc (cell num)) (audioData : value num) : Settled :=
  if negb (isSupabaseAvailable env) then
    {| effects := [SetTimeout 1000%N];
       store := h;
       result := Ok (VStr ("demo-id-" ++ decimal now)) |}
  else
    match analysisRecord h audioData with
    | Throw e => {| effects := []; store := h; result := Throw e |}
    | Ok (h', rec) =>
        let reply := insert rec in
        {| effects := [Insert "audio_analyses" rec];
           store := h';
           result :=
             match error reply with
             | Some message =>
                 if includes missingTables message
                 then Throw (Error "Database tables not found. Please run the SQL setup script.")
                 else Ok VNull
             | None => firstId (data reply)
             end |}
    end.

(** What [testConnection] answers. *)
Record Report : Type := {
  success : bool;
  message : string
}.

(** [error.message || "Unknown error"] *)
Definition messageOr (e : exn) : string :=
  let m := match e with TypeError m | Error m => m end in
  if String.eqb m "" then "Unknown error" else m.

(** [DatabaseService.testConnection()]; [select] is what
    [from("audio_analyses").select("id").limit(1)] answers, or the error the
    client throws. *)
Definition testConnection (env : Env) (select : outcome InsertReply) : Report :=
  if negb (isSupabaseAvailable env) then
    {| success := false;
       message := "Supabase client not available - check environment variables" |}
  else
    match select with
    | Ok reply =>
        match error reply with
        | Some m =>
            if includes missingTables m
            then {| success := false;
                    message := "Database tables not found. Please run the SQL setup script in Supabase." |}
            else {| success := false; message := "Database connection failed: " ++ m |}
        | None =>
            {| success := true; message := "Database connection successful - tables exist" |}
        end
    | Throw e => {| success := false; message := "Connection test failed: " ++ messageOr e |}
    end.

(** The row written to [analysis_sessions] (interface [AnalysisSession]). *)
Record AnalysisSession : Type := {
  session_name : string;
  audio_file_url : value num;
  analysis_data : AudioAnalysisRecord
}.

(** The calls [saveSession] makes to the database. *)
Inductive Call : Type :=
| InsertInto (table : string) (row : AnalysisSession).

(** Where [saveSession] ends. *)
Record SessionSettled : Type := {
  sessionCalls : list Call;
  sessionStore : gmap loc (cell num);
  sessionResult : outcome (value num)
}.

(** The object literal of [saveSession], its properties read in order. *)
Definition sessionRecord (h : gmap loc (cell num)) (sessionName : string)
    (audioData : value num) : outcome (gmap loc (cell num) * AnalysisSession) :=
  u ← get h audioData "url";
  '(h', rec) ← analysisRecord h audioData;
  Ok (h', {| session_name := sessionName; audio_file_url := u; analysis_data := rec |}).

(** [DatabaseService.saveSession(sessionName, audioData)]; every error ends
    in the [catch], which answers [null]. *)
Definition saveSession (env : Env) (now : N)
    (insert : AnalysisSession -> outcome InsertReply)
    (h : gmap loc (cell num)) (sessionName : string) (audioData : value num)
  : SessionSettled :=
  if negb (isSupabaseAvailable env) then
    {| sessionCalls := [];
       sessionStore := h;
       sessionResult := Ok (VStr ("demo-session-" ++ decimal now)) |}
  else
    match sessionRecord h sessionName audioData with
    | Throw _ => {| sessionCalls := []; sessionStore := h; sessionResult := Ok VNull |}
    | Ok (h', row) =>
        {| sessionCalls := [InsertInto "analysis_sessions" row];
           sessionStore := h';
           sessionResult :=
             match insert row with
             | Throw _ => Ok VNull
             | Ok reply =>
                 match error reply with
                 | Some _ => Ok VNull
                 | None =>
                     match firstId (data reply) with
                     | Ok id => Ok id
                     | Throw _ => Ok VNull
                     end
                 end
             end |}
    end.

End Service.

Arguments AudioAnalysisRecord num : clear implicits.
Arguments Effect num : clear implicits.
Arguments Settled num : clear implicits.
Arguments AnalysisSession num : clear implicits.
Arguments Call num : clear implicits.
Arguments SessionSettled num : clear implicits.

End Database.

(** ** lib/pdf-generator.ts *)

Module PdfGenerator.
Import JS.

Local Open Scope num_scope.

Section Report.
Context {num : Type} `{Num num}.

(** A table cell or a piece of a paragraph.  Text rendering of numbers
    (template literals, [toFixed], the bar of [generateBarChart]) is left to
    the document library: a cell records the operand it prints. *)
Inductive Cell : Type :=
| Text (s : string)
| Shown (v : value num) (suffix : string)
| Number (n : option num) (digits : nat) (suffix : string)
| Bar (magnitude : option num)
| Clock.

(** What reaches the jsPDF document and the progress callback; fonts,
    colours and page layout are not part of the model. *)
Inductive Draw : Type :=
| Progress (percent : nat) (stage : string)
| Heading (s : string)
| Table (head : list string) (body : list (list Cell))
| Paragraph (cells : list Cell)
| AddPage
| Save (name : string).

(** NaN-propagating arithmetic on numbers that come out of values. *)
Definition lift2 (f : num -> num -> num) (x y : option num) : option num :=
  match x, y with
  | Some a, Some b => Some (f a b)
  | _, _ => None
  end.

(** [x < y], false as soon as one side is NaN. *)
Definition lt_nan (x y : option num) : bool :=
  match x, y with
  | Some a, Some b => a <? b
  | _, _ => false
  end.

(** [classifyFrequency(freq)] *)
Definition classifyFrequency (freq : option num) : string :=
  if lt_nan freq (Some #60) then "Sub-Bass"
  else if lt_nan freq (Some #250) then "Bass"
  else if lt_nan freq (Some #500) then "Low-Mid"
  else if lt_nan freq (Some #2000) then "Mid (Voice)"
  else if lt_nan freq (Some #4000) then "High-Mid"
  else if lt_nan freq (Some #8000) then "Presence"
  else if lt_nan freq (Some #16000) then "Brilliance"
  else "Ultra-High".

(** [generateBarChart(magnitude)], up to rendering. *)
Definition generateBarChart (magnitude : option num) : Cell := Bar magnitude.

(** [x.toFixed(digits)]: only numbers have the method. *)
Definition toFixed (v : value num) (digits : nat) : outcome Cell :=
  match v with
  | VNum n => Ok (Number (Some n) digits "")
  | VUndef | VNull => Throw (TypeError "Cannot read properties of undefined (reading 'toFixed')")
  | _ => Throw (TypeError "toFixed is not a function")
  end.

(** [`${o.f || dflt}suffix`] *)
Definition shown (h : gmap loc (cell num)) (o : value num) (f : string)
    (dflt : value num) (suffix : string) : outcome Cell :=
  v ← get h o f;
  Ok (Shown (or_else v dflt) suffix).

(** [(o.f || dflt)] as a number *)
Definition number_or (h : gmap loc (cell num)) (o : value num) (f : string) (dflt : Z)
  : outcome (option num) :=
  v ← get h o f;
  Ok (to_number (or_else v (VNum (nof_Z dflt)))).

(** [`${(n * 100).toFixed(1)}%`] *)
Definition percent (n : option num) : Cell :=
  Number (lift2 nmul n (Some #100)) 1 "%".

(** [o.f && o.f.length > 0] *)
Definition nonempty (h : gmap loc (cell num)) (v : value num) : outcome bool :=
  if truthy v then
    len ← get h v "length";
    Ok (gt_value len nzero)
  else Ok false.

(** The rows of the File Information table. *)
Definition fileInfo (h : gmap loc (cell num)) (audioData results : value num)
  : outcome (list (list Cell)) :=
  name ← shown h audioData "name" (VStr "Unknown") "";
  d ← shown h results "duration" (VNum nzero) " seconds";
  sr ← shown h results "sampleRate" (VNum #44100) " Hz";
  rms ← get h results "averageRMS";
  rmsCell ← toFixed (or_else rms (VNum nzero)) 6;
  md ← shown h results "maxDecibels" (VNum nzero) " dB";
  Ok [ [Text "Filename"; name];
       [Text "Duration"; d];
       [Text "Sample Rate"; sr];
       [Text "Analysis Date"; Clock];
       [Text "Average RMS Energy"; rmsCell];
       [Text "Max Decibels"; md] ].

(** The rows of the Sound Detection Summary table. *)
Definition detectionSummary (h : gmap loc (cell num)) (results : value num)
  : outcome (list (list Cell)) :=
  ds ← shown h results "detectedSounds" (VNum nzero) "";
  df ← shown h results "dominantFrequency" (VNum #440) " Hz";
  dfn ← number_or h results "dominantFrequency" 440;
  Ok [ [Text "Total Sound Events Detected"; ds];
       [Text "Dominant Frequency"; df];
       [Text "Frequency Classification"; Text (classifyFrequency dfn)];
       [Text "Analysis Confidence"; Text "High (Automated Detection)"];
       [Text "Processing Method"; Text "FFT + STFT Analysis"];
       [Text "Detection Algorithm"; Text "Energy-based with Spectral Features"] ].

(** One row of the sound events table. *)
Definition soundEventRow (h : gmap loc (cell num)) (event : value num) (index : nat)
  : outcome (list Cell) :=
  t ← shown h event "time" (VNum nzero) "s";
  ty ← shown h event "type" (VStr "Unknown") "";
  f ← shown h event "frequency" (VNum nzero) " Hz";
  a ← number_or h event "amplitude" 0;
  db ← shown h event "decibels" (VNum nzero) " dB";
  fn ← number_or h event "frequency" 440;
  Ok [ Shown (VNum (nof_nat (index + 1))) ""; t; ty; f; percent a; db; Text (classifyFrequency fn) ].

(** The sound events section: [slice(0, 15)] copies, [map] builds rows. *)
Definition soundEventsTable (h : gmap loc (cell num)) (results : value num)
  : outcome (list Draw) :=
  se ← get h results "soundEvents";
  some ← nonempty h se;
  if (some : bool) then
    es ← array_of h se "slice";
    rows ← mapi (soundEventRow h) (take 15 es);
    Ok [ Heading "Detected Sound Events";
         Table ["#"; "Time"; "Type"; "Frequency"; "Amplitude"; "Decibels"; "Classification"] rows ]
  else
    Ok [ Heading "Detected Sound Events";
         Paragraph [Text "No sound events detected in this audio file."] ].

(** The sort key of a spectrum point: [(p.magnitude || 0)]. *)
Definition magnitudeKey (h : gmap loc (cell num)) (p : value num) (_ : nat)
  : outcome (value num * option num) :=
  k ← number_or h p "magnitude" 0;
  Ok (p, k).

(** The comparator [(a, b) => (b.magnitude || 0) - (a.magnitude || 0)]
    answers a positive number: [a] goes after [b]. *)
Definition after (a b : value num * option num) : bool :=
  lt_nan (Some nzero) (lift2 nsub (snd b) (snd a)).

(** One row of the frequency table. *)
Definition frequencyRow (h : gmap loc (cell num)) (freq : value num) (index : nat)
  : outcome (list Cell) :=
  f ← shown h freq "frequency" (VNum nzero) " Hz";
  m ← number_or h freq "magnitude" 0;
  fn ← number_or h freq "frequency" 440;
  Ok [ Shown (VNum (nof_nat (index + 1))) ""; f; percent m; generateBarChart m;
       Text (classifyFrequency fn) ].

(** The frequency section.  [results.frequencySpectrum.sort(...)] sorts the
    array it is called on, in place, and answers that same array; only the
    later [slice(0, 10)] copies. *)
Definition frequencyAnalysis (h : gmap loc (cell num)) (results : value num)
  : gmap loc (cell num) * outcome (list Draw) :=
  let title := [AddPage; Heading "Comprehensive Frequency Analysis"] in
  match get h results "frequencySpectrum" with
  | Throw e => (h, Throw e)
  | Ok fs =>
      match nonempty h fs with
      | Throw e => (h, Throw e)
      | Ok false => (h, Ok title)
      | Ok true =>
          match fs, array_of h fs "sort" with
          | VRef l, Ok es =>
              match mapi (magnitudeKey h) es with
              | Throw e => (h, Throw e)
              | Ok keyed =>
                  let sorted := map fst (stable_sort after keyed) in
                  let h' := <[l := CArr sorted]> h in
                  (h',
                   rows ← mapi (frequencyRow h') (take 10 sorted);
                   Ok (title ++
                       [ Paragraph [Text "Frequency Distribution (Top 10 Components):"];
                         Table ["Rank"; "Frequency"; "Magnitude"; "Visual"; "Classification"]
                           rows ]))
              end
          | _, Throw e => (h, Throw e)
          | _, Ok _ => (h, Throw (TypeError "sort is not a function"))
          end
      end
  end.

(** [Math.max(...l)] and [Math.min(...l)] on a list that is not empty; NaN
    as soon as one element is. *)
Definition extreme (better : num -> num -> bool) (l : list (option num)) : option num :=
  match l with
  | [] => None
  | x :: r =>
      fold_left (fun acc y =>
                   match acc, y with
                   | Some a, Some b => Some (if better a b then b else a)
                   | _, _ => None
                   end) r x
  end.

(** [Math.max(...l)] *)
Definition maxOf (l : list (option num)) : option num := extreme (fun a b => a <? b) l.

(** [Math.min(...l)] *)
Definition minOf (l : list (option num)) : option num := extreme (fun a b => b <? a) l.

(** [l.reduce((a, b) => a + b, 0) / l.length] *)
Definition average (l : list (option num)) : option num :=
  lift2 ndiv (fold_left (lift2 nadd) l (Some nzero)) (Some (nof_nat (length l))).

(** [generateStatisticalAnalysis(results)]: reads, never writes. *)
Definition generateStatisticalAnalysis (h : gmap loc (cell num)) (results : value num)
  : outcome (list (list Cell)) :=
  se ← get h results "soundEvents";
  some ← nonempty h se;
  if (some : bool) then
    es ← array_of h se "map";
    amplitudes ← mapi (fun e _ => number_or h e "amplitude" 0) es;
    frequencies ← mapi (fun e _ => number_or h e "frequency" 0) es;
    if (0 <? length amplitudes)%nat && (0 <? length frequencies)%nat then
      let avgAmplitude := average amplitudes in
      let avgFrequency := average frequencies in
      len ← get h se "length";
      d ← number_or h results "duration" 1;
      let density := lift2 ndiv (to_number len) d in
      Ok [ [ Text "Average Amplitude"; percent avgAmplitude;
             Text (if lt_nan (Some (#7 / #10)) avgAmplitude
                   then "High energy content" else "Moderate energy") ];
           [ Text "Amplitude Range"; percent (minOf amplitudes); percent (maxOf amplitudes);
             Text "Dynamic range indicator" ];
           [ Text "Average Frequency"; Number avgFrequency 0 " Hz";
             Text (classifyFrequency avgFrequency) ];
           [ Text "Frequency Range"; Number (minOf frequencies) 0 "";
             Number (maxOf frequencies) 0 " Hz"; Text "Spectral bandwidth" ];
           [ Text "Event Density"; Number density 2 " events/sec";
             Text (if lt_nan (Some #1) density then "High activity" else "Low activity") ] ]
    else Ok []
  else Ok [].

(** SameValueZero, the equality of [Set]. *)
Definition same_value (a b : value num) : bool :=
  match a, b with
  | VUndef, VUndef | VNull, VNull => true
  | VBool x, VBool y => Bool.eqb x y
  | VNum x, VNum y => (x =? y) || (negb (x =? x) && negb (y =? y))
  | VStr x, VStr y => String.eqb x y
  | VRef x, VRef y => Pos.eqb x y
  | _, _ => false
  end.

(** [Array.from(new Set(l))]: first occurrences, in order. *)
Fixpoint unique (seen l : list (value num)) : list (value num) :=
  match l with
  | [] => []
  | x :: r =>
      if existsb (same_value x) seen then unique seen r
      else x :: unique (x :: seen) r
  end.

(** [generateDetailedConclusions(results)]: reads, never writes.  A
    paragraph keeps its title and the values it interpolates. *)
Definition generateDetailedConclusions (h : gmap loc (cell num)) (results : value num)
  : outcome (list (list Cell)) :=
  fname ← shown h results "filename" (VStr "audio file") "";
  ds ← shown h results "detectedSounds" (VNum nzero) " distinct sound events";
  d ← shown h results "duration" (VNum nzero) " second duration";
  df ← get h results "dominantFrequency";
  md ← get h results "maxDecibels";
  se ← get h results "soundEvents";
  some ← nonempty h se;
  types ← (if (some : bool) then
             es ← array_of h se "map";
             tys ← mapi (fun e _ => ty ← get h e "type"; Ok (or_else ty (VStr "Unknown"))) es;
             Ok [ Text "SOUND CLASSIFICATION" :: map (fun t => Shown t "") (unique [] tys) ]
           else Ok []);
  Ok ([ [Text "EXECUTIVE SUMMARY"; fname; ds; d] ] ++
      (if truthy df
       then [ [Text "FREQUENCY ANALYSIS"; Shown df " Hz"; Text (classifyFrequency (to_number df))] ]
       else []) ++
      (if lt_nan (Some (nzero - #10)) (to_number md)
       then [ [Text "AMPLITUDE ASSESSMENT"; Text "high-amplitude signals"; Shown md " dB"] ]
       else if lt_nan (to_number md) (Some (nzero - #30))
       then [ [Text "AMPLITUDE ASSESSMENT"; Text "low amplitude levels"; Shown md " dB"] ]
       else []) ++
      types ++
      [ [Text "FORENSIC SIGNIFICANCE"]; [Text "TECHNICAL VALIDATION"] ]).

(** A character of the class [[^/.]]. *)
Definition plainChar (c : Ascii.ascii) : bool :=
  negb (Ascii.eqb c "/"%char) && negb (Ascii.eqb c "."%char).

(** A string of such characters only. *)
Fixpoint plain (s : string) : bool :=
  match s with
  | EmptyString => true
  | String c r => plainChar c && plain r
  end.

(** [name.replace(/\.[^/.]+$/, "")]: drops a final extension. *)
Fixpoint stripExtension (s : string) : string :=
  match s with
  | EmptyString => EmptyString
  | String c r =>
      if Ascii.eqb c "."%char && negb (String.eqb r "") && plain r then EmptyString
      else String c (stripExtension r)
  end.

(** [audioData.name.replace(...)]: only a string has the method. *)
Definition reportName (h : gmap loc (cell num)) (audioData : value num) : outcome string :=
  name ← get h audioData "name";
  match name with
  | VStr s => Ok ("Audio_Forensic_Report_" ++ stripExtension s ++ "_")%string
  | VUndef | VNull => Throw (TypeError "Cannot read properties of undefined (reading 'replace')")
  | _ => Throw (TypeError "replace is not a function")
  end.

(** The lines of the Analysis Methodology section (bullets left out). *)
Definition methodology : list string :=
  [ "This comprehensive audio forensic analysis was performed using advanced";
    "digital signal processing techniques:";
    "";
    "Fast Fourier Transform (FFT) for frequency domain analysis";
    "Short-Time Fourier Transform (STFT) for time-frequency representation";
    "Energy-based sound event detection with adaptive thresholding";
    "Spectral feature extraction including centroid and rolloff";
    "Statistical analysis of amplitude and frequency distributions";
    "";
    "The analysis provides comprehensive insights into:";
    "Temporal distribution and timing of sound events";
    "Frequency characteristics and dominant spectral components";
    "Amplitude variations and dynamic range analysis";
    "Sound classification based on spectral and temporal features" ].

(** The lines of the Technical Specifications section;
    [Math.floor] of the data points is left to rendering. *)
Definition techSpecs (h : gmap loc (cell num)) (results : value num)
  : outcome (list (list Cell)) :=
  sr ← shown h results "sampleRate" (VNum #44100) " Hz";
  d ← shown h results "duration" (VNum nzero) " seconds";
  srn ← number_or h results "sampleRate" 44100;
  dn ← number_or h results "duration" 0;
  Ok [ [Text "Analysis Engine: Audio Forensic Detector v1.0"];
       [Text "Processing Libraries: Web Audio API, Advanced Classification"];
       [Text "Sample Rate: "; sr];
       [Text "Analysis Duration: "; d];
       [Text "Total Data Points: "; Number (lift2 nmul srn dn) 0 ""];
       [Text "Frequency Resolution: "; Number (lift2 ndiv srn (Some #2048)) 2 " Hz"];
       [Text "Time Resolution: ";
        Number (lift2 nmul (lift2 ndiv (Some #1024) srn) (Some #1000)) 2 " ms"] ].

(** Everything up to the sound events table. *)
Definition firstPages (h : gmap loc (cell num)) (audioData results : value num)
  : outcome (list Draw) :=
  info ← fileInfo h audioData results;
  summary ← detectionSummary h results;
  events ← soundEventsTable h results;
  Ok ([ Progress 5 "Initializing PDF document...";
        Heading "Audio Forensic Analysis Report";
        Progress 10 "Adding file information...";
        Heading "File Information";
        Table ["Property"; "Value"] info;
        Progress 25 "Processing sound detection data...";
        Heading "Sound Detection Summary";
        Table ["Metric"; "Value"] summary;
        Progress 40 "Generating sound events table..." ] ++
      events ++
      [ Progress 60 "Creating frequency analysis..." ]).

(** Everything after the frequency table. *)
Definition lastPages (h : gmap loc (cell num)) (audioData results : value num)
  : outcome (list Draw) :=
  stats ← generateStatisticalAnalysis h results;
  conclusions ← generateDetailedConclusions h results;
  specs ← techSpecs h results;
  name ← get h audioData "name";
  file ← reportName h audioData;
  Ok ([ Progress 75 "Adding analysis methodology...";
        Heading "Statistical Analysis" ] ++
      (if (0 <? length stats)%nat
       then [ Table ["Metric"; "Value"; "Interpretation"] stats ] else []) ++
      [ Heading "Analysis Methodology" ] ++
      map (fun line => Paragraph [Text line]) methodology ++
      [ Progress 90 "Generating conclusions and summary...";
        AddPage;
        Heading "Analysis Summary & Conclusions" ] ++
      map Paragraph conclusions ++
      [ Heading "Technical Specifications" ] ++
      map Paragraph specs ++
      [ Progress 95 "Finalizing document...";
        Paragraph [Text "Audio Forensic Detector - Generated on "; Clock];
        Paragraph [Text "File: "; Shown name ""];
        Progress 100 "Saving PDF report...";
        Save file ]).

(** [error.message] *)
Definition message (e : exn) : string :=
  match e with
  | TypeError m | Error m => m
  end.

(** The [catch] of [generatePDFReport]. *)
Definition failed (e : exn) : exn := Error ("PDF generation failed: " ++ message e).

(** [generatePDFReport(audioData, onProgress)]: the store after the call,
    and the drawing it made or the error it threw.  [results] is the very
    object [audioData.analysisResults] refers to. *)
Definition generatePDFReport (h : gmap loc (cell num)) (audioData : value num)
  : gmap loc (cell num) * outcome (list Draw) :=
  match get h audioData "analysisResults" with
  | Throw e => (h, Throw e)
  | Ok results =>
      if negb (truthy results)
      then (h, Throw (Error "No analysis results available for PDF generation"))
      else
        match firstPages h audioData results with
        | Throw e => (h, Throw (failed e))
        | Ok d1 =>
            match frequencyAnalysis h results with
            | (h', Throw e) => (h', Throw (failed e))
            | (h', Ok d2) =>
                match lastPages h' audioData results with
                | Throw e => (h', Throw (failed e))
                | Ok d3 => (h', Ok (d1 ++ d2 ++ d3))
                end
            end
        end
  end.

End Report.

Arguments Cell num : clear implicits.
Arguments Draw num : clear implicits.

End PdfGenerator.

(** ** app/components/sonar-view.tsx *)

Module SonarView.
Import JS.

Local Open Scope num_scope.

Section View.
Context {num : Type} `{Num num}.

(** The functions of [Math] the view calls beyond arithmetic. *)
Record Math : Type := {
  PI : num;
  atan2 : num -> num -> num;
  cos : num -> num;
  sin : num -> num
}.

(** The canvas: its size and where its bounding rectangle starts. *)
Record Canvas : Type := {
  width : num;
  height : num;
  left : num;
  top : num
}.

(** Where the mouse was clicked. *)
Record MouseEvent : Type := {
  clientX : num;
  clientY : num
}.

(** Arithmetic on numbers that come out of values, NaN ([None])
    propagating. *)
Definition lift1 (f : num -> num) (x : option num) : option num :=
  match x with
  | Some a => Some (f a)
  | None => None
  end.

Definition lift2 (f : num -> num -> num) (x y : option num) : option num :=
  match x, y with
  | Some a, Some b => Some (f a b)
  | _, _ => None
  end.

(** [x < y], false as soon as one side is NaN. *)
Definition lt_nan (x y : option num) : bool :=
  match x, y with
  | Some a, Some b => a <? b
  | _, _ => false
  end.

(** [Math.min(a, b)], NaN if one of the two is (up to the sign of zero). *)
Definition min (a b : num) : num :=
  if b =? b then (if b <? a then b else a) else b.

(** [Math.min(canvas.width, canvas.height) / 2 - 40] *)
Definition maxRadiusOf (c : Canvas) : num := min (width c) (height c) / #2 - #40.

(** [Math.abs(e.time - time) + Math.abs(e.frequency - frequency) / 100] *)
Definition distanceTo (h : gmap loc (cell num)) (time frequency : option num)
    (e : value num) : outcome (option num) :=
  t ← get h e "time";
  f ← get h e "frequency";
  Ok (lift2 nadd
        (lift1 nabs (lift2 nsub (to_number t) time))
        (lift2 ndiv (lift1 nabs (lift2 nsub (to_number f) frequency)) (Some #100))).

(** The callback of the nearest-event search. *)
Definition closer (h : gmap loc (cell num)) (time frequency : option num)
    (nearest event : value num) : outcome (value num) :=
  eventDistance ← distanceTo h time frequency event;
  nearestDistance ← distanceTo h time frequency nearest;
  Ok (if lt_nan eventDistance nearestDistance then event else nearest).

(** The distance of a click from the centre of the canvas. *)
Definition clickDistance (c : Canvas) (e : MouseEvent) : num :=
  let dx := (clientX e - left c) - width c / #2 in
  let dy := (clientY e - top c) - height c / #2 in
  nsqrt (dx * dx + dy * dy).

(** [distance <= maxRadius] *)
Definition insideRadius (c : Canvas) (e : MouseEvent) : bool :=
  clickDistance c e <=? maxRadiusOf c.

(** [handleCanvas2DClick(event)]: the selected event after the click. *)
Definition handleCanvas2DClick (m : Math) (h : gmap loc (cell num))
    (audioData : value num) (canvas2D : Canvas) (event : MouseEvent)
    (selectedEvent : value num) : outcome (value num) :=
  let x := clientX event - left canvas2D in
  let y := clientY event - top canvas2D in
  let centerX := width canvas2D / #2 in
  let centerY := height canvas2D / #2 in
  let maxRadius := maxRadiusOf canvas2D in
  let dx := x - centerX in
  let dy := y - centerY in
  let distance := nsqrt (dx * dx + dy * dy) in
  let angle := atan2 m dy dx + PI m / #2 in
  if distance <=? maxRadius then
    results ← get h audioData "analysisResults";
    d ← get h results "duration";
    let time := lift2 nmul (Some (angle / (#2 * PI m))) (to_number d) in
    let frequency := Some ((distance / maxRadius) * #2000) in
    soundEvents ← get h results "soundEvents";
    es ← array_of h soundEvents "reduce";
    nearestEvent ← reduce1 (closer h time frequency) es;
    Ok (if truthy nearestEvent then nearestEvent else selectedEvent)
  else Ok selectedEvent.

(** A blip of the 2D display. *)
Record Blip : Type := {
  blipX : option num;
  blipY : option num;
  intensity : value num;
  labelled : bool
}.

(** The body of [results.soundEvents.forEach((event, index) => ...)]. *)
Definition blipOf (m : Math) (h : gmap loc (cell num)) (c : Canvas) (d : value num)
    (event : value num) (index : nat) : outcome Blip :=
  let centerX := width c / #2 in
  let centerY := height c / #2 in
  let maxRadius := maxRadiusOf c in
  t ← get h event "time";
  f ← get h event "frequency";
  a ← get h event "amplitude";
  let angle :=
    lift2 nsub
      (lift2 nmul (lift2 nmul (lift2 ndiv (to_number t) (to_number d)) (Some #2))
         (Some (PI m)))
      (Some (PI m / #2)) in
  let distance :=
    lift1 (fun r => min r maxRadius)
      (lift2 nmul (lift2 ndiv (to_number f) (Some #2000)) (Some maxRadius)) in
  Ok {| blipX := lift2 nadd (Some centerX) (lift2 nmul (lift1 (cos m) angle) distance);
        blipY := lift2 nadd (Some centerY) (lift2 nmul (lift1 (sin m) angle) distance);
        intensity := a;
        labelled := gt_value a (#6 / #10) || (index <? 3)%nat |}.

(** The sound events [draw2DSonarView] plots: nothing without analysis
    results, else one blip per element of [results.soundEvents], when there
    is such a list. *)
Definition blips (m : Math) (h : gmap loc (cell num)) (audioData : value num) (c : Canvas)
  : outcome (list Blip) :=
  results ← get_opt h audioData "analysisResults";
  if negb (truthy results) then Ok []
  else
    d ← get h results "duration";
    soundEvents ← get_opt h results "soundEvents";
    if truthy soundEvents then
      es ← array_of h soundEvents "forEach";
      mapi (blipOf m h c d) es
    else Ok [].

(** The "Total Events" line of the Detection Statistics card:
    [{audioData.analysisResults.detectedSounds}]. *)
Definition totalEvents (h : gmap loc (cell num)) (audioData : value num)
  : outcome (value num) :=
  results ← get h audioData "analysisResults";
  get h results "detectedSounds".

(** [Math.max(a, b)], NaN if one of the two is (up to the sign of zero). *)
Definition max (a b : num) : num :=
  if b =? b then (if a <? b then b else a) else b.

(** The argument of [setZoom3D] in [handleWheel]:
    [Math.max(0.5, Math.min(3, prev + e.deltaY * -0.001))]. *)
Definition handleWheel (prev deltaY : num) : num :=
  max (#5 / #10) (min #3 (prev + deltaY * (nzero - #1 / #1000))).

(** What the mouse handlers of the 3D canvas keep: the variables
    [isDragging], [lastX], [lastY] of the effect and the two rotation
    states. *)
Record Drag : Type := {
  isDragging : bool;
  lastX : num;
  lastY : num;
  rotationX : num;
  rotationY : num
}.

(** The mouse events the 3D canvas listens to, with [clientX] and
    [clientY]. *)
Inductive Mouse : Type :=
| MouseDown (x y : num)
| MouseMove (x y : num)
| MouseUp.

(** [handleMouseDown], [handleMouseMove] and [handleMouseUp]. *)
Definition handleMouse (d : Drag) (e : Mouse) : Drag :=
  match e with
  | MouseDown x y =>
      {| isDragging := true; lastX := x; lastY := y;
         rotationX := rotationX d; rotationY := rotationY d |}
  | MouseMove x y =>
      if negb (isDragging d) then d
      else
        let deltaX := x - lastX d in
        let deltaY := y - lastY d in
        {| isDragging := true; lastX := x; lastY := y;
           rotationX := rotationX d + deltaY * (#1 / #100);
           rotationY := rotationY d + deltaX * (#1 / #100) |}
  | MouseUp =>
      {| isDragging := false; lastX := lastX d; lastY := lastY d;
         rotationX := rotationX d; rotationY := rotationY d |}
  end.

(** The time and the frequency [handleCanvas2DClick] reads off a click
    inside the outer ring. *)
Definition clickTime (m : Math) (c : Canvas) (e : MouseEvent) (d : value num)
  : option num :=
  let dx := (clientX e - left c) - width c / #2 in
  let dy := (clientY e - top c) - height c / #2 in
  let angle := atan2 m dy dx + PI m / #2 in
  lift2 nmul (Some (angle / (#2 * PI m))) (to_number d).

Definition clickFrequency (c : Canvas) (e : MouseEvent) : option num :=
  Some ((clickDistance c e / maxRadiusOf c) * #2000).

End View.

Arguments Math num : clear implicits.
Arguments Canvas num : clear implicits.
Arguments MouseEvent num : clear implicits.
Arguments Blip num : clear implicits.
Arguments Drag num : clear implicits.
Arguments Mouse num : clear implicits.

End SonarView.

(** ** app/api/classify-audio/route.ts *)

Module Route.
Import JS.

(** What the spawned classifier process and the timer deliver to the
    handler, in the order the event loop runs the callbacks. *)
Inductive LoopEvent : Type :=
| StdoutData (chunk : string)
| StderrData (chunk : string)
| ProcessError (message : string)
| Close (code : option Z)
| TimerFired.

(** A field of an error body. *)
Inductive Field : Type :=
| FStr (s : string)
| FCode (code : option Z).

Section Handler.
Context {num : Type} `{Num num}.
(** The classifier's result, as [JSON.parse] reads it. *)
Context {json : Type}.

(** The body of a response: the classifier's result, or named fields. *)
Inductive Body : Type :=
| Parsed (j : json)
| Fields (fs : list (string * Field)).

(** A [NextResponse]: status and JSON body. *)
Record Response : Type := {
  status : nat;
  body : Body
}.

(** [NextResponse.json(fields, { status })] *)
Definition respond (st : nat) (fs : list (string * Field)) : Response :=
  {| status := st; body := Fields fs |}.

(** The [error] field of a response, if it has one. *)
Definition errorOf (r : Response) : option Field :=
  match body r with
  | Parsed _ => None
  | Fields fs => snd <$> List.find (fun kv => String.eqb (fst kv) "error") fs
  end.

(** What the handler does to the outside world. *)
Inductive Effect : Type :=
| Spawn (command : string) (script : list string)
| StdinWrite (audioData filename : value num)
| StdinEnd
| SetTimeout (ms : N)
| Kill.

(** The handler's variables once the process is spawned: the two
    buffers, and the promise, settled by the first [resolve] only. *)
Record Pending : Type := {
  stdout : string;
  stderr : string;
  resolved : option Response;
  log : list Effect
}.

(** [resolve(r)]: settles a pending promise, and does nothing on a settled
    one. *)
Definition resolve (r : Response) (p : Pending) : Pending :=
  {| stdout := stdout p;
     stderr := stderr p;
     resolved := match resolved p with
                 | Some first => Some first
                 | None => Some r
                 end;
     log := log p |}.

(** The responses of the handler. *)
Definition timeoutResponse : Response :=
  respond 408 [ ("error", FStr "Classification timeout");
                ("message", FStr "MediaPipe classification took too long") ].

Definition parseFailure (details out err : string) : Response :=
  respond 500 [ ("error", FStr "Failed to parse classification results");
                ("details", FStr details);
                ("stdout", FStr out);
                ("stderr", FStr err) ].

Definition classificationFailed (code : option Z) (out err : string) : Response :=
  respond 500 [ ("error", FStr "MediaPipe classification failed");
                ("code", FCode code);
                ("stderr", FStr err);
                ("stdout", FStr out) ].

Definition startFailed (details : string) : Response :=
  respond 500 [ ("error", FStr "Failed to start python process");
                ("details", FStr details) ].

Definition noAudioData : Response :=
  respond 400 [ ("error", FStr "No audio data provided") ].

Definition internalError (details : string) : Response :=
  respond 500 [ ("error", FStr "Internal server error");
                ("details", FStr details) ].

(** One callback run.  [parse] is [JSON.parse(stdout.trim())]: the value
    read, or the message of the error thrown. *)
Definition on (parse : string -> string + json) (p : Pending) (e : LoopEvent) : Pending :=
  match e with
  | StdoutData chunk =>
      {| stdout := stdout p ++ chunk; stderr := stderr p;
         resolved := resolved p; log := log p |}
  | StderrData chunk =>
      {| stdout := stdout p; stderr := stderr p ++ chunk;
         resolved := resolved p; log := log p |}
  | ProcessError message => resolve (startFailed message) p
  | Close code =>
      match code with
      | Some 0%Z =>
          match parse (stdout p) with
          | inr jsonResult => resolve {| status := 200; body := Parsed jsonResult |} p
          | inl details => resolve (parseFailure details (stdout p) (stderr p)) p
          end
      | _ => resolve (classificationFailed code (stdout p) (stderr p)) p
      end
  | TimerFired =>
      resolve timeoutResponse
        {| stdout := stdout p; stderr := stderr p;
           resolved := resolved p; log := log p ++ [Kill] |}
  end.

(** The events by which the process reports that it has completed, or
    that it never started. *)
Definition completes (e : LoopEvent) : bool :=
  match e with
  | Close _ | ProcessError _ => true
  | StdoutData _ | StderrData _ | TimerFired => false
  end.

(** [process.platform === "win32" ? "python" : "python3"] *)
Definition pythonCommand (platform : string) : string :=
  if String.eqb platform "win32" then "python" else "python3".

(** The state right after [spawn], the stdin write and [setTimeout].  A
    failing write is caught and logged by the handler and changes nothing
    here. *)
Definition spawned (platform cwd : string) (audioData filename : value num) : Pending :=
  {| stdout := "";
     stderr := "";
     resolved := None;
     log := [ Spawn (pythonCommand platform) [cwd; "scripts"; "mediapipe_audio_classifier.py"];
               StdinWrite audioData (or_else filename (VStr "uploaded_audio"));
               StdinEnd;
               SetTimeout 60000%N ] |}.

(** What a call of [POST] comes to: the response, if the promise was
    settled, and the effects. *)
Record Outcome : Type := {
  response : option Response;
  effects : list Effect
}.

(** [error.message] *)
Definition message (e : exn) : string :=
  match e with
  | TypeError m | Error m => m
  end.

(** [const { f, ... } = await request.json()]: the property [f] of the
    body.  Destructuring [null] (or [undefined], which no JSON text gives)
    throws, with the message V8 gives for a pattern whose source is not a
    plain name. *)
Definition destructure (h : gmap loc (cell num)) (v : value num) (f : string)
  : outcome (value num) :=
  match v with
  | VUndef =>
      Throw (TypeError ("Cannot destructure property '" ++ f
                        ++ "' of '(intermediate value)' as it is undefined."))
  | VNull =>
      Throw (TypeError ("Cannot destructure property '" ++ f
                        ++ "' of '(intermediate value)' as it is null."))
  | _ => get h v f
  end.

(** [POST(request)].  [request] is what [await request.json()] gives: the
    parsed body in its store, or the error thrown; [events] is what the
    event loop delivers after the spawn. *)
Definition POST (parse : string -> string + json) (platform cwd : string)
    (request : outcome (gmap loc (cell num) * value num))
    (events : list LoopEvent) : Outcome :=
  let early :=
    '(h, reqBody) ← request;
    audioData ← destructure h reqBody "audioData";
    filename ← destructure h reqBody "filename";
    Ok (audioData, filename) in
  match early with
  | Throw e => {| response := Some (internalError (message e)); effects := [] |}
  | Ok (audioData, filename) =>
      if negb (truthy audioData)
      then {| response := Some noAudioData; effects := [] |}
      else
        let final := fold_left (on parse) events (spawned platform cwd audioData filename) in
        {| response := resolved final; effects := log final |}
  end.

(** The chunks the process writes on its two streams. *)
Definition isData (e : LoopEvent) : bool :=
  match e with
  | StdoutData _ | StderrData _ => true
  | ProcessError _ | Close _ | TimerFired => false
  end.

(** What [events] carry for the buffer [stdout], and for [stderr], chunk
    after chunk. *)
Definition stdoutOf (events : list LoopEvent) : string :=
  fold_right
    (fun e rest => match e with StdoutData chunk => (chunk ++ rest)%string | _ => rest end)
    "" events.

Definition stderrOf (events : list LoopEvent) : string :=
  fold_right
    (fun e rest => match e with StderrData chunk => (chunk ++ rest)%string | _ => rest end)
    "" events.

(** How often the timer callback runs in [events]. *)
Definition timerRuns (events : list LoopEvent) : nat :=
  length (List.filter (fun e => match e with TimerFired => true | _ => false end) events).

End Handler.

Arguments Body json : clear implicits.
Arguments Response json : clear implicits.
Arguments Pending num json : clear implicits.
Arguments Outcome num json : clear implicits.
Arguments Effect num : clear implicits.

End Route.

(** ** The process boundary: an AnalysisResult as the JSON object the web
    application holds

    The code that hands the result to the components is not among the
    source files; the shape of the object is the one the contract fixes and
    the components read. *)

Module Boundary.
Import JS Pipeline.

Section Encode.
Context {num : Type} `{Num num}.

(** Modelled from the spec: the labels as the strings of the [type] field. *)
Definition labelName (l : Label) : string :=
  match l with
  | Voice => "Voice"
  | Percussion => "Percussion"
  | Tone => "Tone"
  | Ambient => "Ambient"
  | Unknown => "Unknown"
  end.

(** Modelled from the spec: a SoundEvent is the object
    [{time, type, frequency, amplitude, decibels, confidence?}]. *)
Definition eventCell (e : SoundEvent num) : cell num :=
  let fields : gmap string (value num) :=
    <["time" := VNum (ev_time e)]>
    (<["type" := VStr (labelName (ev_type e))]>
    (<["frequency" := VNum (ev_frequency e)]>
    (<["amplitude" := VNum (ev_amplitude e)]>
    (<["decibels" := VNum (ev_decibels e)]> ∅)))) in
  CObj match ev_confidence e with
       | Some c => <["confidence" := VNum c]> fields
       | None => fields
       end.

(** Modelled from the spec: a SpectrumPoint is the object
    [{frequency, magnitude, time}]. *)
Definition pointCell (p : SpectrumPoint num) : cell num :=
  CObj (<["frequency" := VNum (sp_frequency p)]>
       (<["magnitude" := VNum (sp_magnitude p)]>
       (<["time" := VNum (sp_time p)]> ∅))).

(** Modelled from the spec: the output is one object with the field names
    [duration], [sampleRate], [averageRMS], [detectedSounds],
    [dominantFrequency], [maxDecibels], [soundEvents], [frequencySpectrum]. *)
Definition resultFields (r : AnalysisResult num) (events spectrum : value num)
  : gmap string (value num) :=
  <["duration" := VNum (duration r)]>
  (<["sampleRate" := VNum (sampleRate r)]>
  (<["averageRMS" := VNum (averageRMS r)]>
  (<["detectedSounds" := VNum (nof_nat (detectedSounds r))]>
  (<["dominantFrequency" := VNum (dominantFrequency r)]>
  (<["maxDecibels" := VNum (maxDecibels r)]>
  (<["soundEvents" := events]>
  (<["frequencySpectrum" := spectrum]> ∅))))))).

(** Modelled from the spec: the result object in the store. *)
Definition resultCell (r : AnalysisResult num) (events spectrum : value num) : cell num :=
  CObj (resultFields r events spectrum).

(** Modelled from the spec: the JSON response of the missing pipeline,
    parsed into the store: the events, their array, the spectrum points,
    their array, the result object. *)
Definition storeResult (r : AnalysisResult num) (h : gmap loc (cell num))
  : gmap loc (cell num) * value num :=
  let '(h1, events) := alloc_list (map eventCell (soundEvents r)) h in
  let '(h2, eventArray) := alloc (CArr events) h1 in
  let '(h3, points) := alloc_list (map pointCell (frequencySpectrum r)) h2 in
  let '(h4, pointArray) := alloc (CArr points) h3 in
  alloc (resultCell r eventArray pointArray) h4.

(** Modelled from the spec: the fields of the components' [AudioData]
    (its [blob] left out), around a stored result. *)
Definition audioFields (name url : string) (r : AnalysisResult num) (results : value num)
  : gmap string (value num) :=
  <["url" := VStr url]>
  (<["name" := VStr name]>
  (<["duration" := VNum (duration r)]>
  (<["analysisResults" := results]> ∅))).

(** Modelled from the spec: the [AudioData] the components receive,
    [{url, name, duration, analysisResults}], which the missing upload code
    builds around the result. *)
Definition storeAudioData (name url : string) (r : AnalysisResult num)
    (h : gmap loc (cell num)) : gmap loc (cell num) * value num :=
  let '(h1, results) := storeResult r h in
  alloc (CObj (audioFields name url r results)) h1.

End Encode.
End Boundary.

(** ** app/components/enhanced-audio-analysis.tsx *)

Module EnhancedAudioAnalysis.
Import JS Supabase Database.

Local Open Scope num_scope.

Section Component.
Context {num : Type} `{Num num}.

(** The state [dbStatus]. *)
Record DbStatus : Type := {
  connected : bool;
  message : option string
}.

(** [useState({ connected: false })] *)
Definition initialDbStatus : DbStatus := {| connected := false; message := None |}.

(** [checkDatabaseConnection()]: the value given to [setDbStatus].
    [select] is what the probe of [testConnection] answers.
    [testConnection] catches every error itself, so the [catch] around the
    call ("Connection test failed") has nothing to catch. *)
Definition checkDatabaseConnection (env : Env) (select : outcome InsertReply)
  : DbStatus :=
  let supabaseStatus := getSupabaseStatus env in
  if negb (Supabase.connected supabaseStatus) then
    {| connected := false; message := Some "Supabase not configured" |}
  else
    let testResult := testConnection env select in
    {| connected := success testResult;
       message := Some (Database.message testResult) |}.

(** What [handleSaveToDatabase] shows. *)
Inductive Shown : Type :=
| Alert (text : string)
| SetIsSaving (saving : bool)
| SetSaveStatus (text : string) (clearedAfter : N).

(** Where [handleSaveToDatabase] ends: what it showed and, if it came to
    that, how [saveAnalysis] settled. *)
Record Saved : Type := {
  shown : list Shown;
  saved : option (Settled num)
}.

(** [handleSaveToDatabase()].  [audioData?.analysisResults] does not
    throw: the first case is there for the type only. *)
Definition handleSaveToDatabase (env : Env) (now : N)
    (insert : AudioAnalysisRecord num -> InsertReply) (dbStatus : DbStatus)
    (h : gmap loc (cell num)) (audioData : value num) : Saved :=
  match get_opt h audioData "analysisResults" with
  | Throw _ => {| shown := []; saved := None |}
  | Ok results =>
      if negb (truthy results) then
        {| shown := [Alert "No analysis results available to save"]; saved := None |}
      else if negb (connected dbStatus) then
        {| shown :=
             [Alert "Database is not available. Please check your Supabase configuration."];
           saved := None |}
      else
        let s := saveAnalysis env now insert h audioData in
        {| shown :=
             [SetIsSaving true;
              match result s with
              | Ok analysisId =>
                  if truthy analysisId
                  then SetSaveStatus "✅ Enhanced analysis saved to database successfully!" 3000
                  else SetSaveStatus "❌ Failed to save analysis to database" 3000
              | Throw e => SetSaveStatus ("❌ Database error: " ++ messageOr e) 5000
              end;
              SetIsSaving false];
           saved := Some s |}
  end.

(** The argument of [setZoom3D] in [handleWheel]:
    [Math.max(0.3, Math.min(3, prev + e.deltaY * -0.001))]. *)
Definition handleWheel (prev deltaY : num) : num :=
  SonarView.max (#3 / #10)
    (SonarView.min #3 (prev + deltaY * (nzero - #1 / #1000))).

End Component.

Arguments Saved num : clear implicits.

End EnhancedAudioAnalysis.

(** ** Concrete inputs *)

Module Samples.
Import JS.

Definition noEnv : Supabase.Env :=
  {| Supabase.NEXT_PUBLIC_SUPABASE_URL := None;
     Supabase.NEXT_PUBLIC_SUPABASE_ANON_KEY := None |}.

Definition someEnv : Supabase.Env :=
  {| Supabase.NEXT_PUBLIC_SUPABASE_URL := Some "https://db.example";
     Supabase.NEXT_PUBLIC_SUPABASE_ANON_KEY := Some "anon" |}.

(** The database of the examples stores every row under the id [row-1]. *)
Definition acceptAll (_ : Database.AudioAnalysisRecord float) : Database.InsertReply :=
  {| Database.data := Some ["row-1"]; Database.error := None |}.

(** A database without the tables: every insert is answered with the error
    of PostgreSQL. *)
Definition withoutTables (_ : Database.AudioAnalysisRecord float) : Database.InsertReply :=
  {| Database.data := None;
     Database.error := Some ("ERROR: " ++ Database.missingTables ++ " (42P01)")%string |}.

Definition point (f m : float) : cell float :=
  CObj (<["frequency" := VNum f]> (<["magnitude" := VNum m]> ∅)).

(** An audio file with two spectrum points, frequency-ascending, and no
    sound event:
    [{name: "a.wav", analysisResults: {duration: 2, sampleRate: 44100,
      averageRMS: 0.125, detectedSounds: 0, dominantFrequency: 200,
      maxDecibels: -6, soundEvents: [],
      frequencySpectrum: [{frequency: 100, magnitude: 0.25},
                          {frequency: 200, magnitude: 0.75}]}}] *)
Definition twoPointsResults : gmap string (value float) :=
  <["duration" := VNum 2%float]>
  (<["sampleRate" := VNum 44100%float]>
  (<["averageRMS" := VNum 0.125%float]>
  (<["detectedSounds" := VNum 0%float]>
  (<["dominantFrequency" := VNum 200%float]>
  (<["maxDecibels" := VNum (-6)%float]>
  (<["soundEvents" := VRef 4%positive]>
  (<["frequencySpectrum" := VRef 3%positive]> ∅))))))).

Definition twoPointsFields : gmap string (value float) :=
  <["name" := VStr "a.wav"]> (<["analysisResults" := VRef 5%positive]> ∅).

Definition twoPoints : gmap loc (cell float) :=
  <[1%positive := point 100 0.25]>
  (<[2%positive := point 200 0.75]>
  (<[3%positive := CArr [VRef 1%positive; VRef 2%positive]]>
  (<[4%positive := CArr []]>
  (<[5%positive := CObj twoPointsResults]>
  (<[6%positive := CObj twoPointsFields]> ∅))))).

Definition twoPointsAudio : value float := VRef 6%positive.

(** The same data under other names:
    [{name: "a.wav", analysisResults: {length: 2, rate: 44100, events: []}}] *)
Definition renamed : gmap loc (cell float) :=
  <[1%positive := CArr []]>
  (<[2%positive :=
       CObj (<["length" := VNum 2%float]>
            (<["rate" := VNum 44100%float]>
            (<["events" := VRef 1%positive]> ∅)))]>
  (<[3%positive :=
       CObj (<["name" := VStr "a.wav"]>
            (<["analysisResults" := VRef 2%positive]> ∅))]> ∅)).

(** A request body [{filename: "a.wav"}] and a body [{audioData: "UklGRg",
    filename: "a.wav"}]. *)
Definition bodyWithoutAudio : gmap loc (cell float) :=
  <[1%positive := CObj (<["filename" := VStr "a.wav"]> ∅)]> ∅.

Definition bodyWithAudio : gmap loc (cell float) :=
  <[1%positive := CObj (<["audioData" := VStr "UklGRg"]>
                       (<["filename" := VStr "a.wav"]> ∅))]> ∅.

(** A classifier output reader that accepts nothing. *)
Definition rejectAll (_ : string) : string + unit := inl "Unexpected token".

(** A reader that accepts the empty object only. *)
Definition acceptBraces (out : string) : string + unit :=
  if String.eqb out "{}" then inr tt else inl "Unexpected token".

Definition math : SonarView.Math float :=
  {| SonarView.PI := 0x1.921fb54442d18p+1%float;
     SonarView.atan2 := fun _ _ => 0%float;
     SonarView.cos := fun _ => 1%float;
     SonarView.sin := fun _ => 0%float |}.

(** The 2D canvas of the split view, and a click on its centre. *)
Definition canvas : SonarView.Canvas float :=
  {| SonarView.width := 600%float; SonarView.height := 400%float;
     SonarView.left := 0%float; SonarView.top := 0%float |}.

Definition centreClick : SonarView.MouseEvent float :=
  {| SonarView.clientX := 300%float; SonarView.clientY := 200%float |}.

(** The functions of [Math] over the real numbers; [atan2], which only the
    click handler calls, is left constant. *)
Definition mathR : SonarView.Math R :=
  {| SonarView.PI := Rtrigo1.PI;
     SonarView.atan2 := fun _ _ => 0%R;
     SonarView.cos := Rtrigo_def.cos;
     SonarView.sin := Rtrigo_def.sin |}.

Definition canvasR : SonarView.Canvas R :=
  {| SonarView.width := 600%R; SonarView.height := 400%R;
     SonarView.left := 0%R; SonarView.top := 0%R |}.

Definition centreClickR : SonarView.MouseEvent R :=
  {| SonarView.clientX := 300%R; SonarView.clientY := 200%R |}.

(** Two sound events, at 1 s and 3000 Hz and at 0 s and 100 Hz, and two
    spectrum points of an analysis of 4 s, over either reading of the
    numbers:
    [{analysisResults: {duration: 4,
        soundEvents: [{time: 1, frequency: 3000, amplitude: 0.5},
                      {time: 0, frequency: 100, amplitude: 0.25}],
        frequencySpectrum: [{frequency: 100, magnitude: 0.25},
                            {frequency: 200, magnitude: 0.75}]}}] *)
Definition event {num : Type} (t f a : num) : cell num :=
  CObj (<["time" := VNum t]> (<["frequency" := VNum f]> (<["amplitude" := VNum a]> ∅))).

Definition component {num : Type} (f m : num) : cell num :=
  CObj (<["frequency" := VNum f]> (<["magnitude" := VNum m]> ∅)).

Definition twoEvents {num : Type} `{Num num} : gmap loc (cell num) :=
  <[1%positive := event (nof_Z 1) (nof_Z 3000) (ndiv (nof_Z 1) (nof_Z 2))]>
  (<[2%positive := event nzero (nof_Z 100) (ndiv (nof_Z 1) (nof_Z 4))]>
  (<[3%positive := CArr [VRef 1%positive; VRef 2%positive]]>
  (<[4%positive := CObj (<["duration" := VNum (nof_Z 4)]>
                         (<["soundEvents" := VRef 3%positive]>
                         (<["frequencySpectrum" := VRef 8%positive]> ∅)))]>
  (<[5%positive := CObj (<["analysisResults" := VRef 4%positive]> ∅)]>
  (<[6%positive := component (nof_Z 100) (ndiv (nof_Z 1) (nof_Z 4))]>
  (<[7%positive := component (nof_Z 200) (ndiv (nof_Z 3) (nof_Z 4))]>
  (<[8%positive := CArr [VRef 6%positive; VRef 7%positive]]> ∅))))))).

Definition caps : Pipeline.Capabilities float :=
  {| Pipeline.spectrumOf := fun _ _ => [];
     Pipeline.classify := fun _ => (Pipeline.Unknown, None);
     Pipeline.log10 := fun x => x |}.

Definition config : Pipeline.Config float :=
  {| Pipeline.frameSize := 2;
     Pipeline.hopSize := 2;
     Pipeline.sensitivityFactor := 2%float;
     Pipeline.minHoldTimeMs := 0%float;
     Pipeline.referenceDb := 1%float;
     Pipeline.noiseAlpha := 0.5%float;
     Pipeline.noiseFloor0 := 0%float |}.

(** Five silent samples, and five samples with a burst. *)
Definition silence : Pipeline.Waveform float :=
  {| Pipeline.wf_samples := [0; 0; 0; 0; 0]%float; Pipeline.wf_sampleRate := 1%float |}.

Definition burst : Pipeline.Waveform float :=
  {| Pipeline.wf_samples := [0; 0.5; 0; 0; 0.25]%float; Pipeline.wf_sampleRate := 1%float |}.

(** The same configuration and a silent waveform over the real numbers. *)
Definition capsR : Pipeline.Capabilities R :=
  {| Pipeline.spectrumOf := fun _ _ => [];
     Pipeline.classify := fun _ => (Pipeline.Unknown, None);
     Pipeline.log10 := fun x => (ln x / ln 10)%R |}.

Definition configR : Pipeline.Config R :=
  {| Pipeline.frameSize := 2;
     Pipeline.hopSize := 2;
     Pipeline.sensitivityFactor := 2%R;
     Pipeline.minHoldTimeMs := 0%R;
     Pipeline.referenceDb := 1%R;
     Pipeline.noiseAlpha := (1 / 2)%R;
     Pipeline.noiseFloor0 := 0%R |}.

Definition silenceR : Pipeline.Waveform R :=
  {| Pipeline.wf_samples := [0; 0; 0; 0; 0]%R; Pipeline.wf_sampleRate := 1%R |}.

End Samples.

(** * Properties *)

(** ** The store *)

Section StoreFacts.
Import JS.
Context {num : Type} `{Num num}.

Lemma fresh_unused (h : gmap loc (cell num)) : h !! fresh (dom h) = None.
Proof. apply not_elem_of_dom, is_fresh. Qed.

Lemma alloc_new (c : cell num) (h : gmap loc (cell num)) :
  exists l, snd (alloc c h) = VRef l /\ h !! l = None /\ fst (alloc c h) !! l = Some c.
Proof.
  exists (fresh (dom h)). cbn. split; [reflexivity |]. split.
  - apply fresh_unused.
  - apply lookup_insert_eq.
Qed.

Lemma alloc_old (c x : cell num) (h : gmap loc (cell num)) (l : loc) :
  h !! l = Some x -> fst (alloc c h) !! l = Some x.
Proof.
  intros Hl. cbn. rewrite lookup_insert_ne; [exact Hl |].
  intros <-. rewrite fresh_unused in Hl. discriminate.
Qed.

Lemma alloc_list_spec (cs : list (cell num)) (h : gmap loc (cell num)) :
  (forall l x, h !! l = Some x -> fst (alloc_list cs h) !! l = Some x) /\
  Forall2 (fun v c => exists l, v = VRef l /\ fst (alloc_list cs h) !! l = Some c)
    (snd (alloc_list cs h)) cs.
Proof.
  revert h. induction cs as [| c cs IH]; intros h.
  - split; [intros l x Hl; exact Hl | constructor].
  - cbn [alloc_list].
    destruct (alloc_new c h) as (l0 & Hv & _ & Hl0).
    destruct (alloc c h) as [h1 v] eqn:E1. cbn [fst snd] in *.
    specialize (IH h1) as [Hkeep Hall].
    destruct (alloc_list cs h1) as [h2 vs] eqn:E2. cbn [fst snd] in *.
    split.
    + intros l x Hl. apply Hkeep.
      pose proof (alloc_old c x h l Hl) as Hold. now rewrite E1 in Hold.
    + constructor; [| exact Hall].
      exists l0. split; [exact Hv | now apply Hkeep].
Qed.

End StoreFacts.

(** ** The process boundary *)

Section BoundaryFacts.
Import JS Pipeline Boundary.
Context {num : Type} `{Num num}.

(** The store after [storeAudioData]: the audio object, the result object
    with its eight fields, and the two arrays, one reference per event and
    per spectrum point. *)
Lemma storeAudioData_shape (name url : string) (r : AnalysisResult num)
    (h : gmap loc (cell num)) :
  exists h' la lr le ls evs pts,
    storeAudioData name url r h = (h', VRef la) /\
    h' !! la = Some (CObj (audioFields name url r (VRef lr))) /\
    h' !! lr = Some (CObj (resultFields r (VRef le) (VRef ls))) /\
    h' !! le = Some (CArr evs) /\
    h' !! ls = Some (CArr pts) /\
    Forall2 (fun v e => exists l, v = VRef l /\ h' !! l = Some (eventCell e))
      evs (soundEvents r) /\
    Forall2 (fun v p => exists l, v = VRef l /\ h' !! l = Some (pointCell p))
      pts (frequencySpectrum r).
Proof.
  unfold storeAudioData, storeResult.
  pose proof (alloc_list_spec (map eventCell (soundEvents r)) h) as [K1 A1].
  destruct (alloc_list (map eventCell (soundEvents r)) h) as [h1 evs] eqn:E1.
  cbn [fst snd] in *.
  destruct (alloc_new (CArr evs) h1) as (le & Hle & _ & Le).
  pose proof (fun x => alloc_old (CArr evs) x h1) as K2.
  destruct (alloc (CArr evs) h1) as [h2 ve] eqn:E2. cbn [fst snd] in *. subst ve.
  pose proof (alloc_list_spec (map pointCell (frequencySpectrum r)) h2) as [K3 A3].
  destruct (alloc_list (map pointCell (frequencySpectrum r)) h2) as [h3 pts] eqn:E3.
  cbn [fst snd] in *.
  destruct (alloc_new (CArr pts) h3) as (ls & Hls & _ & Ls).
  pose proof (fun x => alloc_old (CArr pts) x h3) as K4.
  destruct (alloc (CArr pts) h3) as [h4 vp] eqn:E4. cbn [fst snd] in *. subst vp.
  set (rc := resultCell r (VRef le) (VRef ls)).
  destruct (alloc_new rc h4) as (lr & Hlr & _ & Lr).
  pose proof (fun x => alloc_old rc x h4) as K5.
  destruct (alloc rc h4) as [h5 vr] eqn:E5. cbn [fst snd] in *. subst vr.
  set (ac := CObj (audioFields name url r (VRef lr))).
  destruct (alloc_new ac h5) as (la & Hla & _ & La).
  pose proof (fun x => alloc_old ac x h5) as K6.
  destruct (alloc ac h5) as [h6 va] eqn:E6. cbn [fst snd] in *. subst va.
  exists h6, la, lr, le, ls, evs, pts.
  split; [reflexivity |].
  split; [exact La |].
  split; [apply K6; exact Lr |].
  split; [apply K6, K5, K4, K3; exact Le |].
  split; [apply K6, K5; exact Ls |].
  split.
  - apply Forall2_fmap_r in A1.
    eapply Forall2_impl; [exact A1 |].
    intros v e (l & -> & Hl). exists l. split; [reflexivity |].
    apply K6, K5, K4, K3, K2; exact Hl.
  - apply Forall2_fmap_r in A3.
    eapply Forall2_impl; [exact A3 |].
    intros v e (l & -> & Hl). exists l. split; [reflexivity |].
    apply K6, K5, K4; exact Hl.
Qed.

End BoundaryFacts.

(** ** lib/database.ts *)

Section DatabaseFacts.
Import JS Supabase Database.
Context {num : Type} `{Num num}.

Lemma demo_id_truthy (now : N) :
  truthy (VStr ("demo-id-" ++ decimal now) : value num) = true.
Proof. reflexivity. Qed.

(** C10: when the Supabase client is unavailable, [saveAnalysis] resolves,
    after a one-second timer, to the string "demo-id-" followed by the
    clock reading: a truthy, non-null id, no rejection, and no insert into
    the database. *)
Theorem saveAnalysis_unavailable_resolves_demo_id
    (env : Env) (now : N) (insert : AudioAnalysisRecord num -> InsertReply)
    (h : gmap loc (cell num)) (audioData : value num) :
  isSupabaseAvailable env = false ->
  let s := saveAnalysis env now insert h audioData in
  result s = Ok (VStr ("demo-id-" ++ decimal now)) /\
  truthy (VStr ("demo-id-" ++ decimal now) : value num) = true /\
  result s <> Ok VNull /\
  (forall e, result s <> Throw e) /\
  effects s = [SetTimeout 1000%N] /\
  (forall table row, Insert table row ∉ effects s) /\
  store s = h.
Proof.
  intros Hoff. unfold saveAnalysis. rewrite Hoff. cbn.
  repeat split; try discriminate.
  intros table row Hin. apply list_elem_of_singleton in Hin. discriminate.
Qed.

Lemma or_empty_array_spec (h : gmap loc (cell num)) (v : value num) :
  (forall l x, h !! l = Some x -> fst (or_empty_array h v) !! l = Some x) /\
  (if truthy v then snd (or_empty_array h v) = v
   else emptyArray (fst (or_empty_array h v)) (snd (or_empty_array h v))).
Proof.
  unfold or_empty_array. destruct (truthy v).
  - split; [intros l x Hl; exact Hl | reflexivity].
  - split.
    + intros l x Hl. now apply alloc_old.
    + destruct (alloc_new (CArr []) h) as (l & Hv & _ & Hl).
      exists l. split; assumption.
Qed.

Lemma emptyArray_preserved (h h' : gmap loc (cell num)) (v : value num) :
  (forall l x, h !! l = Some x -> h' !! l = Some x) ->
  emptyArray h v -> emptyArray h' v.
Proof. intros Hkeep (l & -> & Hl). exists l. split; [reflexivity | now apply Hkeep]. Qed.

(** C5: [saveAnalysis] builds the persisted record from the fields
    [duration], [sampleRate], [averageRMS], [detectedSounds],
    [dominantFrequency], [maxDecibels], [soundEvents] and
    [frequencySpectrum] of [audioData.analysisResults], read under exactly
    these names; a result that holds its data under other names is stored
    with the six scalar columns undefined and the two array columns empty. *)
Theorem saveAnalysis_reads_eight_fields
    (env : Env) (now : N) (insert : AudioAnalysisRecord num -> InsertReply)
    (h : gmap loc (cell num)) (la lr : loc) (ma mr : gmap string (value num)) :
  isSupabaseAvailable env = true ->
  h !! la = Some (CObj ma) ->
  ma !! "analysisResults" = Some (VRef lr) ->
  h !! lr = Some (CObj mr) ->
  exists h' rec,
    analysisRecord h (VRef la) = Ok (h', rec) /\
    effects (saveAnalysis env now insert h (VRef la)) = [Insert "audio_analyses" rec] /\
    duration rec = read mr "duration" /\
    sample_rate rec = read mr "sampleRate" /\
    average_rms rec = read mr "averageRMS" /\
    detected_sounds rec = read mr "detectedSounds" /\
    dominant_frequency rec = read mr "dominantFrequency" /\
    max_decibels rec = read mr "maxDecibels" /\
    (if truthy (read mr "soundEvents")
     then sound_events rec = read mr "soundEvents"
     else emptyArray h' (sound_events rec)) /\
    (if truthy (read mr "frequencySpectrum")
     then frequency_spectrum rec = read mr "frequencySpectrum"
     else emptyArray h' (frequency_spectrum rec)) /\
    analysis_results rec = VRef lr /\
    ((forall f, f ∈ fieldNames -> mr !! f = None) ->
     duration rec = VUndef /\ sample_rate rec = VUndef /\ average_rms rec = VUndef /\
     detected_sounds rec = VUndef /\ dominant_frequency rec = VUndef /\
     max_decibels rec = VUndef /\
     emptyArray h' (sound_events rec) /\ emptyArray h' (frequency_spectrum rec)).
Proof.
  intros Hon Ha Hres Hr.
  pose proof (or_empty_array_spec h (read mr "soundEvents")) as [Hkeep1 Hse].
  destruct (or_empty_array h (read mr "soundEvents")) as [h1 se'] eqn:E1.
  pose proof (or_empty_array_spec h1 (read mr "frequencySpectrum")) as [Hkeep2 Hfs].
  destruct (or_empty_array h1 (read mr "frequencySpectrum")) as [h2 fs'] eqn:E2.
  cbn [fst snd] in *.
  assert (Hrec : analysisRecord h (VRef la) =
            Ok (h2, {| filename := read ma "name";
                       duration := read mr "duration";
                       sample_rate := read mr "sampleRate";
                       average_rms := read mr "averageRMS";
                       detected_sounds := read mr "detectedSounds";
                       dominant_frequency := read mr "dominantFrequency";
                       max_decibels := read mr "maxDecibels";
                       sound_events := se';
                       frequency_spectrum := fs';
                       analysis_results := VRef lr |})).
  { unfold analysisRecord, get. rewrite Ha. cbn. rewrite Hres. cbn.
    rewrite Hr. cbn. fold (read mr "soundEvents"). rewrite E1.
    rewrite (Hkeep1 _ _ Hr). cbn. fold (read mr "frequencySpectrum").
    rewrite E2. reflexivity. }
  eexists _, _. split; [exact Hrec |].
  split.
  { unfold saveAnalysis. rewrite Hon, Hrec. reflexivity. }
  cbn. repeat (split; [reflexivity |]).
  split.
  { destruct (truthy (read mr "soundEvents")); [exact Hse |].
    now apply (emptyArray_preserved h1). }
  split; [exact Hfs |].
  split; [reflexivity |].
  intros Hnone. unfold read in *.
  rewrite !Hnone in * by (unfold fieldNames; set_solver).
  cbn in *. repeat (split; [reflexivity |]).
  split; [now apply (emptyArray_preserved h1) | exact Hfs].
Qed.

(** Building the record leaves every cell of the store as it was; it only
    adds the empty arrays it falls back to. *)
Lemma analysisRecord_keeps_store
    (h h' : gmap loc (cell num)) (audioData : value num) (rec : AudioAnalysisRecord num)
    (l : loc) (x : cell num) :
  analysisRecord h audioData = Ok (h', rec) ->
  h !! l = Some x ->
  h' !! l = Some x.
Proof.
  unfold analysisRecord. intros Hrec Hl.
  destruct (get h audioData "name") as [name |]; cbn in Hrec; [| discriminate].
  destruct (get h audioData "analysisResults") as [ar |]; cbn in Hrec; [| discriminate].
  destruct (get h ar "duration") as [d |]; cbn in Hrec; [| discriminate].
  destruct (get h ar "sampleRate") as [sr |]; cbn in Hrec; [| discriminate].
  destruct (get h ar "averageRMS") as [rms |]; cbn in Hrec; [| discriminate].
  destruct (get h ar "detectedSounds") as [ds |]; cbn in Hrec; [| discriminate].
  destruct (get h ar "dominantFrequency") as [df |]; cbn in Hrec; [| discriminate].
  destruct (get h ar "maxDecibels") as [md |]; cbn in Hrec; [| discriminate].
  destruct (get h ar "soundEvents") as [se |]; cbn in Hrec; [| discriminate].
  pose proof (or_empty_array_spec h se) as [K1 _].
  destruct (or_empty_array h se) as [h1 se']. cbn [fst] in K1.
  destruct (get h1 ar "frequencySpectrum") as [fs |]; cbn in Hrec; [| discriminate].
  pose proof (or_empty_array_spec h1 fs) as [K2 _].
  destruct (or_empty_array h1 fs) as [h2 fs']. cbn [fst] in K2.
  injection Hrec as <- _. now apply K2, K1.
Qed.

(** [saveAnalysis] changes no cell of the store. *)
Lemma saveAnalysis_keeps_store
    (env : Env) (now : N) (insert : AudioAnalysisRecord num -> InsertReply)
    (h : gmap loc (cell num)) (audioData : value num) (l : loc) (x : cell num) :
  h !! l = Some x ->
  store (saveAnalysis env now insert h audioData) !! l = Some x.
Proof.
  intros Hl. unfold saveAnalysis.
  destruct (negb (isSupabaseAvailable env)); [exact Hl |].
  destruct (analysisRecord h audioData) as [[h' rec] | e] eqn:Hrec; [| exact Hl].
  cbn [store]. exact (analysisRecord_keeps_store _ _ _ _ _ _ Hrec Hl).
Qed.

End DatabaseFacts.

Lemma saveAnalysis_unavailable_witness :
  Supabase.isSupabaseAvailable Samples.noEnv = false /\
  Database.result
    (Database.saveAnalysis Samples.noEnv 1700000000000%N Samples.acceptAll
       Samples.twoPoints Samples.twoPointsAudio)
  = JS.Ok (JS.VStr "demo-id-1700000000000").
Proof.
  split; [reflexivity |].
  exact (proj1 (saveAnalysis_unavailable_resolves_demo_id
                  Samples.noEnv 1700000000000%N Samples.acceptAll
                  Samples.twoPoints Samples.twoPointsAudio eq_refl)).
Defined.

Lemma saveAnalysis_renamed_witness :
  exists h' rec,
    Database.analysisRecord Samples.renamed (JS.VRef 3%positive) = JS.Ok (h', rec) /\
    Database.duration rec = JS.VUndef /\
    Database.sample_rate rec = JS.VUndef /\
    Database.detected_sounds rec = JS.VUndef /\
    Database.emptyArray h' (Database.sound_events rec) /\
    Database.analysis_results rec = JS.VRef 2%positive.
Proof.
  destruct (saveAnalysis_reads_eight_fields
              Samples.someEnv 0%N Samples.acceptAll Samples.renamed
              3%positive 2%positive
              (<["name" := JS.VStr "a.wav"]>
                 (<["analysisResults" := JS.VRef 2%positive]> ∅))
              (<["length" := JS.VNum 2%float]>
                 (<["rate" := JS.VNum 44100%float]>
                    (<["events" := JS.VRef 1%positive]> ∅)))
              eq_refl eq_refl eq_refl eq_refl)
    as (h' & rec & Hrec & _ & _ & _ & _ & _ & _ & _ & _ & _ & Hall & Hnone).
  destruct Hnone as (Hd & Hsr & _ & Hds & _ & _ & Hse & _).
  { intros f Hf. unfold Database.fieldNames in Hf.
    repeat (apply elem_of_cons in Hf as [-> | Hf]; [reflexivity |]).
    now apply elem_of_nil in Hf. }
  exists h', rec. repeat split; assumption.
Defined.

(** ** app/api/classify-audio/route.ts *)

Section RouteFacts.
Import JS Route.
Context {num : Type} `{Num num} {json : Type}.
Variable parse : string -> string + json.

(** Where a property can be read, destructuring reads it. *)
Lemma destructure_get (h : gmap loc (cell num)) (v : value num) (f : string) (x : value num) :
  get h v f = Ok x -> destructure h v f = Ok x.
Proof. destruct v; cbn; congruence. Qed.

(** [POST] once the two properties of the body are read. *)
Lemma POST_after_body
    (platform cwd : string) (h : gmap loc (cell num))
    (reqBody audioData filename : value num) (events : list LoopEvent) :
  get h reqBody "audioData" = Ok audioData ->
  get h reqBody "filename" = Ok filename ->
  POST parse platform cwd (Ok (h, reqBody)) events
  = if negb (truthy audioData)
    then {| response := Some noAudioData; effects := [] |}
    else
      let final := fold_left (on parse) events (spawned platform cwd audioData filename) in
      {| response := resolved final; effects := log final |}.
Proof.
  intros Ha Hf. unfold POST. cbn [mbind outcome_bind].
  now rewrite (destructure_get _ _ _ _ Ha), (destructure_get _ _ _ _ Hf).
Qed.

(** The promise keeps the first response it is resolved with. *)
Lemma on_keeps_resolved (p : Pending num json) (e : LoopEvent) (r : Response json) :
  resolved p = Some r -> resolved (on parse p e) = Some r.
Proof.
  intros Hr. destruct e as [chunk | chunk | message | code | ]; cbn; try now rewrite Hr.
  destruct code as [[| c | c] |]; cbn; try now rewrite Hr.
  destruct (parse (stdout p)); cbn; now rewrite Hr.
Qed.

Lemma run_keeps_resolved (events : list LoopEvent) (p : Pending num json) (r : Response json) :
  resolved p = Some r -> resolved (fold_left (on parse) events p) = Some r.
Proof.
  revert p. induction events as [| e events IH]; intros p Hr; cbn.
  - exact Hr.
  - apply IH. now apply on_keeps_resolved.
Qed.

Lemma on_keeps_log (p : Pending num json) (e : LoopEvent) (x : Effect num) :
  x ∈ log p -> x ∈ log (on parse p e).
Proof.
  intros Hx. destruct e as [chunk | chunk | message | code | ]; cbn; try exact Hx.
  - destruct code as [[| c | c] |]; cbn; try exact Hx.
    destruct (parse (stdout p)); exact Hx.
  - apply elem_of_app. now left.
Qed.

Lemma run_keeps_log (events : list LoopEvent) (p : Pending num json) (x : Effect num) :
  x ∈ log p -> x ∈ log (fold_left (on parse) events p).
Proof.
  revert p. induction events as [| e events IH]; intros p Hx; cbn.
  - exact Hx.
  - apply IH. now apply on_keeps_log.
Qed.

(** As long as the process has not completed, the promise is pending or
    already settled by the timer. *)
Lemma run_before_completion (events : list LoopEvent) (p : Pending num json) :
  Forall (fun e => completes e = false) events ->
  resolved p = None \/ resolved p = Some timeoutResponse ->
  resolved (fold_left (on parse) events p) = None \/
  resolved (fold_left (on parse) events p) = Some timeoutResponse.
Proof.
  intros Hev. revert p. induction Hev as [| e events He _ IH]; intros p Hp; cbn.
  - exact Hp.
  - apply IH. destruct e as [chunk | chunk | message | code | ]; cbn in *;
      try discriminate; try exact Hp.
    destruct Hp as [-> | ->]; now right.
Qed.

Lemma timer_settles (p : Pending num json) :
  resolved p = None \/ resolved p = Some timeoutResponse ->
  resolved (on parse p TimerFired) = Some timeoutResponse /\
  Kill ∈ log (on parse p TimerFired).
Proof.
  intros Hp. split.
  - cbn. destruct Hp as [-> | ->]; reflexivity.
  - cbn. apply elem_of_app. right. apply list_elem_of_singleton. reflexivity.
Qed.

(** The decode failure itself: exit code 0 with an output that
    [JSON.parse] refuses, before the timer. *)
Lemma POST_parse_failure
    (platform cwd : string) (h : gmap loc (cell num))
    (reqBody audioData filename : value num) (out details : string)
    (after : list LoopEvent) :
  get h reqBody "audioData" = Ok audioData ->
  get h reqBody "filename" = Ok filename ->
  truthy audioData = true ->
  parse out = inl details ->
  response (POST parse platform cwd (Ok (h, reqBody))
              (StdoutData out :: Close (Some 0%Z) :: after))
  = Some (parseFailure details out "").
Proof.
  intros Ha Hf Htruthy Hparse.
  rewrite (POST_after_body platform cwd h reqBody audioData filename _ Ha Hf), Htruthy.
  cbn. apply run_keeps_resolved. cbn.
  change (String.append "" out) with out. now rewrite Hparse.
Qed.

(** C3: when the classifier process has neither completed nor failed to
    start by the time the 60-second timer fires, the handler answers HTTP
    408 with the error "Classification timeout" (and kills the process);
    this response differs from the parse failure response, HTTP 500 with
    the error "Failed to parse classification results", which it gives when
    the process exits with code 0 and an output that is not valid JSON. *)
Theorem POST_timeout_is_explicit
    (platform cwd : string) (h : gmap loc (cell num))
    (reqBody audioData filename : value num) (before after : list LoopEvent) :
  get h reqBody "audioData" = Ok audioData ->
  get h reqBody "filename" = Ok filename ->
  truthy audioData = true ->
  Forall (fun e => completes e = false) before ->
  let out := POST parse platform cwd (Ok (h, reqBody)) (before ++ TimerFired :: after) in
  response out = Some timeoutResponse /\
  status (timeoutResponse : Response json) = 408 /\
  errorOf (timeoutResponse : Response json) = Some (FStr "Classification timeout") /\
  SetTimeout 60000%N ∈ effects out /\
  Kill ∈ effects out /\
  (forall details o e,
     status (parseFailure details o e : Response json) = 500 /\
     errorOf (parseFailure details o e : Response json)
       = Some (FStr "Failed to parse classification results") /\
     (timeoutResponse : Response json) <> parseFailure details o e) /\
  (forall o details rest,
     parse o = inl details ->
     response (POST parse platform cwd (Ok (h, reqBody))
                 (StdoutData o :: Close (Some 0%Z) :: rest))
     = Some (parseFailure details o "")).
Proof.
  intros Ha Hf Htruthy Hbefore. cbn zeta.
  assert (Hrun : POST parse platform cwd (Ok (h, reqBody)) (before ++ TimerFired :: after)
                 = let final := fold_left (on parse) (before ++ TimerFired :: after)
                                  (spawned platform cwd audioData filename) in
                   {| response := resolved final; effects := log final |}).
  { now rewrite (POST_after_body platform cwd h reqBody audioData filename _ Ha Hf),
      Htruthy. }
  rewrite Hrun. cbn zeta. cbn [response effects].
  rewrite fold_left_app. cbn [fold_left].
  set (p0 := spawned platform cwd audioData filename).
  set (p1 := fold_left (on parse) before p0).
  assert (Hp1 : resolved p1 = None \/ resolved p1 = Some timeoutResponse).
  { apply run_before_completion; [exact Hbefore | now left]. }
  destruct (timer_settles p1 Hp1) as [Hres Hkill].
  split; [now apply run_keeps_resolved |].
  split; [reflexivity |]. split; [reflexivity |].
  split.
  { apply run_keeps_log, on_keeps_log, run_keeps_log. subst p0. cbn.
    do 3 (apply elem_of_cons; right). apply elem_of_cons. now left. }
  split; [now apply run_keeps_log |].
  split.
  - intros details o e. repeat split. discriminate.
  - intros o details rest Hparse.
    now apply (POST_parse_failure platform cwd h reqBody audioData filename).
Qed.

(** A body whose [audioData] is absent or falsy is refused before the
    classifier is spawned. *)
Lemma POST_rejects_falsy_audioData
    (platform cwd : string) (h : gmap loc (cell num))
    (reqBody audioData : value num) (events : list LoopEvent) :
  get h reqBody "audioData" = Ok audioData ->
  truthy audioData = false ->
  POST parse platform cwd (Ok (h, reqBody)) events
  = {| response := Some noAudioData; effects := [] |}.
Proof.
  intros Ha Hfalsy.
  assert (Hf : exists filename, get h reqBody "filename" = Ok filename).
  { destruct reqBody; cbn in *; try discriminate; eauto.
    destruct (h !! l) as [[es | fields] |]; eauto. }
  destruct Hf as [filename Hf].
  now rewrite (POST_after_body platform cwd h reqBody audioData filename _ Ha Hf), Hfalsy.
Qed.

(** The body [null] does not reach the check: destructuring it throws, and
    the [catch] answers HTTP 500 with the error "Internal server error",
    whatever the event loop delivers; nothing is spawned either. *)
Lemma POST_null_body
    (platform cwd : string) (h : gmap loc (cell num)) (events : list LoopEvent) :
  POST parse platform cwd (Ok (h, VNull)) events
  = {| response :=
         Some (internalError
                 "Cannot destructure property 'audioData' of '(intermediate value)' as it is null.");
       effects := [] |}.
Proof. reflexivity. Qed.

(** A body other than [null] in which no [audioData] is to be found: an
    object without the field, an array, a string, a number or a boolean. *)
Lemma get_missing (h : gmap loc (cell num)) (reqBody : value num) :
  reqBody <> VNull -> reqBody <> VUndef ->
  (forall l fields, reqBody = VRef l -> h !! l = Some (CObj fields) ->
                    fields !! "audioData" = None) ->
  get h reqBody "audioData" = Ok VUndef.
Proof.
  intros Hnull Hundef Hfield. destruct reqBody as [| | b | n | s | l]; cbn; try congruence.
  destruct (h !! l) as [[es | fields] |] eqn:Hl; cbn; try reflexivity.
  now rewrite (Hfield l fields eq_refl Hl).
Qed.

(** C4, as amended: a request whose JSON body is not [null] and has no
    [audioData] field (an object without it, or an array, a string, a
    number, a boolean) is answered with HTTP 400 and the error "No audio
    data provided", whatever the event loop delivers, and nothing is
    spawned. *)
Theorem POST_rejects_missing_audioData
    (platform cwd : string) (h : gmap loc (cell num)) (reqBody : value num)
    (events : list LoopEvent) :
  reqBody <> VNull ->
  reqBody <> VUndef ->
  (forall l fields, reqBody = VRef l -> h !! l = Some (CObj fields) ->
                    fields !! "audioData" = None) ->
  let out := POST parse platform cwd (Ok (h, reqBody)) events in
  response out = Some noAudioData /\
  status (noAudioData : Response json) = 400 /\
  errorOf (noAudioData : Response json) = Some (FStr "No audio data provided") /\
  effects out = [] /\
  (forall command script, Spawn command script ∉ effects out).
Proof.
  intros Hnull Hundef Hfield.
  assert (Hout : POST parse platform cwd (Ok (h, reqBody)) events
                 = {| response := Some noAudioData; effects := [] |}).
  { apply (POST_rejects_falsy_audioData _ _ _ _ VUndef); [| reflexivity].
    now apply get_missing. }
  cbn zeta. rewrite Hout. cbn. repeat split.
  intros command script Hin. now apply elem_of_nil in Hin.
Qed.

End RouteFacts.

Lemma POST_timeout_witness :
  Route.response
    (Route.POST Samples.rejectAll "linux" "/app" (JS.Ok (Samples.bodyWithAudio, JS.VRef 1%positive))
       ([Route.StdoutData "{"] ++ Route.TimerFired :: [Route.Close None]))
  = Some Route.timeoutResponse.
Proof.
  refine (proj1 (POST_timeout_is_explicit Samples.rejectAll "linux" "/app"
                   Samples.bodyWithAudio (JS.VRef 1%positive)
                   (JS.VStr "UklGRg") (JS.VStr "a.wav")
                   [Route.StdoutData "{"] [Route.Close None]
                   eq_refl eq_refl eq_refl _)).
  repeat constructor.
Defined.

Lemma POST_missing_audioData_witness :
  Route.response
    (Route.POST Samples.rejectAll "linux" "/app"
       (JS.Ok (Samples.bodyWithoutAudio, JS.VRef 1%positive)) [Route.TimerFired])
  = Some Route.noAudioData.
Proof.
  refine (proj1 (POST_rejects_missing_audioData Samples.rejectAll "linux" "/app"
                   Samples.bodyWithoutAudio (JS.VRef 1%positive) [Route.TimerFired]
                   _ _ _)); try discriminate.
  intros l fields [= <-] Hl. vm_compute in Hl. injection Hl as <-. reflexivity.
Defined.

(** The JSON body [null] has no [audioData] field, and the answer to it is
    not the 400 of the missing audio data: it is HTTP 500 with the error
    "Internal server error". *)
Lemma POST_null_body_is_an_internal_error :
  let out := Route.POST Samples.rejectAll "linux" "/app"
               (JS.Ok (∅ : gmap JS.loc (JS.cell float), JS.VNull)) [] in
  Route.response out <> Some Route.noAudioData /\
  exists r, Route.response out = Some r /\
            Route.status r = 500 /\
            Route.errorOf r = Some (Route.FStr "Internal server error").
Proof.
  cbn zeta. rewrite POST_null_body. cbn. split; [discriminate |].
  eexists. repeat split.
Qed.

(** ** app/components/sonar-view.tsx *)

Section SonarFacts.
Import JS Pipeline Boundary SonarView.
Context {num : Type} `{Num num}.

Lemma get_ref_ok (h : gmap loc (cell num)) (l : loc) (f : string) :
  exists v, get h (VRef l) f = Ok v.
Proof. cbn. destruct (h !! l) as [[es | fields] |]; eauto. Qed.

Lemma get_field (h : gmap loc (cell num)) (l : loc) (fields : gmap string (value num))
    (f : string) (v : value num) :
  h !! l = Some (CObj fields) -> fields !! f = Some v -> get h (VRef l) f = Ok v.
Proof. intros Hl Hf. cbn. rewrite Hl. cbn. now rewrite Hf. Qed.

Lemma blipOf_ref (m : Math num) (h : gmap loc (cell num)) (c : Canvas num)
    (d : value num) (l : loc) (i : nat) :
  exists b, blipOf m h c d (VRef l) i = Ok b.
Proof.
  unfold blipOf.
  destruct (get_ref_ok h l "time") as [t ->].
  destruct (get_ref_ok h l "frequency") as [f ->].
  destruct (get_ref_ok h l "amplitude") as [a ->].
  cbn. eauto.
Qed.

Lemma mapi_from_total {A} (f : value num -> nat -> outcome A) (l : list (value num)) (i : nat) :
  Forall (fun v => forall j, exists b, f v j = Ok b) l ->
  exists bs, mapi_from i f l = Ok bs /\ length bs = length l.
Proof.
  intros Hall. revert i. induction Hall as [| v l Hv _ IH]; intros i; cbn.
  - exists []. split; reflexivity.
  - destruct (Hv i) as [b ->]. destruct (IH (S i)) as (bs & -> & Hlen). cbn.
    exists (b :: bs). split; [reflexivity | cbn; now rewrite Hlen].
Qed.

(** A click inside the radius goes to the nearest-event search over the
    elements of [soundEvents]. *)
Lemma handleCanvas2DClick_inside
    (m : Math num) (h : gmap loc (cell num)) (la lr le : loc)
    (audio results : gmap string (value num)) (es : list (value num))
    (canvas2D : Canvas num) (event : MouseEvent num) (selectedEvent : value num) :
  h !! la = Some (CObj audio) ->
  audio !! "analysisResults" = Some (VRef lr) ->
  h !! lr = Some (CObj results) ->
  results !! "soundEvents" = Some (VRef le) ->
  h !! le = Some (CArr es) ->
  insideRadius canvas2D event = true ->
  exists time frequency,
    handleCanvas2DClick m h (VRef la) canvas2D event selectedEvent
    = (nearestEvent ← reduce1 (closer h time frequency) es;
       Ok (if truthy nearestEvent then nearestEvent else selectedEvent)).
Proof.
  intros Ha Hres Hr Hse He Hin.
  unfold handleCanvas2DClick. cbn zeta.
  change (nsqrt _ <=? maxRadiusOf canvas2D)%num with (insideRadius canvas2D event).
  rewrite Hin.
  rewrite (get_field h la audio "analysisResults" (VRef lr) Ha Hres). cbn.
  rewrite Hr. cbn. rewrite Hse. cbn. rewrite He. eauto.
Qed.

(** C9: in the sonar view, a click inside the sonar radius on a result
    whose [soundEvents] list is empty throws a TypeError: the nearest-event
    search calls [reduce] with no initial accumulator on the empty array. *)
Theorem handleCanvas2DClick_throws_on_no_events
    (m : Math num) (h : gmap loc (cell num)) (la lr le : loc)
    (audio results : gmap string (value num))
    (canvas2D : Canvas num) (event : MouseEvent num) (selectedEvent : value num) :
  h !! la = Some (CObj audio) ->
  audio !! "analysisResults" = Some (VRef lr) ->
  h !! lr = Some (CObj results) ->
  results !! "soundEvents" = Some (VRef le) ->
  h !! le = Some (CArr []) ->
  insideRadius canvas2D event = true ->
  handleCanvas2DClick m h (VRef la) canvas2D event selectedEvent
  = Throw (TypeError "Reduce of empty array with no initial value").
Proof.
  intros Ha Hres Hr Hse He Hin.
  destruct (handleCanvas2DClick_inside m h la lr le audio results [] canvas2D event
              selectedEvent Ha Hres Hr Hse He Hin) as (time & frequency & ->).
  reflexivity.
Qed.

(** With a single event the same click selects it. *)
Lemma handleCanvas2DClick_selects_single
    (m : Math num) (h : gmap loc (cell num)) (la lr le l : loc)
    (audio results : gmap string (value num))
    (canvas2D : Canvas num) (event : MouseEvent num) (selectedEvent : value num) :
  h !! la = Some (CObj audio) ->
  audio !! "analysisResults" = Some (VRef lr) ->
  h !! lr = Some (CObj results) ->
  results !! "soundEvents" = Some (VRef le) ->
  h !! le = Some (CArr [VRef l]) ->
  insideRadius canvas2D event = true ->
  handleCanvas2DClick m h (VRef la) canvas2D event selectedEvent = Ok (VRef l).
Proof.
  intros Ha Hres Hr Hse He Hin.
  destruct (handleCanvas2DClick_inside m h la lr le audio results [VRef l] canvas2D event
              selectedEvent Ha Hres Hr Hse He Hin) as (time & frequency & ->).
  reflexivity.
Qed.

(** A click outside the radius leaves the selection as it is. *)
Lemma handleCanvas2DClick_outside
    (m : Math num) (h : gmap loc (cell num)) (audioData : value num)
    (canvas2D : Canvas num) (event : MouseEvent num) (selectedEvent : value num) :
  insideRadius canvas2D event = false ->
  handleCanvas2DClick m h audioData canvas2D event selectedEvent = Ok selectedEvent.
Proof.
  intros Hout. unfold handleCanvas2DClick. cbn zeta.
  change (nsqrt _ <=? maxRadiusOf canvas2D)%num with (insideRadius canvas2D event).
  now rewrite Hout.
Qed.

Lemma audioFields_results (name url : string) (r : AnalysisResult num) (v : value num) :
  audioFields name url r v !! "analysisResults" = Some v.
Proof.
  unfold audioFields. repeat (rewrite lookup_insert_ne by discriminate).
  apply lookup_insert_eq.
Qed.

Lemma resultFields_soundEvents (r : AnalysisResult num) (ve vs : value num) :
  resultFields r ve vs !! "soundEvents" = Some ve.
Proof.
  unfold resultFields. repeat (rewrite lookup_insert_ne by discriminate).
  apply lookup_insert_eq.
Qed.

Lemma resultFields_detectedSounds (r : AnalysisResult num) (ve vs : value num) :
  resultFields r ve vs !! "detectedSounds" = Some (VNum (nof_nat (detectedSounds r))).
Proof.
  unfold resultFields. repeat (rewrite lookup_insert_ne by discriminate).
  apply lookup_insert_eq.
Qed.

(** An analysis result without events, such as the pipeline gives for a
    silent waveform, meets this TypeError once the web application holds
    it. *)
Lemma handleCanvas2DClick_throws_on_stored_result
    (m : Math num) (name url : string) (r : AnalysisResult num) (h : gmap loc (cell num))
    (canvas2D : Canvas num) (event : MouseEvent num) (selectedEvent : value num) :
  soundEvents r = [] ->
  insideRadius canvas2D event = true ->
  handleCanvas2DClick m (fst (storeAudioData name url r h))
    (snd (storeAudioData name url r h)) canvas2D event selectedEvent
  = Throw (TypeError "Reduce of empty array with no initial value").
Proof.
  intros Hnone Hin.
  destruct (storeAudioData_shape name url r h)
    as (h' & la & lr & le & ls & evs & pts & -> & Ha & Hr & He & _ & Hev & _).
  rewrite Hnone in Hev. apply Forall2_nil_inv_r in Hev. subst evs. cbn [fst snd].
  destruct (handleCanvas2DClick_inside m h' la lr le _ _ [] canvas2D event
              selectedEvent Ha (audioFields_results name url r (VRef lr)) Hr
              (resultFields_soundEvents r (VRef le) (VRef ls)) He Hin)
    as (time & frequency & ->).
  reflexivity.
Qed.

(** What the sonar view shows of a stored result: the "Total Events" line
    is [detectedSounds], and the 2D display draws one blip per element of
    [soundEvents]. *)
Lemma sonar_shows_stored_result
    (m : Math num) (name url : string) (r : AnalysisResult num) (h : gmap loc (cell num))
    (c : Canvas num) :
  totalEvents (fst (storeAudioData name url r h)) (snd (storeAudioData name url r h))
  = Ok (VNum (nof_nat (detectedSounds r))) /\
  exists bs,
    blips m (fst (storeAudioData name url r h)) (snd (storeAudioData name url r h)) c = Ok bs /\
    length bs = length (soundEvents r).
Proof.
  destruct (storeAudioData_shape name url r h)
    as (h' & la & lr & le & ls & evs & pts & -> & Ha & Hr & He & _ & Hev & _).
  cbn [fst snd].
  pose proof (get_field h' la _ _ _ Ha (audioFields_results name url r (VRef lr))) as Gres.
  split.
  - unfold totalEvents. rewrite Gres. cbn [mbind outcome_bind].
    apply (get_field h' lr _ _ _ Hr). apply resultFields_detectedSounds.
  - unfold blips.
    change (get_opt h' (VRef la) "analysisResults") with (get h' (VRef la) "analysisResults").
    rewrite Gres. cbn [mbind outcome_bind truthy negb].
    destruct (get_ref_ok h' lr "duration") as [d ->]. cbn [mbind outcome_bind].
    change (get_opt h' (VRef lr) "soundEvents") with (get h' (VRef lr) "soundEvents").
    rewrite (get_field h' lr _ _ _ Hr (resultFields_soundEvents r (VRef le) (VRef ls))).
    cbn [mbind outcome_bind truthy]. unfold array_of. rewrite He. cbn [mbind outcome_bind].
    destruct (mapi_from_total (blipOf m h' c d) evs 0) as (bs & Hbs & Hlen).
    + eapply Forall2_Forall_l; [exact Hev |]. apply Forall_true.
      intros e v (l & -> & _) j. apply blipOf_ref.
    + exists bs. split; [exact Hbs |].
      rewrite Hlen. now apply Forall2_length in Hev.
Qed.

End SonarFacts.

Lemma handleCanvas2DClick_witness :
  SonarView.insideRadius Samples.canvas Samples.centreClick = true /\
  SonarView.handleCanvas2DClick Samples.math Samples.twoPoints Samples.twoPointsAudio
    Samples.canvas Samples.centreClick JS.VNull
  = JS.Throw (JS.TypeError "Reduce of empty array with no initial value").
Proof.
  split; [reflexivity |].
  exact (handleCanvas2DClick_throws_on_no_events Samples.math Samples.twoPoints
           6%positive 5%positive 4%positive
           Samples.twoPointsFields Samples.twoPointsResults
           Samples.canvas Samples.centreClick JS.VNull
           eq_refl eq_refl eq_refl eq_refl eq_refl eq_refl).
Defined.

(** The pipeline at binary64 floats on the two sample waveforms: silence
    gives a result without events, the burst one event. *)
Example analyze_silence :
  Pipeline.analyze Samples.caps Samples.config Samples.silence
  = inr {| Pipeline.duration := 5%float;
           Pipeline.sampleRate := 1%float;
           Pipeline.averageRMS := 0%float;
           Pipeline.detectedSounds := 0;
           Pipeline.dominantFrequency := 0%float;
           Pipeline.maxDecibels := (-60)%float;
           Pipeline.soundEvents := [];
           Pipeline.frequencySpectrum := [] |}.
Proof. vm_compute. reflexivity. Qed.

Example analyze_burst_counts :
  match Pipeline.analyze Samples.caps Samples.config Samples.burst with
  | inr r => Pipeline.detectedSounds r = 1 /\ length (Pipeline.soundEvents r) = 1
  | inl _ => False
  end.
Proof. vm_compute. split; reflexivity. Qed.

Example segment_burst :
  Pipeline.segment Samples.config Samples.burst
  = inr [ {| Pipeline.startIndex := 0; Pipeline.frameData := [0; 0.5]%float |};
          {| Pipeline.startIndex := 2; Pipeline.frameData := [0; 0]%float |};
          {| Pipeline.startIndex := 4; Pipeline.frameData := [0.25; 0]%float |} ].
Proof. vm_compute. reflexivity. Qed.

(** ** lib/pdf-generator.ts *)

Section PdfFacts.
Import JS PdfGenerator.
Context {num : Type} `{Num num}.

(** The case of a call that returns before it writes. *)
Ltac store_unchanged :=
  let Heq := fresh "Heq" in
  intros Heq; cbn in Heq; injection Heq as <- _; now left.

Lemma insert_sorted_perm {A} (cmp : A -> A -> bool) (x : A) (l : list A) :
  Permutation (insert_sorted cmp x l) (x :: l).
Proof.
  induction l as [| y l IH]; cbn.
  - reflexivity.
  - destruct (cmp x y).
    + rewrite IH. apply perm_swap.
    + reflexivity.
Qed.

(** Sorting rearranges: no element is lost or added. *)
Lemma stable_sort_perm {A} (cmp : A -> A -> bool) (l : list A) :
  Permutation (stable_sort cmp l) l.
Proof.
  induction l as [| x l IH]; cbn.
  - reflexivity.
  - rewrite insert_sorted_perm. now rewrite IH.
Qed.

Lemma magnitudeKey_fst (h : gmap loc (cell num)) (es : list (value num)) (i : nat)
    (keyed : list (value num * option num)) :
  mapi_from i (magnitudeKey h) es = Ok keyed -> map fst keyed = es.
Proof.
  revert i keyed. induction es as [| e es IH]; intros i keyed; cbn.
  - intros [= <-]. reflexivity.
  - destruct (magnitudeKey h e i) as [pk | err] eqn:Hpk; cbn; [| discriminate].
    destruct (mapi_from (S i) (magnitudeKey h) es) as [ks | err] eqn:E; cbn; [| discriminate].
    intros [= <-]. cbn. f_equal; [| now apply (IH (S i))].
    unfold magnitudeKey, number_or in Hpk.
    destruct (get h e "magnitude"); cbn in Hpk; [| discriminate].
    now injection Hpk as <-.
Qed.

(** The frequency section leaves the store alone, or replaces the array
    behind [results.frequencySpectrum] by a rearrangement of itself. *)
Lemma frequencyAnalysis_store (h h' : gmap loc (cell num)) (results : value num)
    (out : outcome (list (Draw num))) :
  frequencyAnalysis h results = (h', out) ->
  h' = h \/
  exists l es es',
    get h results "frequencySpectrum" = Ok (VRef l) /\
    h !! l = Some (CArr es) /\
    h' = <[l := CArr es']> h /\
    Permutation es es'.
Proof.
  unfold frequencyAnalysis.
  destruct (get h results "frequencySpectrum") as [fs | err]; [| store_unchanged].
  destruct (nonempty h fs) as [[|] | err]; try (store_unchanged).
  destruct fs as [| | b | n | s | l]; cbn [array_of];
    try (store_unchanged).
  destruct (h !! l) as [[es | fields] |] eqn:Hl; try (store_unchanged).
  destruct (mapi (magnitudeKey h) es) as [keyed | err] eqn:Hk; [| store_unchanged].
  intros [= <- _]. right. exists l, es, (map fst (stable_sort after keyed)).
  apply magnitudeKey_fst in Hk.
  split; [reflexivity |]. split; [exact Hl |]. split; [reflexivity |].
  rewrite <- Hk at 1.
  apply Permutation_map. symmetry. apply stable_sort_perm.
Qed.

(** What [generatePDFReport] does to the store: nothing, or it rearranges
    the array behind [audioData.analysisResults.frequencySpectrum]. *)
Lemma generatePDFReport_store (h h' : gmap loc (cell num)) (audioData : value num)
    (out : outcome (list (Draw num))) :
  generatePDFReport h audioData = (h', out) ->
  h' = h \/
  exists results l es es',
    get h audioData "analysisResults" = Ok results /\
    get h results "frequencySpectrum" = Ok (VRef l) /\
    h !! l = Some (CArr es) /\
    h' = <[l := CArr es']> h /\
    Permutation es es'.
Proof.
  unfold generatePDFReport.
  destruct (get h audioData "analysisResults") as [results | err]; [| store_unchanged].
  destruct (negb (truthy results)); [store_unchanged |].
  destruct (firstPages h audioData results) as [d1 | err]; [| store_unchanged].
  destruct (frequencyAnalysis h results) as [h1 [d2 | err]] eqn:Hf.
  - intros Hh'.
    assert (h' = h1) as -> by (destruct (lastPages h1 audioData results); now inversion Hh').
    destruct (frequencyAnalysis_store _ _ _ _ Hf) as [-> | (l & es & es' & ? & ? & ? & ?)];
      [now left | right; eauto 10].
  - intros [= <- _].
    destruct (frequencyAnalysis_store _ _ _ _ Hf) as [-> | (l & es & es' & ? & ? & ? & ?)];
      [now left | right; eauto 10].
Qed.

(** The array behind [soundEvents], like every cell but the spectrum
    array, is the same after the call. *)
Lemma generatePDFReport_keeps_other_cells (h h' : gmap loc (cell num))
    (audioData results : value num) (out : outcome (list (Draw num)))
    (ls l : loc) :
  generatePDFReport h audioData = (h', out) ->
  get h audioData "analysisResults" = Ok results ->
  get h results "frequencySpectrum" = Ok (VRef ls) ->
  l <> ls ->
  h' !! l = h !! l.
Proof.
  intros Hgen Hres Hfs Hne.
  destruct (generatePDFReport_store _ _ _ _ Hgen)
    as [-> | (results' & l' & es & es' & Hres' & Hfs' & _ & -> & _)]; [reflexivity |].
  rewrite Hres in Hres'. injection Hres' as <-.
  rewrite Hfs in Hfs'. injection Hfs' as <-.
  now apply lookup_insert_ne.
Qed.

End PdfFacts.

(** C2, at a concrete report: [generatePDFReport] returns normally, and
    the array [audioData.analysisResults.frequencySpectrum], which held the
    point of 100 Hz before the point of 200 Hz, afterwards holds them in the
    opposite order, sorted by magnitude; the [soundEvents] array is as it
    was. *)
Theorem generatePDFReport_reorders_frequencySpectrum :
  let after := PdfGenerator.generatePDFReport Samples.twoPoints Samples.twoPointsAudio in
  (exists drawing, snd after = JS.Ok drawing) /\
  Samples.twoPoints !! 3%positive
    = Some (JS.CArr [JS.VRef 1%positive; JS.VRef 2%positive]) /\
  fst after !! 3%positive
    = Some (JS.CArr [JS.VRef 2%positive; JS.VRef 1%positive]) /\
  fst after !! 4%positive = Samples.twoPoints !! 4%positive.
Proof.
  cbn zeta. split.
  - eexists. vm_compute. reflexivity.
  - split; [reflexivity |]. split; vm_compute; reflexivity.
Qed.

(** ** The Frame Segmenter *)

Section SegmenterFacts.
Import Pipeline.
Context {num : Type} `{Num num}.

Lemma ceilDiv_one (n f : Z) : (0 < n <= f)%Z -> ceilDiv n f = 1%Z.
Proof.
  intros Hn. unfold ceilDiv. symmetry.
  apply (Z.div_unique (n + f - 1) f 1 (n - 1)); lia.
Qed.

Lemma ceilDiv_step (n f : Z) : (0 < f)%Z -> ceilDiv n f = (1 + ceilDiv (n - f) f)%Z.
Proof.
  intros Hf. unfold ceilDiv.
  replace (n + f - 1)%Z with ((n - f + f - 1) + 1 * f)%Z by lia.
  rewrite Z.div_add by lia. lia.
Qed.

Lemma ceilDiv_exact (n f : Z) : (0 < f)%Z -> (n mod f = 0)%Z -> (ceilDiv n f * f = n)%Z.
Proof.
  intros Hf Hmod. unfold ceilDiv.
  pose proof (Z.div_mod n f ltac:(lia)) as Hn. rewrite Hmod in Hn.
  replace (n + f - 1)%Z with ((f - 1) + (n / f) * f)%Z by lia.
  rewrite Z.div_add by lia. rewrite (Z.div_small (f - 1) f) by lia. lia.
Qed.

Lemma padTo_length (n : nat) (l : list num) : length l <= n -> length (padTo n l) = n.
Proof.
  intros Hl. unfold padTo. rewrite length_app, length_take, length_replicate. lia.
Qed.

Lemma padTo_full (n : nat) (l : list num) : n <= length l -> padTo n l = take n l.
Proof.
  intros Hl. unfold padTo. replace (n - length l) with 0 by lia.
  cbn. apply app_nil_r.
Qed.

(** Without overlap: the number of frames, their size, and what they hold
    when laid end to end. *)
Lemma framesFrom_without_overlap (f h : positive) (start : nat) (rest : list num) :
  h = f ->
  rest <> [] ->
  Z.of_nat (length (framesFrom f h start rest))
    = ceilDiv (Z.of_nat (length rest)) (Zpos f) /\
  Forall (fun fr => length (frameData fr) = Pos.to_nat f) (framesFrom f h start rest) /\
  concat (map frameData (framesFrom f h start rest))
    = rest ++ replicate
                (Z.to_nat (ceilDiv (Z.of_nat (length rest)) (Zpos f) * Zpos f
                           - Z.of_nat (length rest)))
                nzero.
Proof.
  funelim (framesFrom f h start rest); intros -> Hrest.
  - (* the frame reaches the end of the waveform *)
    assert (0 < length rest) by (destruct rest; [congruence | cbn; lia]).
    rewrite ceilDiv_one by lia.
    split; [reflexivity |]. split.
    + constructor; [| constructor]. cbn. now apply padTo_length.
    + cbn. rewrite app_nil_r. unfold padTo.
      rewrite take_ge by lia. f_equal. f_equal. lia.
  - (* a full frame, and the rest of the waveform after it *)
    assert (Hnext : drop (Pos.to_nat f) rest <> []).
    { intros Hnil. apply (f_equal length) in Hnil. rewrite length_drop in Hnil.
      cbn in Hnil. lia. }
    destruct (H0 eq_refl Hnext) as (Hcount & Hsize & Hdata).
    rewrite length_drop in Hcount, Hdata.
    rewrite (ceilDiv_step (Z.of_nat (length rest))) by lia.
    replace (Z.of_nat (length rest) - Z.pos f)%Z
      with (Z.of_nat (length rest - Pos.to_nat f)) by lia.
    split; [cbn [length]; lia |]. split.
    + constructor; [| exact Hsize]. cbn. rewrite padTo_full by lia.
      rewrite length_take. lia.
    + cbn [map concat frameData]. rewrite Hdata, padTo_full by lia.
      rewrite app_assoc, take_drop. f_equal. f_equal. lia.
Qed.

(** C7: with [hopSize = frameSize > 0] a waveform of [sampleCount > 0]
    samples is cut into exactly [ceil(sampleCount / frameSize)] frames of
    [frameSize] samples; laid end to end they are the waveform followed by
    zeros, and by none when the length is an exact multiple; a waveform of
    exactly [frameSize] samples gives the one frame that holds it. *)
Theorem segment_without_overlap_counts_frames (cfg : Config num) (w : Waveform num) :
  (0 < frameSize cfg)%Z ->
  hopSize cfg = frameSize cfg ->
  0 < sampleCount w ->
  exists frames,
    segment cfg w = inr frames /\
    Z.of_nat (length frames) = ceilDiv (Z.of_nat (sampleCount w)) (frameSize cfg) /\
    Forall (fun fr => Z.of_nat (length (frameData fr)) = frameSize cfg) frames /\
    concat (map frameData frames)
      = wf_samples w ++ replicate
                          (Z.to_nat (ceilDiv (Z.of_nat (sampleCount w)) (frameSize cfg)
                                     * frameSize cfg - Z.of_nat (sampleCount w)))
                          nzero /\
    ((Z.of_nat (sampleCount w) mod frameSize cfg = 0)%Z ->
     concat (map frameData frames) = wf_samples w) /\
    (Z.of_nat (sampleCount w) = frameSize cfg ->
     frames = [ {| startIndex := 0; frameData := wf_samples w |} ]).
Proof.
  intros Hf Hhop Hn. unfold segment, sampleCount in *. rewrite Hhop.
  destruct (frameSize cfg) as [| f | f] eqn:Ef; try lia.
  destruct (wf_samples w) as [| x rest] eqn:Ew; [cbn in Hn; lia |].
  rewrite <- Ew in *.
  assert (Hne : wf_samples w <> []) by (rewrite Ew; discriminate).
  destruct (framesFrom_without_overlap f f 0 (wf_samples w) eq_refl Hne)
    as (Hcount & Hsize & Hdata).
  exists (framesFrom f f 0 (wf_samples w)).
  split; [reflexivity |]. split; [exact Hcount |]. split.
  { eapply Forall_impl; [exact Hsize |]. intros fr Hfr. cbn beta in Hfr. lia. }
  split; [exact Hdata |]. split.
  - intros Hmod. rewrite Hdata, ceilDiv_exact by (lia || assumption).
    rewrite Z.sub_diag. cbn. apply app_nil_r.
  - intros Hexact. rewrite framesFrom_equation_1.
    destruct (le_lt_dec (length (wf_samples w)) (Pos.to_nat f)) as [Hle | Hlt]; [| lia].
    cbn. unfold padTo. rewrite take_ge by lia.
    replace (Pos.to_nat f - length (wf_samples w)) with 0 by lia.
    cbn. now rewrite app_nil_r.
Qed.

End SegmenterFacts.

Lemma segment_counts_witness :
  exists frames,
    Pipeline.segment Samples.config Samples.burst = inr frames /\
    length frames = 3.
Proof.
  destruct (segment_without_overlap_counts_frames Samples.config Samples.burst)
    as (frames & Hseg & Hcount & _).
  - reflexivity.
  - reflexivity.
  - cbn. lia.
  - exists frames. split; [exact Hseg |].
    change (Pipeline.ceilDiv _ _) with 3%Z in Hcount. lia.
Defined.

(** ** Silence, over the real numbers *)

Section SilenceFacts.
Import Pipeline.
Local Open Scope R_scope.

(** The operations of [Num] at the real numbers. *)
Ltac real_ops :=
  cbv [nzero nof_Z nof_nat nadd nsub nmul ndiv nsqrt nabs neqb nltb nleb ngtb R_Num] in *.

Lemma Rltb_false (x y : R) : y <= x -> Rltb x y = false.
Proof. intros Hxy. unfold Rltb. destruct (Rlt_dec x y); [lra | reflexivity]. Qed.

Lemma sumSquares_zeros (l : list R) (a : R) :
  Forall (fun x => x = 0) l ->
  fold_left (fun acc x => nadd acc (nmul x x)) l a = a.
Proof.
  intros Hl. revert a. induction Hl as [| x l -> _ IH]; intros a; cbn.
  - reflexivity.
  - rewrite IH. real_ops. lra.
Qed.

Lemma rmsOf_zeros (l : list R) : Forall (fun x => x = 0) l -> rmsOf l = 0.
Proof.
  intros Hl. unfold rmsOf. destruct l as [| x l]; [reflexivity |].
  unfold sumSquares. rewrite (sumSquares_zeros _ _ Hl). real_ops.
  unfold Rdiv. rewrite Rmult_0_l. apply sqrt_0.
Qed.

Lemma padTo_zeros (n : nat) (l : list R) :
  Forall (fun x => x = 0) l -> Forall (fun x => x = 0) (padTo n l).
Proof.
  intros Hl. unfold padTo. apply Forall_app. split.
  - now apply Forall_take.
  - apply Forall_replicate. reflexivity.
Qed.

Lemma framesFrom_zeros (f h : positive) (start : nat) (rest : list R) :
  Forall (fun x => x = 0) rest ->
  Forall (fun fr => Forall (fun x => x = 0) (frameData fr)) (framesFrom f h start rest).
Proof.
  funelim (framesFrom f h start rest); intros Hrest.
  - constructor; [| constructor]. cbn. now apply padTo_zeros.
  - constructor.
    + cbn. now apply padTo_zeros.
    + apply H. now apply Forall_drop.
Qed.

Lemma featuresOf_silent (caps : Capabilities R) (cfg : Config R) (rate : R) (fr : Frame R) :
  Forall (fun x => x = 0) (frameData fr) ->
  ft_rms (featuresOf caps cfg rate fr) = 0 /\
  ft_decibels (featuresOf caps cfg rate fr) = -60.
Proof.
  intros Hfr. unfold featuresOf. cbn [ft_rms ft_decibels].
  rewrite (rmsOf_zeros _ Hfr). split; [reflexivity |].
  unfold decibelsOf, dbFloor. real_ops. unfold Reqb.
  destruct (Req_dec_T 0 0) as [_ | Hne]; [lra | congruence].
Qed.

(** On frames without energy the detector stays idle. *)
Lemma detect_silent (cfg : Config R) (xs : list (Features R)) (d : Detector R) :
  0 <= sensitivityFactor cfg ->
  0 <= noiseAlpha cfg <= 1 ->
  Forall (fun x => ft_rms x = 0) xs ->
  mode d = Idle ->
  0 <= noiseFloor d ->
  detect cfg d xs = [].
Proof.
  intros Hk Halpha Hxs. revert d.
  induction Hxs as [| x xs Hx _ IH]; intros d Hmode Hfloor; cbn [detect].
  - now rewrite Hmode.
  - unfold detectStep. rewrite Hmode.
    assert (Hquiet : loud cfg d x = false).
    { unfold loud. real_ops. apply Rltb_false. rewrite Hx. nra. }
    rewrite Hquiet. cbn [app]. apply IH; [reflexivity |].
    cbn [noiseFloor]. unfold nextFloor. real_ops. rewrite Hx. nra.
Qed.

Lemma sumOf_zeros (l : list R) (a : R) :
  Forall (fun x => x = 0) l -> fold_left nadd l a = a.
Proof.
  intros Hl. revert a. induction Hl as [| x l -> _ IH]; intros a; cbn.
  - reflexivity.
  - rewrite IH. real_ops. lra.
Qed.

Lemma meanOf_zeros (l : list R) : Forall (fun x => x = 0) l -> meanOf l = 0.
Proof.
  intros Hl. unfold meanOf. destruct l as [| x l]; [reflexivity |].
  unfold sumOf. rewrite (sumOf_zeros _ _ Hl). real_ops.
  unfold Rdiv. apply Rmult_0_l.
Qed.

(** C8: an all-zero waveform with at least one sample is analysed without
    error; the result has no sound event, [detectedSounds = 0] and
    [averageRMS = 0], its [maxDecibels] is the floor of -60 dB, and every
    frame has RMS 0 and the floor as decibel level. *)
Theorem silent_waveform_is_analysed
    (caps : Capabilities R) (cfg : Config R) (w : Waveform R) :
  (0 < frameSize cfg)%Z ->
  (0 < hopSize cfg)%Z ->
  0 <= sensitivityFactor cfg ->
  0 <= noiseAlpha cfg <= 1 ->
  0 <= noiseFloor0 cfg ->
  wf_samples w <> [] ->
  Forall (fun x => x = 0) (wf_samples w) ->
  exists r frames,
    analyze caps cfg w = inr r /\
    detectedSounds r = 0%nat /\
    soundEvents r = [] /\
    averageRMS r = 0 /\
    maxDecibels r = -60 /\
    segment cfg w = inr frames /\
    Forall (fun fr =>
              ft_rms (featuresOf caps cfg (wf_sampleRate w) fr) = 0 /\
              ft_decibels (featuresOf caps cfg (wf_sampleRate w) fr) = -60) frames.
Proof.
  intros Hf Hh Hk Halpha Hfloor Hne Hzero.
  unfold analyze, segment.
  destruct (frameSize cfg) as [| f | f]; try lia.
  destruct (hopSize cfg) as [| h | h]; try lia.
  destruct (wf_samples w) as [| x rest] eqn:Ew; [congruence |].
  rewrite <- Ew in *.
  set (frames := framesFrom f h 0 (wf_samples w)).
  set (fts := map (featuresOf caps cfg (wf_sampleRate w)) frames).
  assert (Hframes : Forall (fun fr => Forall (fun x => x = 0) (frameData fr)) frames)
    by now apply framesFrom_zeros.
  assert (Hfts : Forall (fun x => ft_rms x = 0) fts).
  { subst fts. apply Forall_fmap. eapply Forall_impl; [exact Hframes |].
    intros fr Hfr. exact (proj1 (featuresOf_silent caps cfg _ fr Hfr)). }
  assert (Hdet : detect cfg (initialDetector cfg) fts = [])
    by now apply detect_silent.
  rewrite Hdet. cbn [map].
  eexists _, frames. split; [reflexivity |].
  unfold aggregate.
  cbn [fold_left detectedSounds soundEvents averageRMS maxDecibels default].
  split; [reflexivity |]. split; [reflexivity |]. split.
  { apply meanOf_zeros. now apply Forall_fmap. }
  split; [unfold dbFloor; real_ops; lra |].
  split; [reflexivity |].
  eapply Forall_impl; [exact Hframes |].
  intros fr Hfr. now apply featuresOf_silent.
Qed.

End SilenceFacts.

Lemma silent_waveform_witness :
  exists r,
    Pipeline.analyze Samples.capsR Samples.configR Samples.silenceR = inr r /\
    Pipeline.detectedSounds r = 0 /\
    Pipeline.averageRMS r = 0%R.
Proof.
  destruct (silent_waveform_is_analysed Samples.capsR Samples.configR Samples.silenceR)
    as (r & frames & Hr & Hcount & _ & Hrms & _).
  - reflexivity.
  - reflexivity.
  - cbn. lra.
  - cbn. lra.
  - cbn. lra.
  - discriminate.
  - cbn. repeat constructor.
  - exists r. repeat split; assumption.
Defined.

(** ** The Event Detector and the pipeline *)

Section DetectorFacts.
Import Pipeline.
Context {num : Type} `{Num num}.

(** A frame takes the detector to one next state, with one output. *)
Lemma step_deterministic (cfg : Config num) (d d1 d2 : Detector num) (x : Features num)
    (out1 out2 : list (Candidate num)) :
  step cfg d x d1 out1 -> step cfg d x d2 out2 -> d1 = d2 /\ out1 = out2.
Proof.
  intros S1 S2.
  destruct S1; inversion S2; subst; split; congruence.
Qed.

Lemma run_deterministic (cfg : Config num) (xs : list (Features num)) (d : Detector num)
    (out1 out2 : list (Candidate num)) :
  run cfg d xs out1 -> run cfg d xs out2 -> out1 = out2.
Proof.
  intros R1. revert out2.
  induction R1 as [d Hd | d c q Hd | d x d' out xs rest Hstep _ IH]; intros out2 R2.
  - inversion R2; subst; congruence.
  - inversion R2; subst; congruence.
  - inversion R2 as [| | d0 x0 d'' out' xs0 rest' Hstep' Hrun']; subst.
    destruct (step_deterministic _ _ _ _ _ _ _ Hstep Hstep') as [<- <-].
    f_equal. now apply IH.
Qed.

(** Every frame has a transition: the function takes it. *)
Lemma step_detectStep (cfg : Config num) (d : Detector num) (x : Features num) :
  step cfg d x (fst (detectStep cfg d x)) (snd (detectStep cfg d x)).
Proof.
  unfold detectStep.
  destruct (mode d) as [| c q] eqn:Hmode.
  - destruct (loud cfg d x) eqn:Hloud; cbn [fst snd].
    + now apply step_onset.
    + now apply step_idle.
  - destruct (loud cfg d x) eqn:Hloud; cbn [fst snd].
    + now apply (step_sustain cfg d x c q).
    + destruct (heldQuiet cfg (quietStart q x) (ft_time x)) eqn:Hheld; cbn [fst snd].
      * now apply (step_close cfg d x c q).
      * now apply (step_dip cfg d x c q).
Qed.

(** The detector always finishes its run, with the output of [detect]. *)
Lemma run_detect (cfg : Config num) (xs : list (Features num)) (d : Detector num) :
  run cfg d xs (detect cfg d xs).
Proof.
  revert d. induction xs as [| x xs IH]; intros d; cbn [detect].
  - destruct (mode d) as [| c q] eqn:Hmode.
    + now apply run_end_idle.
    + now apply (run_end_open cfg d c q).
  - pose proof (step_detectStep cfg d x) as Hstep.
    destruct (detectStep cfg d x) as [d' out]. cbn [fst snd] in Hstep.
    eapply run_step; [exact Hstep | apply IH].
Qed.

(** Every input has a run: the one the function [analyze] computes. *)
Lemma analyzes_analyze (caps : Capabilities num) (cfg : Config num) (w : Waveform num) :
  analyzes caps cfg w (analyze caps cfg w).
Proof.
  unfold analyze.
  destruct (frameSize cfg) as [| f | f] eqn:Ef.
  - apply analyzes_invalid. lia.
  - destruct (hopSize cfg) as [| h | h] eqn:Eh.
    + apply analyzes_invalid. lia.
    + destruct (wf_samples w) as [| x rest] eqn:Ew.
      * apply analyzes_empty; [lia | lia | exact Ew].
      * rewrite <- Ew.
        apply analyzes_ok; [lia | lia | rewrite Ew; discriminate | |].
        -- unfold segment. now rewrite Ef, Eh, Ew.
        -- apply run_detect.
    + apply analyzes_invalid. lia.
  - apply analyzes_invalid. lia.
Qed.

(** The relational reading of the contract has one outcome for a waveform,
    a configuration and capabilities: it is the graph of [analyze].  This
    says nothing of a pipeline that is not under [src/]: whether its code
    reads a clock, a random source or state left by an earlier run is not
    to be seen from here. *)
Lemma pipeline_deterministic (caps : Capabilities num) (cfg : Config num)
    (w : Waveform num) (r1 r2 : PipelineError + AnalysisResult num) :
  analyzes caps cfg w r1 -> analyzes caps cfg w r2 -> r1 = r2.
Proof.
  intros A1 A2.
  destruct A1 as [Hbad | Hf Hh Hempty | frames cands Hf Hh Hne Hseg Hrun];
    inversion A2 as [Hbad' | Hf' Hh' Hempty' | frames' cands' Hf' Hh' Hne' Hseg' Hrun'];
    subst; try reflexivity; try lia; try congruence.
  rewrite Hseg in Hseg'. injection Hseg' as <-.
  now rewrite (run_deterministic _ _ _ _ _ Hrun Hrun').
Qed.

Lemma scanEvent_counts (events : list (SoundEvent num)) (n : nat) (m : option num) :
  fst (fold_left scanEvent events (n, m)) = n + length events.
Proof.
  revert n m. induction events as [| e events IH]; intros n m; cbn [fold_left length].
  - cbn. lia.
  - unfold scanEvent at 2. cbn [fst snd]. rewrite IH. lia.
Qed.

(** The Aggregator counts the events it is given. *)
Lemma aggregate_counts (w : Waveform num) (fts : list (Features num))
    (events : list (SoundEvent num)) (spectrum : list (SpectrumPoint num)) :
  detectedSounds (aggregate w fts events spectrum) = length events /\
  soundEvents (aggregate w fts events spectrum) = events.
Proof.
  unfold aggregate.
  pose proof (scanEvent_counts events 0 None) as Hcount.
  destruct (fold_left scanEvent events (0, None)) as [count maxDb].
  cbn in *. split; [exact Hcount | reflexivity].
Qed.

Lemma analyze_counts (caps : Capabilities num) (cfg : Config num) (w : Waveform num)
    (r : AnalysisResult num) :
  analyze caps cfg w = inr r -> detectedSounds r = length (soundEvents r).
Proof.
  unfold analyze.
  destruct (frameSize cfg); try discriminate.
  destruct (hopSize cfg); try discriminate.
  destruct (wf_samples w); try discriminate.
  intros [= <-].
  match goal with
  | |- detectedSounds (aggregate ?w ?fts ?events ?sp) = _ =>
      destruct (aggregate_counts w fts events sp) as [-> ->]
  end.
  reflexivity.
Qed.

(** C1: in every AnalysisResult of a pipeline run, [detectedSounds] is the
    length of [soundEvents]; the sonar view, which shows [detectedSounds]
    as "Total Events" and draws one blip per element of [soundEvents],
    shows the number of blips it draws. *)
Theorem detectedSounds_is_length_of_soundEvents
    (caps : Capabilities num) (cfg : Config num) (w : Waveform num)
    (r : AnalysisResult num) :
  analyze caps cfg w = inr r ->
  detectedSounds r = length (soundEvents r) /\
  forall (m : SonarView.Math num) (name url : string) (h : gmap JS.loc (JS.cell num))
         (c : SonarView.Canvas num),
    let stored := Boundary.storeAudioData name url r h in
    exists bs,
      SonarView.blips m (fst stored) (snd stored) c = JS.Ok bs /\
      length bs = length (soundEvents r) /\
      SonarView.totalEvents (fst stored) (snd stored)
        = JS.Ok (JS.VNum (nof_nat (length bs))).
Proof.
  intros Hrun. pose proof (analyze_counts _ _ _ _ Hrun) as Hcount.
  split; [exact Hcount |].
  intros m name url h c. cbn zeta.
  destruct (sonar_shows_stored_result m name url r h c) as (Htotal & bs & Hbs & Hlen).
  exists bs. split; [exact Hbs |]. split; [exact Hlen |].
  now rewrite Htotal, Hlen, Hcount.
Qed.

End DetectorFacts.

Lemma detectedSounds_witness :
  exists r,
    Pipeline.analyze Samples.caps Samples.config Samples.burst = inr r /\
    Pipeline.detectedSounds r = 1 /\
    Pipeline.detectedSounds r = length (Pipeline.soundEvents r).
Proof.
  eexists. split; [vm_compute; reflexivity |].
  split; [reflexivity |].
  refine (proj1 (detectedSounds_is_length_of_soundEvents
                   Samples.caps Samples.config Samples.burst _ _)).
  vm_compute. reflexivity.
Defined.

(** * Further properties of the code *)

(** ** app/api/classify-audio/route.ts: the responses and the process *)

Lemma append_nil_r (s : string) : (s ++ "")%string = s.
Proof.
  induction s as [| a s IH]; [reflexivity |].
  change (String a (s ++ "")%string = String a s). now rewrite IH.
Qed.

Lemma append_assoc (s t u : string) : ((s ++ t) ++ u = s ++ (t ++ u))%string.
Proof.
  induction s as [| a s IH]; [reflexivity |].
  change (String a ((s ++ t) ++ u) = String a (s ++ (t ++ u)))%string. now rewrite IH.
Qed.

Section RouteMore.
Import JS Route.
Context {num : Type} `{Num num} {json : Type}.
Variable parse : string -> string + json.

(** What [POST] comes to once the body is read and [audioData] is truthy. *)
Lemma POST_spawned
    (platform cwd : string) (h : gmap loc (cell num))
    (reqBody audioData filename : value num) (events : list LoopEvent) :
  get h reqBody "audioData" = Ok audioData ->
  get h reqBody "filename" = Ok filename ->
  truthy audioData = true ->
  POST parse platform cwd (Ok (h, reqBody)) events
  = let final := fold_left (on parse) events (spawned platform cwd audioData filename) in
    {| response := resolved final; effects := log final |}.
Proof.
  intros Ha Hf Htruthy.
  now rewrite (POST_after_body parse platform cwd h reqBody audioData filename _ Ha Hf),
    Htruthy.
Qed.

(** The cases of [POST]: an early answer without effects, or the run of
    the callbacks from the state after the spawn. *)
Lemma POST_cases
    (platform cwd : string) (request : outcome (gmap loc (cell num) * value num))
    (events : list LoopEvent) :
  (exists r, POST parse platform cwd request events
             = {| response := Some r; effects := [] |} /\
             (r = noAudioData \/ exists details, r = internalError details)) \/
  (exists audioData filename,
     truthy audioData = true /\
     POST parse platform cwd request events
     = let final := fold_left (on parse) events (spawned platform cwd audioData filename) in
       {| response := resolved final; effects := log final |}).
Proof.
  unfold POST.
  destruct request as [[h reqBody] | e]; cbn.
  2: { left. eexists. split; [reflexivity |]. right. now eexists. }
  destruct (destructure h reqBody "audioData") as [audioData | e]; cbn.
  2: { left. eexists. split; [reflexivity |]. right. now eexists. }
  destruct (destructure h reqBody "filename") as [filename | e]; cbn.
  2: { left. eexists. split; [reflexivity |]. right. now eexists. }
  destruct (truthy audioData) eqn:Htruthy; cbn.
  - right. exists audioData, filename. now split.
  - left. eexists. split; [reflexivity |]. now left.
Qed.

(** The buffers after a run of data chunks. *)
Lemma run_data (events : list LoopEvent) (p : Pending num json) :
  Forall (fun e => isData e = true) events ->
  fold_left (on parse) events p
  = {| stdout := stdout p ++ stdoutOf events;
       stderr := stderr p ++ stderrOf events;
       resolved := resolved p;
       log := log p |}.
Proof.
  intros Hev. revert p. induction Hev as [| e events He _ IH]; intros p; cbn.
  - rewrite !append_nil_r. now destruct p.
  - rewrite IH. destruct e as [chunk | chunk | message | code | ]; try discriminate; cbn.
    + now rewrite append_assoc.
    + now rewrite append_assoc.
Qed.

(** The effects of a run: the log grows by one [Kill] for each run of the
    timer callback. *)
Lemma run_log (events : list LoopEvent) (p : Pending num json) :
  log (fold_left (on parse) events p) = log p ++ repeat Kill (timerRuns events).
Proof.
  revert p. induction events as [| e events IH]; intros p; cbn.
  - now rewrite app_nil_r.
  - rewrite IH. destruct e as [chunk | chunk | message | code | ]; cbn; try reflexivity.
    + destruct code as [[| c | c] |]; cbn; try reflexivity.
      now destruct (parse (stdout p)).
    + unfold timerRuns. cbn. now rewrite <- app_assoc.
Qed.

(** A list of events is output only, or has a first event that is not. *)
Lemma events_split (events : list LoopEvent) :
  Forall (fun e => isData e = true) events \/
  exists chunks e after,
    events = chunks ++ e :: after /\
    Forall (fun e => isData e = true) chunks /\
    isData e = false.
Proof.
  induction events as [| e events IH].
  - left. constructor.
  - destruct (isData e) eqn:He.
    + destruct IH as [Hall | (chunks & e' & after & -> & Hchunks & He')].
      * left. now constructor.
      * right. exists (e :: chunks), e', after. repeat split; [| assumption].
        now constructor.
    + right. exists [], e, events. repeat split; [constructor | assumption].
Qed.

(** The promise is settled by the first event that is not output: a spawn
    error, a close, or the timer; what it is settled with is read off the
    buffers as they stand then. *)
Lemma run_settled
    (platform cwd : string) (audioData filename : value num) (events : list LoopEvent)
    (r : Response json) :
  resolved (fold_left (on parse) events (spawned platform cwd audioData filename)) = Some r ->
  exists chunks e after,
    events = chunks ++ e :: after /\
    Forall (fun e => isData e = true) chunks /\
    ((exists m, e = ProcessError m /\ r = startFailed m) \/
     (e = TimerFired /\ r = timeoutResponse) \/
     (exists j, e = Close (Some 0%Z) /\ parse (stdoutOf chunks) = inr j /\
                r = {| status := 200; body := Parsed j |}) \/
     (exists details, e = Close (Some 0%Z) /\ parse (stdoutOf chunks) = inl details /\
                      r = parseFailure details (stdoutOf chunks) (stderrOf chunks)) \/
     (exists code, e = Close code /\ code <> Some 0%Z /\
                   r = classificationFailed code (stdoutOf chunks) (stderrOf chunks))).
Proof.
  set (p0 := spawned platform cwd audioData filename).
  destruct (events_split events) as [Hall | (chunks & e & after & -> & Hchunks & He)].
  { rewrite (run_data events p0 Hall). discriminate. }
  intros Hr. exists chunks, e, after. split; [reflexivity |]. split; [exact Hchunks |].
  revert Hr. rewrite fold_left_app. cbn [fold_left]. rewrite (run_data chunks p0 Hchunks).
  subst p0. cbn [spawned stdout stderr resolved log].
  change (String.append "" (stdoutOf chunks)) with (stdoutOf chunks).
  change (String.append "" (stderrOf chunks)) with (stderrOf chunks).
  set (p1 := {| stdout := stdoutOf chunks; stderr := stderrOf chunks;
                resolved := None; log := _ |}).
  assert (Hfirst : forall r0, resolved (on parse p1 e) = Some r0 ->
                              resolved (fold_left (on parse) after (on parse p1 e)) = Some r ->
                              r = r0).
  { intros r0 Hr0 Hr. rewrite (run_keeps_resolved parse after _ r0 Hr0) in Hr. congruence. }
  destruct e as [chunk | chunk | m | code | ]; try discriminate.
  - intros Hr. left. exists m. split; [reflexivity |]. now apply Hfirst.
  - destruct code as [[| c | c] |].
    + destruct (parse (stdoutOf chunks)) as [details | j] eqn:Hparse.
      * intros Hr. right. right. right. left. exists details.
        split; [reflexivity |]. split; [reflexivity |].
        apply Hfirst; [| exact Hr]. cbn. now rewrite Hparse.
      * intros Hr. right. right. left. exists j.
        split; [reflexivity |]. split; [reflexivity |].
        apply Hfirst; [| exact Hr]. cbn. now rewrite Hparse.
    + intros Hr. do 4 right. exists (Some (Z.pos c)).
      split; [reflexivity |]. split; [discriminate |]. now apply Hfirst.
    + intros Hr. do 4 right. exists (Some (Z.neg c)).
      split; [reflexivity |]. split; [discriminate |]. now apply Hfirst.
    + intros Hr. do 4 right. exists None.
      split; [reflexivity |]. split; [discriminate |]. now apply Hfirst.
  - intros Hr. right. left. split; [reflexivity |]. now apply Hfirst.
Qed.

(** X1: whatever the request and whatever the event loop delivers, a
    response of [POST] is either the classifier's parsed output under
    status 200, or an object with a string [error] under status 400, 408
    or 500.  Under status 200 the body is what [JSON.parse] reads from the
    standard output of the process: all of its chunks, in order, up to the
    close with exit code 0 that was the first event other than output. *)
Theorem POST_response_is_result_or_error
    (platform cwd : string) (request : outcome (gmap loc (cell num) * value num))
    (events : list LoopEvent) (r : Response json) :
  response (POST parse platform cwd request events) = Some r ->
  (status r = 200 /\
   exists chunks after j,
     events = chunks ++ Close (Some 0%Z) :: after /\
     Forall (fun e => isData e = true) chunks /\
     parse (stdoutOf chunks) = inr j /\
     body r = Parsed j) \/
  ((status r = 400 \/ status r = 408 \/ status r = 500) /\
   exists m, errorOf r = Some (FStr m)).
Proof.
  destruct (POST_cases platform cwd request events)
    as [(r0 & -> & Hr0) | (audioData & filename & _ & ->)]; cbn.
  - intros [= <-]. right. destruct Hr0 as [-> | [details ->]]; (split; [tauto | now eexists]).
  - intros Hr.
    destruct (run_settled _ _ _ _ _ _ Hr) as (chunks & e & after & -> & Hchunks & Hcase).
    destruct Hcase as [(m & -> & ->) | [[-> ->] | [(j & -> & Hparse & ->) |
                       [(details & -> & Hparse & ->) | (code & -> & Hcode & ->)]]]].
    + right. split; [tauto | now eexists].
    + right. split; [tauto | now eexists].
    + left. split; [reflexivity |]. now exists chunks, after, j.
    + right. split; [tauto | now eexists].
    + right. split; [tauto | now eexists].
Qed.

(** X2: the timer is never cleared.  When its callback runs after the
    process has already completed (or failed to start), the response that
    was given stays, it is not the timeout response, and the process is
    killed all the same. *)
Theorem POST_timer_kills_after_completion
    (platform cwd : string) (h : gmap loc (cell num))
    (reqBody audioData filename : value num)
    (quiet between after : list LoopEvent) (done : LoopEvent) :
  get h reqBody "audioData" = Ok audioData ->
  get h reqBody "filename" = Ok filename ->
  truthy audioData = true ->
  Forall (fun e => isData e = true) quiet ->
  completes done = true ->
  let out := POST parse platform cwd (Ok (h, reqBody))
               (quiet ++ done :: between ++ TimerFired :: after) in
  response out = response (POST parse platform cwd (Ok (h, reqBody)) (quiet ++ [done])) /\
  (exists r, response out = Some r /\ status r <> 408) /\
  Kill ∈ effects out.
Proof.
  intros Ha Hf Htruthy Hquiet Hdone. cbn zeta.
  rewrite !(POST_spawned platform cwd h reqBody audioData filename) by assumption.
  cbn zeta. cbn [response effects].
  set (p0 := spawned platform cwd audioData filename).
  rewrite !fold_left_app. cbn [fold_left]. rewrite fold_left_app. cbn [fold_left].
  rewrite (run_data quiet p0 Hquiet).
  set (p1 := {| stdout := _; stderr := _; resolved := resolved p0; log := log p0 |}).
  assert (Hsettled : exists r, resolved (on parse p1 done) = Some r /\ status r <> 408).
  { destruct done as [chunk | chunk | message | code | ]; try discriminate; cbn [on].
    - eexists. split; [reflexivity | discriminate].
    - destruct code as [[| c | c] |];
        try (eexists; split; [reflexivity | discriminate]).
      destruct (parse (stdout p1)); eexists; (split; [reflexivity | discriminate]). }
  destruct Hsettled as (r & Hr & Hstatus).
  assert (Hall : resolved
                   (fold_left (on parse) after
                      (on parse (fold_left (on parse) between (on parse p1 done)) TimerFired))
                 = Some r).
  { apply run_keeps_resolved, on_keeps_resolved, run_keeps_resolved, Hr. }
  split; [now rewrite Hall, Hr |].
  split; [now exists r |].
  apply run_keeps_log. cbn. apply elem_of_app. right. now apply list_elem_of_singleton.
Qed.

(** X3: the first response is the response.  Once [POST] has answered,
    nothing the event loop delivers later changes the answer. *)
Theorem POST_first_response_wins
    (platform cwd : string) (request : outcome (gmap loc (cell num) * value num))
    (events later : list LoopEvent) (r : Response json) :
  response (POST parse platform cwd request events) = Some r ->
  response (POST parse platform cwd request (events ++ later)) = Some r.
Proof.
  destruct (POST_cases platform cwd request events)
    as [(r0 & Hearly & _) | (audioData & filename & Htruthy & Hrun)].
  - assert (Hsame : POST parse platform cwd request (events ++ later)
                    = POST parse platform cwd request events).
    { revert Hearly. unfold POST.
      destruct (_ ← request; _) as [[a f] | e]; [| reflexivity].
      destruct (truthy a); [| reflexivity]. cbn.
      intros [= _ Hlog]. exfalso.
      pose proof (run_log events (spawned platform cwd a f)) as Hl.
      rewrite Hlog in Hl. discriminate. }
    now rewrite Hsame.
  - rewrite Hrun. cbn. intros Hr.
    assert (Hmore : POST parse platform cwd request (events ++ later)
                    = let final := fold_left (on parse) (events ++ later)
                                     (spawned platform cwd audioData filename) in
                      {| response := resolved final; effects := log final |}).
    { revert Hrun. unfold POST.
      pose proof (run_log events (spawned platform cwd audioData filename)) as Hl.
      destruct (_ ← request; _) as [[a f] | e].
      2: { cbn. intros [= _ Hlog]. rewrite <- Hlog in Hl. discriminate. }
      destruct (truthy a) eqn:Ha; cbn.
      - intros [= Hres Hlog].
        pose proof (run_log events (spawned platform cwd a f)) as Hl1.
        rewrite Hlog, Hl in Hl1. cbn in Hl1. injection Hl1 as Ha' Hf'.
        assert (Hsame : spawned platform cwd a f
                        = (spawned platform cwd audioData filename : Pending num json)).
        { unfold spawned. now rewrite Ha', Hf'. }
        now rewrite Hsame.
      - intros [= _ Hlog]. rewrite <- Hlog in Hl. discriminate. }
    rewrite Hmore. cbn. rewrite fold_left_app. now apply run_keeps_resolved.
Qed.

(** X4: the output of the process is put together from its chunks in the
    order they arrive, whatever is written to the error stream in between:
    when the process exits with code 0 before the timer runs and the whole
    output is readable, the answer is that result under status 200. *)
Theorem POST_answers_the_parsed_output
    (platform cwd : string) (h : gmap loc (cell num))
    (reqBody audioData filename : value num)
    (chunks after : list LoopEvent) (j : json) :
  get h reqBody "audioData" = Ok audioData ->
  get h reqBody "filename" = Ok filename ->
  truthy audioData = true ->
  Forall (fun e => isData e = true) chunks ->
  parse (stdoutOf chunks) = inr j ->
  response (POST parse platform cwd (Ok (h, reqBody)) (chunks ++ Close (Some 0%Z) :: after))
  = Some {| status := 200; body := Parsed j |}.
Proof.
  intros Ha Hf Htruthy Hchunks Hparse.
  rewrite (POST_spawned platform cwd h reqBody audioData filename) by assumption.
  cbn zeta. cbn [response]. rewrite fold_left_app. cbn [fold_left].
  apply run_keeps_resolved. rewrite (run_data chunks _ Hchunks). cbn.
  change (String.append "" (stdoutOf chunks)) with (stdoutOf chunks).
  now rewrite Hparse.
Qed.

(** X5: the answer "MediaPipe classification failed" is given exactly
    when the first event other than output is a close with an exit code
    other than 0, or with none (the process was killed by a signal).  It
    has status 500 and carries the code and both buffers as they stood at
    the close; the output is not read, even when it is a complete result.
    A close that comes after the timer has run (the handler's own kill) or
    after a spawn error does not give this answer: the response is then
    the one of the timer or of the error. *)
Theorem POST_reports_a_failed_classifier
    (platform cwd : string) (h : gmap loc (cell num))
    (reqBody audioData filename : value num)
    (events : list LoopEvent) (code : option Z) (out err : string) :
  get h reqBody "audioData" = Ok audioData ->
  get h reqBody "filename" = Ok filename ->
  truthy audioData = true ->
  response (POST parse platform cwd (Ok (h, reqBody)) events)
  = Some (respond 500 [ ("error", FStr "MediaPipe classification failed");
                        ("code", FCode code);
                        ("stderr", FStr err);
                        ("stdout", FStr out) ])
  <->
  exists chunks after,
    events = chunks ++ Close code :: after /\
    Forall (fun e => isData e = true) chunks /\
    code <> Some 0%Z /\
    out = stdoutOf chunks /\
    err = stderrOf chunks.
Proof.
  intros Ha Hf Htruthy.
  rewrite (POST_spawned platform cwd h reqBody audioData filename) by assumption.
  cbn zeta. cbn [response]. split.
  - intros Hr.
    destruct (run_settled _ _ _ _ _ _ Hr) as (chunks & e & after & -> & Hchunks & Hcase).
    destruct Hcase as [(m & -> & Heq) | [[-> Heq] | [(j & -> & Hparse & Heq) |
                       [(details & -> & Hparse & Heq) | (code' & -> & Hcode & Heq)]]]];
      try discriminate Heq.
    injection Heq as -> -> ->. now exists chunks, after.
  - intros (chunks & after & -> & Hchunks & Hcode & -> & ->).
    rewrite fold_left_app. cbn [fold_left].
    apply run_keeps_resolved. rewrite (run_data chunks _ Hchunks). cbn.
    change (String.append "" (stdoutOf chunks)) with (stdoutOf chunks).
    change (String.append "" (stderrOf chunks)) with (stderrOf chunks).
    destruct code as [[| c | c] |]; try reflexivity. now destruct Hcode.
Qed.


End RouteMore.

Lemma POST_response_witness :
  let r : Route.Response unit := Route.timeoutResponse in
  (Route.status r = 200 /\
   exists chunks after j,
     [Route.TimerFired] = chunks ++ Route.Close (Some 0%Z) :: after /\
     Forall (fun e => Route.isData e = true) chunks /\
     Samples.rejectAll (Route.stdoutOf chunks) = inr j /\
     Route.body r = Route.Parsed j) \/
  ((Route.status r = 400 \/ Route.status r = 408 \/ Route.status r = 500) /\
   exists m, Route.errorOf r = Some (Route.FStr m)).
Proof.
  exact (POST_response_is_result_or_error Samples.rejectAll "linux" "/app"
           (JS.Ok (Samples.bodyWithAudio, JS.VRef 1%positive)) [Route.TimerFired]
           Route.timeoutResponse eq_refl).
Defined.

Lemma POST_timer_kills_witness :
  Route.Kill ∈
    Route.effects
      (Route.POST Samples.rejectAll "linux" "/app"
         (JS.Ok (Samples.bodyWithAudio, JS.VRef 1%positive))
         ([Route.StdoutData "{"] ++ Route.Close (Some 1%Z) ::
            [Route.StderrData "late"] ++ Route.TimerFired :: [])).
Proof.
  refine (proj2 (proj2 (POST_timer_kills_after_completion Samples.rejectAll "linux" "/app"
                          Samples.bodyWithAudio (JS.VRef 1%positive)
                          (JS.VStr "UklGRg") (JS.VStr "a.wav")
                          [Route.StdoutData "{"] [Route.StderrData "late"] []
                          (Route.Close (Some 1%Z))
                          eq_refl eq_refl eq_refl _ eq_refl))).
  repeat constructor.
Defined.

Lemma POST_first_response_witness :
  Route.response
    (Route.POST Samples.rejectAll "linux" "/app"
       (JS.Ok (Samples.bodyWithAudio, JS.VRef 1%positive))
       ([Route.TimerFired] ++ [Route.Close (Some 0%Z)]))
  = Some Route.timeoutResponse.
Proof.
  exact (POST_first_response_wins Samples.rejectAll "linux" "/app"
           (JS.Ok (Samples.bodyWithAudio, JS.VRef 1%positive))
           [Route.TimerFired] [Route.Close (Some 0%Z)] Route.timeoutResponse eq_refl).
Defined.

Lemma POST_parsed_output_witness :
  Route.response
    (Route.POST Samples.acceptBraces "linux" "/app"
       (JS.Ok (Samples.bodyWithAudio, JS.VRef 1%positive))
       ([Route.StdoutData "{"; Route.StderrData "warning"; Route.StdoutData "}"]
          ++ Route.Close (Some 0%Z) :: [Route.TimerFired]))
  = Some {| Route.status := 200; Route.body := Route.Parsed tt |}.
Proof.
  refine (POST_answers_the_parsed_output Samples.acceptBraces "linux" "/app"
            Samples.bodyWithAudio (JS.VRef 1%positive)
            (JS.VStr "UklGRg") (JS.VStr "a.wav")
            [Route.StdoutData "{"; Route.StderrData "warning"; Route.StdoutData "}"]
            [Route.TimerFired] tt eq_refl eq_refl eq_refl _ eq_refl).
  repeat constructor.
Defined.

Lemma POST_failed_classifier_witness :
  Route.response
    (Route.POST Samples.acceptBraces "linux" "/app"
       (JS.Ok (Samples.bodyWithAudio, JS.VRef 1%positive))
       ([Route.StdoutData "{}"; Route.StderrData "Killed"] ++ Route.Close None :: []))
  = Some (Route.respond 500
            [ ("error", Route.FStr "MediaPipe classification failed");
              ("code", Route.FCode None);
              ("stderr", Route.FStr "Killed");
              ("stdout", Route.FStr "{}") ]).
Proof.
  refine (proj2 (POST_reports_a_failed_classifier Samples.acceptBraces "linux" "/app"
                   Samples.bodyWithAudio (JS.VRef 1%positive)
                   (JS.VStr "UklGRg") (JS.VStr "a.wav")
                   ([Route.StdoutData "{}"; Route.StderrData "Killed"]
                      ++ Route.Close None :: [])
                   None "{}" "Killed" eq_refl eq_refl eq_refl) _).
  exists [Route.StdoutData "{}"; Route.StderrData "Killed"], [].
  repeat split; try discriminate. repeat constructor.
Defined.

(** ** lib/supabase.ts and lib/database.ts: the service *)

Section ServiceMore.
Import JS Supabase Database.
Context {num : Type} `{Num num}.

Lemma prefix_append (needle rest : string) : String.prefix needle (needle ++ rest) = true.
Proof.
  induction needle as [| a needle IH].
  - change ("" ++ rest)%string with rest. now destruct rest.
  - change (String a needle ++ rest)%string with (String a (needle ++ rest)). cbn.
    now destruct (ascii_dec a a).
Qed.

Lemma includes_unfold (needle s : string) :
  includes needle s
  = if String.prefix needle s then true
    else match s with
         | EmptyString => false
         | String _ r => includes needle r
         end.
Proof. now destruct s. Qed.

(** [includes] finds the needle wherever it stands. *)
Lemma includes_append (needle before rest : string) :
  includes needle (before ++ needle ++ rest) = true.
Proof.
  induction before as [| a before IH].
  - change ("" ++ needle ++ rest)%string with (needle ++ rest)%string.
    now rewrite includes_unfold, prefix_append.
  - change (String a before ++ needle ++ rest)%string
      with (String a (before ++ needle ++ rest)).
    rewrite includes_unfold, IH. now destruct (String.prefix _ _).
Qed.

Lemma given_true (o : option string) :
  given o = true -> exists s, o = Some s /\ s <> "".
Proof.
  destruct o as [s |]; cbn; [| discriminate].
  intros Hs. exists s. split; [reflexivity |]. intros ->. discriminate.
Qed.

(** The client exists as soon as both variables are given. *)
Lemma supabase_given (env : Env) :
  given (supabaseUrl env) = true -> given (supabaseKey env) = true ->
  exists u k, supabaseUrl env = Some u /\ supabase env = Some (createClient u k).
Proof.
  intros Hu Hk. unfold supabase.
  destruct (supabaseUrl env) as [u |] eqn:Eu; [| discriminate].
  destruct (supabaseKey env) as [k |] eqn:Ek; [| discriminate].
  rewrite Hu, Hk. cbn. eauto.
Qed.

Lemma getSupabaseStatus_connected (env : Env) :
  Supabase.connected (getSupabaseStatus env) = isSupabaseAvailable env.
Proof.
  unfold getSupabaseStatus, isSupabaseAvailable.
  destruct (given (supabaseUrl env)) eqn:Hu; cbn; [| reflexivity].
  destruct (given (supabaseKey env)) eqn:Hk; cbn; [| reflexivity].
  destruct (supabase_given env Hu Hk) as (u & k & _ & ->). reflexivity.
Qed.

(** X7: [getSupabaseStatus] and [isSupabaseAvailable] agree: the status
    says connected exactly when the service takes the database to be
    available.  The status then carries the configured URL and no error,
    and the answer "Failed to create Supabase client" is never given. *)
Theorem getSupabaseStatus_agrees_with_isSupabaseAvailable (env : Env) :
  let status := getSupabaseStatus env in
  Supabase.connected status = isSupabaseAvailable env /\
  (Supabase.connected status = true ->
   Supabase.url status = NEXT_PUBLIC_SUPABASE_URL env /\ Supabase.error status = None) /\
  (Supabase.connected status = false ->
   Supabase.url status = None /\ exists m, Supabase.error status = Some m) /\
  Supabase.error status <> Some "Failed to create Supabase client".
Proof.
  cbn zeta. split; [apply getSupabaseStatus_connected |].
  unfold getSupabaseStatus.
  destruct (given (supabaseUrl env)) eqn:Hu; cbn.
  2: { repeat split; try discriminate. now eexists. }
  destruct (given (supabaseKey env)) eqn:Hk; cbn.
  2: { repeat split; try discriminate. now eexists. }
  destruct (supabase_given env Hu Hk) as (u & k & Eu & ->). cbn.
  repeat split; try discriminate.
Qed.

(** The record is built from [analysisResults]: without it nothing is. *)
Lemma analysisRecord_without_results
    (h : gmap loc (cell num)) (la : loc) (audio : gmap string (value num)) :
  h !! la = Some (CObj audio) ->
  audio !! "analysisResults" = None ->
  analysisRecord h (VRef la)
  = Throw (TypeError "Cannot read properties of undefined (reading 'duration')").
Proof.
  intros Hla Hnone. unfold analysisRecord. cbn. rewrite Hla. cbn. now rewrite Hnone.
Qed.

(** X8: with the database available, [saveAnalysis] on an audio file that
    has no [analysisResults] rejects with the TypeError of the first
    property read, and sends nothing to the database; [saveSession] on the
    same file resolves to [null], and sends nothing either. *)
Theorem saveAnalysis_rejects_without_results
    (env : Env) (now : N) (insert : AudioAnalysisRecord num -> InsertReply)
    (insertSession : AnalysisSession num -> outcome InsertReply)
    (h : gmap loc (cell num)) (la : loc) (audio : gmap string (value num))
    (sessionName : string) :
  isSupabaseAvailable env = true ->
  h !! la = Some (CObj audio) ->
  audio !! "analysisResults" = None ->
  saveAnalysis env now insert h (VRef la)
  = {| effects := []; store := h;
       result := Throw (TypeError "Cannot read properties of undefined (reading 'duration')") |} /\
  saveSession env now insertSession h sessionName (VRef la)
  = {| sessionCalls := []; sessionStore := h; sessionResult := Ok VNull |}.
Proof.
  intros Hav Hla Hnone.
  pose proof (analysisRecord_without_results h la audio Hla Hnone) as Hrec.
  unfold saveAnalysis, saveSession, sessionRecord. rewrite Hav, Hrec. cbn.
  split; [reflexivity |]. rewrite Hla. reflexivity.
Qed.

(** X9: when the database answers an insert with an error whose message
    contains the text [relation "public.audio_analyses" does not exist]
    anywhere, [saveAnalysis] rejects with "Database tables not found.
    Please run the SQL setup script."; with any other error message it
    resolves to [null]. *)
Theorem saveAnalysis_reports_missing_tables
    (env : Env) (now : N) (insert : AudioAnalysisRecord num -> InsertReply)
    (h h' : gmap loc (cell num)) (audioData : value num) (rec : AudioAnalysisRecord num)
    (m : string) :
  isSupabaseAvailable env = true ->
  analysisRecord h audioData = Ok (h', rec) ->
  error (insert rec) = Some m ->
  let s := saveAnalysis env now insert h audioData in
  effects s = [Insert "audio_analyses" rec] /\
  ((exists before rest, m = (before ++ missingTables ++ rest)%string) ->
   result s = Throw (Error "Database tables not found. Please run the SQL setup script.")) /\
  (includes missingTables m = false -> result s = Ok VNull).
Proof.
  intros Hav Hrec Herr. cbn zeta. unfold saveAnalysis. rewrite Hav, Hrec. cbn.
  rewrite Herr. split; [reflexivity |]. split.
  - intros (before & rest & ->). now rewrite includes_append.
  - now intros ->.
Qed.

Lemma sessionRecord_keeps_store
    (h h' : gmap loc (cell num)) (sessionName : string) (audioData : value num)
    (row : AnalysisSession num) (l : loc) (x : cell num) :
  sessionRecord h sessionName audioData = Ok (h', row) ->
  h !! l = Some x ->
  h' !! l = Some x.
Proof.
  unfold sessionRecord. intros Hrow Hl.
  destruct (get h audioData "url") as [u |]; cbn in Hrow; [| discriminate].
  destruct (analysisRecord h audioData) as [[h1 rec] |] eqn:Hrec; cbn in Hrow; [| discriminate].
  injection Hrow as <- _. exact (analysisRecord_keeps_store _ _ _ _ _ _ Hrec Hl).
Qed.

(** X10: the service writes to no cell the store holds: what [audioData]
    and everything else refer to is the same after [saveAnalysis] and after
    [saveSession] (the arrays that stand in for a missing [soundEvents] or
    [frequencySpectrum] are new cells). *)
Theorem service_keeps_the_store
    (env : Env) (now : N) (insert : AudioAnalysisRecord num -> InsertReply)
    (insertSession : AnalysisSession num -> outcome InsertReply)
    (h : gmap loc (cell num)) (sessionName : string) (audioData : value num)
    (l : loc) (x : cell num) :
  h !! l = Some x ->
  store (saveAnalysis env now insert h audioData) !! l = Some x /\
  sessionStore (saveSession env now insertSession h sessionName audioData) !! l = Some x.
Proof.
  intros Hl. split; [now apply saveAnalysis_keeps_store |].
  unfold saveSession.
  destruct (negb (isSupabaseAvailable env)); [exact Hl |].
  destruct (sessionRecord h sessionName audioData) as [[h' row] | e] eqn:Hrow; [| exact Hl].
  cbn [sessionStore]. exact (sessionRecord_keeps_store _ _ _ _ _ _ _ Hrow Hl).
Qed.

(** X11: [saveSession] never rejects, whatever the data and whatever the
    database does: it resolves to [null] or to an id, after at most one
    insert, into [analysis_sessions].  An id that does not start with
    [demo-session-] is the first one the database returned. *)
Theorem saveSession_never_rejects
    (env : Env) (now : N) (insertSession : AnalysisSession num -> outcome InsertReply)
    (h : gmap loc (cell num)) (sessionName : string) (audioData : value num) :
  let s := saveSession env now insertSession h sessionName audioData in
  (sessionResult s = Ok VNull \/
   (isSupabaseAvailable env = false /\ sessionCalls s = [] /\
    sessionResult s = Ok (VStr ("demo-session-" ++ decimal now))) \/
   (exists row reply id ids,
      sessionCalls s = [InsertInto "analysis_sessions" row] /\
      insertSession row = Ok reply /\ error reply = None /\ data reply = Some (id :: ids) /\
      sessionResult s = Ok (VStr id))) /\
  (sessionCalls s = [] \/ exists row, sessionCalls s = [InsertInto "analysis_sessions" row]).
Proof.
  cbn zeta. unfold saveSession.
  destruct (isSupabaseAvailable env) eqn:Hav; cbn.
  2: { split; [right; left; now repeat split | now left]. }
  destruct (sessionRecord h sessionName audioData) as [[h' row] | e]; cbn.
  2: { split; now left. }
  split; [| right; now eexists].
  destruct (insertSession row) as [reply | e] eqn:Hins; [| now left].
  destruct (error reply) as [m |] eqn:Herr; [now left |].
  destruct (data reply) as [[| id ids] |] eqn:Hdata; cbn; try now left.
  right. right. exists row, reply, id, ids. now repeat split.
Qed.

End ServiceMore.

Lemma saveAnalysis_without_results_witness :
  Database.result
    (Database.saveAnalysis Samples.someEnv 0%N Samples.acceptAll
       Samples.bodyWithoutAudio (JS.VRef 1%positive))
  = JS.Throw (JS.TypeError "Cannot read properties of undefined (reading 'duration')").
Proof.
  exact (f_equal Database.result
           (proj1 (saveAnalysis_rejects_without_results Samples.someEnv 0%N Samples.acceptAll
                     (fun _ => JS.Throw (JS.Error "offline"))
                     Samples.bodyWithoutAudio 1%positive
                     (<["filename" := JS.VStr "a.wav"]> ∅) "session"
                     eq_refl eq_refl eq_refl))).
Defined.

Lemma saveAnalysis_missing_tables_witness :
  Database.result
    (Database.saveAnalysis Samples.someEnv 0%N Samples.withoutTables
       Samples.twoPoints Samples.twoPointsAudio)
  = JS.Throw (JS.Error "Database tables not found. Please run the SQL setup script.").
Proof.
  destruct (Database.analysisRecord Samples.twoPoints Samples.twoPointsAudio)
    as [[h' rec] | e] eqn:Hrec.
  - refine (proj1 (proj2 (saveAnalysis_reports_missing_tables Samples.someEnv 0%N
                            Samples.withoutTables Samples.twoPoints h'
                            Samples.twoPointsAudio rec
                            ("ERROR: " ++ Database.missingTables ++ " (42P01)")%string
                            eq_refl Hrec eq_refl)) _).
    exists "ERROR: ", " (42P01)". reflexivity.
  - vm_compute in Hrec. discriminate Hrec.
Defined.

Lemma service_keeps_the_store_witness :
  Database.store
    (Database.saveAnalysis Samples.someEnv 0%N Samples.acceptAll
       Samples.twoPoints Samples.twoPointsAudio) !! 3%positive
  = Some (JS.CArr [JS.VRef 1%positive; JS.VRef 2%positive]).
Proof.
  exact (proj1 (service_keeps_the_store Samples.someEnv 0%N Samples.acceptAll
                  (fun _ => JS.Throw (JS.Error "offline"))
                  Samples.twoPoints "session" Samples.twoPointsAudio 3%positive
                  (JS.CArr [JS.VRef 1%positive; JS.VRef 2%positive]) eq_refl)).
Defined.

(** ** app/components/enhanced-audio-analysis.tsx: saving from the page *)

Section ComponentMore.
Import JS Supabase Database EnhancedAudioAnalysis.
Context {num : Type} `{Num num}.

(** The page takes the database to be connected only when the variables
    are set and the probe query came back without an error. *)
Lemma checkDatabaseConnection_connected (env : Env) (probe : outcome InsertReply) :
  connected (checkDatabaseConnection env probe) = true ->
  isSupabaseAvailable env = true /\
  exists reply, probe = Ok reply /\ Database.error reply = None.
Proof.
  unfold checkDatabaseConnection. rewrite getSupabaseStatus_connected.
  unfold testConnection.
  destruct (isSupabaseAvailable env); cbn; [| discriminate].
  destruct probe as [reply | e]; cbn; [| discriminate].
  destruct (Database.error reply) as [m |] eqn:Herr; cbn.
  - destruct (includes missingTables m); discriminate.
  - intros _. split; [reflexivity |]. now exists reply.
Qed.

(** Two status lines differ when their second bytes do. *)
Ltac differ :=
  let Hs := fresh "Hs" in
  intros Hs; exfalso;
  apply (f_equal (fun x => match x with
                           | SetSaveStatus text _ => String.get 1 text
                           | _ => None
                           end)) in Hs;
  cbv in Hs; discriminate Hs.

(** X12: the page never shows the demo id as a success.  When
    [handleSaveToDatabase], run with the status [checkDatabaseConnection]
    gave, shows "Enhanced analysis saved to database successfully!", then
    the database was available, [saveAnalysis] sent one insert to
    [audio_analyses], the database answered it without an error, and the
    id it returned first is what [saveAnalysis] resolved to. *)
Theorem handleSaveToDatabase_success_is_a_stored_row
    (env : Env) (probe : outcome InsertReply) (now : N)
    (insert : AudioAnalysisRecord num -> InsertReply)
    (h : gmap loc (cell num)) (audioData : value num) (clearedAfter : N) :
  let page := handleSaveToDatabase env now insert (checkDatabaseConnection env probe)
                h audioData in
  SetSaveStatus "✅ Enhanced analysis saved to database successfully!" clearedAfter
    ∈ shown page ->
  isSupabaseAvailable env = true /\
  exists s rec id ids,
    saved page = Some s /\
    effects s = [Insert "audio_analyses" rec] /\
    Database.error (insert rec) = None /\
    data (insert rec) = Some (id :: ids) /\
    result s = Ok (VStr id) /\
    id <> "".
Proof.
  cbn zeta. unfold handleSaveToDatabase.
  destruct (get_opt h audioData "analysisResults") as [results | e].
  2: { intros Hin. now apply elem_of_nil in Hin. }
  destruct (truthy results); cbn [negb].
  2: { intros Hin. apply list_elem_of_singleton in Hin. discriminate. }
  destruct (connected (checkDatabaseConnection env probe)) eqn:Hconn; cbn [negb].
  2: { intros Hin. apply list_elem_of_singleton in Hin. discriminate. }
  destruct (checkDatabaseConnection_connected env probe Hconn) as [Hav _].
  cbn [shown saved]. intros Hin. split; [exact Hav |].
  apply elem_of_cons in Hin as [Hin | Hin]; [discriminate |].
  apply elem_of_cons in Hin as [Hin | Hin].
  2: { apply list_elem_of_singleton in Hin. discriminate. }
  revert Hin. unfold saveAnalysis. rewrite Hav. cbn [negb].
  destruct (analysisRecord h audioData) as [[h' rec] | e]; cbn [result]; [| differ].
  destruct (Database.error (insert rec)) as [m |] eqn:Herr.
  { destruct (includes missingTables m); [differ | discriminate]. }
  destruct (data (insert rec)) as [[| id ids] |] eqn:Hdata; cbn [firstId]; try differ.
  cbn [truthy]. destruct (String.eqb id "") eqn:Hid; cbn [negb]; [discriminate |].
  intros _. eexists. exists rec, id, ids.
  repeat split; try reflexivity; try assumption.
  intros ->. discriminate.
Qed.

(** X25: the page never runs the service in demo mode.  Whenever
    [handleSaveToDatabase], run with the status [checkDatabaseConnection]
    gave, comes to call [saveAnalysis], the database is available: the call
    sets no one-second timer and does send an insert, unless it rejects
    before.  With the status the page starts with, nothing is saved. *)
Theorem handleSaveToDatabase_never_saves_in_demo_mode
    (env : Env) (probe : outcome InsertReply) (now : N)
    (insert : AudioAnalysisRecord num -> InsertReply)
    (h : gmap loc (cell num)) (audioData : value num) (s : Settled num) :
  saved (handleSaveToDatabase env now insert (checkDatabaseConnection env probe) h audioData)
  = Some s ->
  isSupabaseAvailable env = true /\
  (SetTimeout 1000%N ∉ effects s) /\
  ((exists rec, effects s = [Insert "audio_analyses" rec]) \/
   (effects s = [] /\ exists e, result s = Throw e)) /\
  saved (handleSaveToDatabase env now insert initialDbStatus h audioData) = None.
Proof.
  unfold handleSaveToDatabase.
  destruct (get_opt h audioData "analysisResults") as [results | e]; [| discriminate].
  destruct (truthy results); cbn [negb]; [| discriminate].
  destruct (connected (checkDatabaseConnection env probe)) eqn:Hconn; cbn [negb];
    [| discriminate].
  destruct (checkDatabaseConnection_connected env probe Hconn) as [Hav _].
  cbn [saved]. intros [= <-]. split; [exact Hav |].
  unfold saveAnalysis. rewrite Hav. cbn [negb].
  destruct (analysisRecord h audioData) as [[h' rec] | e]; cbn [effects result].
  - split; [| split; [left; now exists rec | reflexivity]].
    intros Hin. apply list_elem_of_singleton in Hin. discriminate.
  - split; [| split; [right; split; [reflexivity | now exists e] | reflexivity]].
    intros Hin. now apply elem_of_nil in Hin.
Qed.

End ComponentMore.

Lemma handleSaveToDatabase_success_witness :
  let page :=
    EnhancedAudioAnalysis.handleSaveToDatabase Samples.someEnv 0%N Samples.acceptAll
      (EnhancedAudioAnalysis.checkDatabaseConnection Samples.someEnv
         (JS.Ok {| Database.data := Some []; Database.error := None |}))
      Samples.twoPoints Samples.twoPointsAudio in
  Supabase.isSupabaseAvailable Samples.someEnv = true /\
  exists s rec id ids,
    EnhancedAudioAnalysis.saved page = Some s /\
    Database.effects s = [Database.Insert "audio_analyses" rec] /\
    Database.error (Samples.acceptAll rec) = None /\
    Database.data (Samples.acceptAll rec) = Some (id :: ids) /\
    Database.result s = JS.Ok (JS.VStr id) /\
    id <> "".
Proof.
  refine (handleSaveToDatabase_success_is_a_stored_row Samples.someEnv
            (JS.Ok {| Database.data := Some []; Database.error := None |})
            0%N Samples.acceptAll Samples.twoPoints Samples.twoPointsAudio 3000%N _).
  apply elem_of_cons. right. apply elem_of_cons. left. vm_compute. reflexivity.
Defined.

(** ** app/components/sonar-view.tsx: clicks, zoom and rotation *)

Section SonarMore.
Import JS SonarView.
Context {num : Type} `{Num num}.

Lemma closer_picks (h : gmap loc (cell num)) (time frequency : option num)
    (nearest event v : value num) :
  closer h time frequency nearest event = Ok v -> v = event \/ v = nearest.
Proof.
  unfold closer.
  destruct (distanceTo h time frequency event) as [de |]; cbn; [| discriminate].
  destruct (distanceTo h time frequency nearest) as [dn |]; cbn; [| discriminate].
  destruct (lt_nan de dn); intros [= <-]; tauto.
Qed.

Lemma fold_closer_in (h : gmap loc (cell num)) (time frequency : option num)
    (r : list (value num)) (x v : value num) :
  fold_outcome (closer h time frequency) r x = Ok v -> v ∈ x :: r.
Proof.
  revert x. induction r as [| e r IH]; intros x; cbn.
  - intros [= <-]. apply elem_of_cons. now left.
  - destruct (closer h time frequency x e) as [x' |] eqn:Hx'; cbn; [| discriminate].
    intros Hv. apply IH in Hv. apply closer_picks in Hx'.
    apply elem_of_cons in Hv as [-> | Hv].
    + destruct Hx' as [-> | ->].
      * apply elem_of_cons. right. apply elem_of_cons. now left.
      * apply elem_of_cons. now left.
    + apply elem_of_cons. right. apply elem_of_cons. now right.
Qed.

(** A click inside the radius: the search, with the time and the frequency
    of the click. *)
Lemma handleCanvas2DClick_search
    (m : Math num) (h : gmap loc (cell num)) (audioData results d soundEvents : value num)
    (es : list (value num)) (canvas2D : Canvas num) (event : MouseEvent num)
    (selectedEvent : value num) :
  insideRadius canvas2D event = true ->
  get h audioData "analysisResults" = Ok results ->
  get h results "duration" = Ok d ->
  get h results "soundEvents" = Ok soundEvents ->
  array_of h soundEvents "reduce" = Ok es ->
  handleCanvas2DClick m h audioData canvas2D event selectedEvent
  = (nearestEvent ← reduce1 (closer h (clickTime m canvas2D event d)
                               (clickFrequency canvas2D event)) es;
     Ok (if truthy nearestEvent then nearestEvent else selectedEvent)).
Proof.
  intros Hin Hres Hd Hse Hes.
  unfold handleCanvas2DClick. cbn zeta.
  change (nsqrt _ <=? maxRadiusOf canvas2D)%num with (insideRadius canvas2D event).
  rewrite Hin, Hres. cbn. rewrite Hd. cbn. rewrite Hse. cbn. rewrite Hes. reflexivity.
Qed.

(** X13: a click selects nothing but a sound event of the analysis.  The
    selection after [handleCanvas2DClick] is the selection before it or an
    element of [audioData.analysisResults.soundEvents]. *)
Theorem handleCanvas2DClick_selects_an_event
    (m : Math num) (h : gmap loc (cell num)) (audioData : value num)
    (canvas2D : Canvas num) (event : MouseEvent num) (selectedEvent v : value num) :
  handleCanvas2DClick m h audioData canvas2D event selectedEvent = Ok v ->
  v = selectedEvent \/
  exists results soundEvents es,
    get h audioData "analysisResults" = Ok results /\
    get h results "soundEvents" = Ok soundEvents /\
    array_of h soundEvents "reduce" = Ok es /\
    v ∈ es.
Proof.
  destruct (insideRadius canvas2D event) eqn:Hin.
  2: { rewrite handleCanvas2DClick_outside by exact Hin. intros [= <-]. now left. }
  destruct (get h audioData "analysisResults") as [results | e] eqn:Hres.
  2: { unfold handleCanvas2DClick. cbn zeta.
       change (nsqrt _ <=? maxRadiusOf canvas2D)%num with (insideRadius canvas2D event).
       rewrite Hin, Hres. discriminate. }
  destruct (get h results "duration") as [d | e] eqn:Hd.
  2: { unfold handleCanvas2DClick. cbn zeta.
       change (nsqrt _ <=? maxRadiusOf canvas2D)%num with (insideRadius canvas2D event).
       rewrite Hin, Hres. cbn. rewrite Hd. discriminate. }
  destruct (get h results "soundEvents") as [soundEvents | e] eqn:Hse.
  2: { unfold handleCanvas2DClick. cbn zeta.
       change (nsqrt _ <=? maxRadiusOf canvas2D)%num with (insideRadius canvas2D event).
       rewrite Hin, Hres. cbn. rewrite Hd. cbn. rewrite Hse. discriminate. }
  destruct (array_of h soundEvents "reduce") as [es | e] eqn:Hes.
  2: { unfold handleCanvas2DClick. cbn zeta.
       change (nsqrt _ <=? maxRadiusOf canvas2D)%num with (insideRadius canvas2D event).
       rewrite Hin, Hres. cbn. rewrite Hd. cbn. rewrite Hse. cbn. rewrite Hes. discriminate. }
  rewrite (handleCanvas2DClick_search m h audioData results d soundEvents es) by assumption.
  destruct es as [| x r]; [discriminate |]. cbn [reduce1].
  destruct (fold_outcome _ r x) as [nearest |] eqn:Hfold; cbn; [| discriminate].
  destruct (truthy nearest); intros [= <-]; [| now left].
  right. exists results, soundEvents, (x :: r). repeat split; try assumption.
  exact (fold_closer_in _ _ _ _ _ _ Hfold).
Qed.

End SonarMore.

Lemma handleCanvas2DClick_selects_witness :
  (JS.VRef 2%positive : JS.value float) = JS.VNull \/
  exists results soundEvents es,
    JS.get Samples.twoEvents (JS.VRef 5%positive) "analysisResults" = JS.Ok results /\
    JS.get Samples.twoEvents results "soundEvents" = JS.Ok soundEvents /\
    JS.array_of Samples.twoEvents soundEvents "reduce" = JS.Ok es /\
    (JS.VRef 2%positive : JS.value float) ∈ es.
Proof.
  refine (handleCanvas2DClick_selects_an_event Samples.math Samples.twoEvents
            (JS.VRef 5%positive) Samples.canvas Samples.centreClick JS.VNull
            (JS.VRef 2%positive) _).
  vm_compute. reflexivity.
Defined.

(** *** Over the real numbers *)

(** The operations of [Num] at the real numbers. *)
Ltac over_reals :=
  cbv [nzero nof_Z nof_nat nadd nsub nmul ndiv nsqrt nabs neqb nltb nleb ngtb R_Num] in *.

Lemma Rltb_true (x y : R) : Rltb x y = true <-> (x < y)%R.
Proof. unfold Rltb. destruct (Rlt_dec x y); split; intros; try lra; congruence. Qed.

Lemma Rltb_not (x y : R) : Rltb x y = false <-> (y <= x)%R.
Proof. unfold Rltb. destruct (Rlt_dec x y); split; intros; try lra; congruence. Qed.

Lemma Reqb_refl (x : R) : Reqb x x = true.
Proof. unfold Reqb. now destruct (Req_dec_T x x). Qed.

Lemma min_real (a b : R) : SonarView.min a b = Rmin a b.
Proof.
  unfold SonarView.min. over_reals. rewrite Reqb_refl.
  unfold Rltb, Rmin. destruct (Rlt_dec b a), (Rle_dec a b); lra.
Qed.

Lemma max_real (a b : R) : SonarView.max a b = Rmax a b.
Proof.
  unfold SonarView.max. over_reals. rewrite Reqb_refl.
  unfold Rltb, Rmax. destruct (Rlt_dec a b), (Rle_dec a b); lra.
Qed.

(** X14: the zoom stays in range.  Whatever the wheel delivers, the zoom a
    wheel event sets lies between 0.5 and 3 in the sonar view and between
    0.3 and 3 in the spectrum view; inside the range it is the previous
    zoom less a thousandth of [deltaY]. *)
Theorem handleWheel_keeps_the_zoom_in_range (prev deltaY : R) :
  let target := (prev - deltaY / 1000)%R in
  let zoom := SonarView.handleWheel prev deltaY in
  let zoom' := EnhancedAudioAnalysis.handleWheel prev deltaY in
  (1 / 2 <= zoom <= 3)%R /\
  (3 / 10 <= zoom' <= 3)%R /\
  ((1 / 2 <= target <= 3)%R -> zoom = target) /\
  ((3 / 10 <= target <= 3)%R -> zoom' = target).
Proof.
  cbn zeta. unfold SonarView.handleWheel, EnhancedAudioAnalysis.handleWheel.
  rewrite !max_real, !min_real. over_reals.
  replace (prev + deltaY * (0 - 1 / 1000))%R with (prev - deltaY / 1000)%R by lra.
  set (target := (prev - deltaY / 1000)%R).
  unfold Rmax, Rmin.
  repeat split; try intros [Hlo Hhi];
    destruct (Rle_dec 3 target);
    repeat match goal with
           | |- context [Rle_dec ?a ?b] => destruct (Rle_dec a b)
           end; lra.
Qed.

Section Rotation.
Import SonarView.

Lemma last_cons {A} (a : A) (l : list A) (d : A) : List.last (a :: l) d = List.last l a.
Proof.
  revert a d. induction l as [| b l IH]; intros a d; [reflexivity |].
  change (List.last (b :: l) d = List.last (b :: l) a). now rewrite !IH.
Qed.

(** While the button is held, the rotation follows the pointer. *)
Lemma drag_follows (moves : list (R * R)) (d : Drag R) :
  isDragging d = true ->
  let d' := fold_left handleMouse (map (fun p => MouseMove (fst p) (snd p)) moves) d in
  isDragging d' = true /\
  (rotationY d' = rotationY d + (lastX d' - lastX d) / 100)%R /\
  (rotationX d' = rotationX d + (lastY d' - lastY d) / 100)%R /\
  lastX d' = List.last (map fst moves) (lastX d) /\
  lastY d' = List.last (map snd moves) (lastY d).
Proof.
  revert d. induction moves as [| [x y] moves IH]; intros d Hd; cbn zeta.
  - cbn. repeat split; try assumption; lra.
  - cbn [map fold_left fst snd].
    set (d1 := handleMouse d (MouseMove x y)).
    assert (Hd1 : isDragging d1 = true /\ lastX d1 = x /\ lastY d1 = y /\
                  (rotationX d1 = rotationX d + (y - lastY d) / 100)%R /\
                  (rotationY d1 = rotationY d + (x - lastX d) / 100)%R).
    { subst d1. cbn. rewrite Hd. cbn. over_reals. repeat split; lra. }
    destruct Hd1 as (Hdrag & Hx & Hy & Hrx & Hry).
    destruct (IH d1 Hdrag) as (K1 & K2 & K3 & K4 & K5).
    repeat split.
    + exact K1.
    + rewrite K2, Hry, Hx. lra.
    + rewrite K3, Hrx, Hy. lra.
    + rewrite K4, Hx. symmetry. exact (last_cons x (map fst moves) (lastX d)).
    + rewrite K5, Hy. symmetry. exact (last_cons y (map snd moves) (lastY d)).
Qed.

(** Without the button held, moving the pointer does nothing. *)
Lemma idle_moves (moves : list (R * R)) (d : Drag R) :
  isDragging d = false ->
  fold_left handleMouse (map (fun p => MouseMove (fst p) (snd p)) moves) d = d.
Proof.
  intros Hd. induction moves as [| [x y] moves IH]; cbn; [reflexivity |].
  now rewrite Hd.
Qed.

(** X15: a drag turns the view by where it ends, not by how it got there.
    From a press at [(x0, y0)] through any moves to a release at [(x, y)],
    the rotation about the vertical axis grows by [(x - x0) / 100] and the
    one about the horizontal axis by [(y - y0) / 100]; moves after the
    release change nothing. *)
Theorem drag_rotates_by_the_displacement
    (d : Drag R) (x0 y0 x y : R) (moves later : list (R * R)) :
  let move := fun p : R * R => MouseMove (fst p) (snd p) in
  let d' := fold_left handleMouse
              (MouseDown x0 y0 :: map move moves ++ MouseMove x y :: MouseUp :: map move later)
              d in
  (rotationY d' = rotationY d + (x - x0) / 100)%R /\
  (rotationX d' = rotationX d + (y - y0) / 100)%R /\
  isDragging d' = false.
Proof.
  cbn zeta. cbn [fold_left]. rewrite fold_left_app.
  set (d0 := handleMouse d (MouseDown x0 y0)).
  assert (Hd0 : isDragging d0 = true) by reflexivity.
  pose proof (drag_follows (moves ++ [(x, y)]) d0 Hd0) as Hdrag. cbn zeta in Hdrag.
  rewrite map_app, fold_left_app in Hdrag. cbn [map fold_left fst snd] in Hdrag.
  cbn [fold_left].
  set (d1 := handleMouse (fold_left handleMouse _ d0) (MouseMove x y)) in *.
  destruct Hdrag as (_ & Hry & Hrx & Hx & Hy).
  rewrite map_app in Hx, Hy. cbn [map fst snd] in Hx, Hy. rewrite last_last in Hx, Hy.
  rewrite idle_moves by reflexivity.
  cbn [handleMouse rotationX rotationY isDragging].
  rewrite Hry, Hrx, Hx, Hy. subst d0. cbn. repeat split; lra.
Qed.

End Rotation.

Section Nearest.
Import JS SonarView.

(** Only an object has a distance that is a number. *)
Lemma distanceTo_number (h : gmap loc (cell R)) (time frequency : option R)
    (e : value R) (x : R) :
  distanceTo h time frequency e = Ok (Some x) -> truthy e = true.
Proof.
  destruct e as [| | b | n | s | l]; cbn; try discriminate; try reflexivity.
  all: destruct time, frequency; discriminate.
Qed.

(** The search keeps the first of the events at the least distance seen. *)
Lemma fold_closer_least (h : gmap loc (cell R)) (time frequency : option R)
    (r : list (value R)) (x : value R) (dx : R) :
  distanceTo h time frequency x = Ok (Some dx) ->
  Forall (fun e => exists de, distanceTo h time frequency e = Ok (Some de)) r ->
  exists v dv,
    fold_outcome (closer h time frequency) r x = Ok v /\
    distanceTo h time frequency v = Ok (Some dv) /\
    (dv <= dx)%R /\
    forall e de, e ∈ r -> distanceTo h time frequency e = Ok (Some de) -> (dv <= de)%R.
Proof.
  intros Hx Hr. revert x dx Hx.
  induction Hr as [| e r [de He] _ IH]; intros x dx Hx; cbn [fold_outcome].
  - exists x, dx. repeat split; [assumption | lra |].
    intros e de Hin. now apply elem_of_nil in Hin.
  - assert (Hstep : closer h time frequency x e = Ok (if Rltb de dx then e else x)).
    { unfold closer. rewrite He, Hx. reflexivity. }
    rewrite Hstep. cbn [mbind outcome_bind].
    destruct (Rltb de dx) eqn:Hlt.
    + apply Rltb_true in Hlt.
      destruct (IH e de He) as (v & dv & Hfold & Hv & Hle & Hall).
      exists v, dv. repeat split; [assumption | assumption | lra |].
      intros e' de' Hin He'. apply elem_of_cons in Hin as [-> | Hin].
      * rewrite He in He'. injection He' as <-. exact Hle.
      * eapply Hall; eassumption.
    + apply Rltb_not in Hlt.
      destruct (IH x dx Hx) as (v & dv & Hfold & Hv & Hle & Hall).
      exists v, dv. repeat split; [assumption | assumption | lra |].
      intros e' de' Hin He'. apply elem_of_cons in Hin as [-> | Hin].
      * rewrite He in He'. injection He' as <-. lra.
      * eapply Hall; eassumption.
Qed.

(** X16: a click inside the outer ring selects a nearest event.  When
    every event has a time and a frequency that are numbers (and so has the
    duration), the click does not throw on a list that is not empty, and
    the event it selects is one of the list whose distance
    [|time - t| + |frequency - f| / 100] from the click is the least. *)
Theorem handleCanvas2DClick_selects_a_nearest_event
    (m : Math R) (h : gmap loc (cell R)) (audioData results d soundEvents : value R)
    (first : value R) (others : list (value R))
    (canvas2D : Canvas R) (event : MouseEvent R) (selectedEvent : value R) :
  insideRadius canvas2D event = true ->
  get h audioData "analysisResults" = Ok results ->
  get h results "duration" = Ok d ->
  get h results "soundEvents" = Ok soundEvents ->
  array_of h soundEvents "reduce" = Ok (first :: others) ->
  let time := clickTime m canvas2D event d in
  let frequency := clickFrequency canvas2D event in
  Forall (fun e => exists de, distanceTo h time frequency e = Ok (Some de)) (first :: others) ->
  exists v dv,
    handleCanvas2DClick m h audioData canvas2D event selectedEvent = Ok v /\
    v ∈ first :: others /\
    distanceTo h time frequency v = Ok (Some dv) /\
    forall e de, e ∈ first :: others ->
                 distanceTo h time frequency e = Ok (Some de) -> (dv <= de)%R.
Proof.
  intros Hin Hres Hd Hse Hes time frequency Hall.
  rewrite (handleCanvas2DClick_search m h audioData results d soundEvents (first :: others))
    by assumption.
  fold time frequency. clearbody time frequency. cbn [reduce1].
  apply Forall_cons in Hall as [[dx Hx] Hothers].
  destruct (fold_closer_least h time frequency others first dx Hx Hothers)
    as (v & dv & Hfold & Hv & Hle & Hleast).
  exists v, dv. rewrite Hfold. cbn. rewrite (distanceTo_number _ _ _ _ _ Hv).
  repeat split; [exact (fold_closer_in _ _ _ _ _ _ Hfold) | exact Hv |].
  intros e de He Hde. apply elem_of_cons in He as [He | He].
  - subst e. assert (Heq : Some de = Some dx) by congruence.
    injection Heq as ->. exact Hle.
  - eapply Hleast; eassumption.
Qed.

(** X17: no blip is drawn outside the outer ring.  With cosine and sine
    on the unit circle and a canvas large enough for a ring, the blip of an
    event whose frequency is a number that is not negative lies within
    [maxRadius] of the centre, also above 2000 Hz. *)
Theorem blipOf_stays_inside_the_outer_ring
    (m : Math R) (h : gmap loc (cell R)) (c : Canvas R) (d event : value R)
    (index : nat) (b : Blip R) (f x y : R) :
  (forall a, (SonarView.cos m a * SonarView.cos m a
              + SonarView.sin m a * SonarView.sin m a = 1)%R) ->
  (0 <= maxRadiusOf c)%R ->
  get h event "frequency" = Ok (VNum f) ->
  (0 <= f)%R ->
  blipOf m h c d event index = Ok b ->
  blipX b = Some x ->
  blipY b = Some y ->
  ((x - width c / 2) * (x - width c / 2) + (y - height c / 2) * (y - height c / 2)
   <= maxRadiusOf c * maxRadiusOf c)%R.
Proof.
  intros Hcircle Hring Hf Hpos. unfold blipOf. cbn zeta. rewrite Hf.
  destruct (get h event "time") as [t |]; cbn; [| discriminate].
  destruct (get h event "amplitude") as [a |]; cbn; [| discriminate].
  intros [= <-]. cbn [blipX blipY].
  change (min (width c) (height c) / 2 - 40)%R with (maxRadiusOf c).
  destruct (lift2 Rminus _ _) as [angle |]; cbn; [| discriminate].
  rewrite min_real. intros [= <-] [= <-].
  change (min (width c) (height c) / 2 - 40)%R with (maxRadiusOf c).
  set (R0 := maxRadiusOf c) in *.
  set (dist := Rmin (f / 2000 * R0) R0).
  assert (Hdist : (0 <= dist <= R0)%R).
  { subst dist. unfold Rmin. destruct (Rle_dec _ _); split; try lra.
    apply Rmult_le_pos; lra. }
  specialize (Hcircle angle).
  set (cs := SonarView.cos m angle) in *. set (sn := SonarView.sin m angle) in *.
  assert (Hkey : ((cs * dist) * (cs * dist) + (sn * dist) * (sn * dist) = dist * dist)%R).
  { replace ((cs * dist) * (cs * dist) + (sn * dist) * (sn * dist))%R
      with ((cs * cs + sn * sn) * (dist * dist))%R by ring.
    rewrite Hcircle. ring. }
  assert (Hsq : (dist * dist <= R0 * R0)%R) by nra.
  match goal with
  | |- (?lhs <= _)%R =>
      replace lhs with ((cs * dist) * (cs * dist) + (sn * dist) * (sn * dist))%R
        by (unfold Rdiv; ring)
  end.
  lra.
Qed.

End Nearest.

Lemma centreClick_inside : SonarView.insideRadius Samples.canvasR Samples.centreClickR = true.
Proof.
  unfold SonarView.insideRadius, SonarView.clickDistance, SonarView.maxRadiusOf. cbn.
  rewrite min_real. unfold Rleb.
  destruct (Rle_dec _ _) as [Hle | Hgt]; [reflexivity |]. exfalso. apply Hgt.
  replace ((300 - 0 - 600 / 2) * (300 - 0 - 600 / 2)
           + (200 - 0 - 400 / 2) * (200 - 0 - 400 / 2))%R with 0%R by lra.
  rewrite sqrt_0. unfold Rmin. destruct (Rle_dec 600 400); lra.
Qed.

Lemma canvasR_ring : (0 <= SonarView.maxRadiusOf Samples.canvasR)%R.
Proof.
  unfold SonarView.maxRadiusOf. cbn. rewrite min_real.
  unfold Rmin. destruct (Rle_dec 600 400); lra.
Qed.

Lemma handleCanvas2DClick_nearest_witness :
  let time := SonarView.clickTime Samples.mathR Samples.canvasR Samples.centreClickR
                (JS.VNum 4%R) in
  let frequency := SonarView.clickFrequency Samples.canvasR Samples.centreClickR in
  exists v dv,
    SonarView.handleCanvas2DClick Samples.mathR Samples.twoEvents (JS.VRef 5%positive)
      Samples.canvasR Samples.centreClickR JS.VNull = JS.Ok v /\
    v ∈ [JS.VRef 1%positive; JS.VRef 2%positive] /\
    SonarView.distanceTo Samples.twoEvents time frequency v = JS.Ok (Some dv) /\
    forall e de, e ∈ [JS.VRef 1%positive; JS.VRef 2%positive] ->
                 SonarView.distanceTo Samples.twoEvents time frequency e = JS.Ok (Some de) ->
                 (dv <= de)%R.
Proof.
  refine (handleCanvas2DClick_selects_a_nearest_event Samples.mathR Samples.twoEvents
            (JS.VRef 5%positive) (JS.VRef 4%positive) (JS.VNum 4%R) (JS.VRef 3%positive)
            (JS.VRef 1%positive) [JS.VRef 2%positive]
            Samples.canvasR Samples.centreClickR JS.VNull
            centreClick_inside eq_refl eq_refl eq_refl eq_refl _).
  repeat constructor; eexists; reflexivity.
Defined.

Lemma blipOf_witness :
  exists b x y,
    SonarView.blipOf Samples.mathR Samples.twoEvents Samples.canvasR (JS.VNum 4%R)
      (JS.VRef 1%positive) 0 = JS.Ok b /\
    SonarView.blipX b = Some x /\
    SonarView.blipY b = Some y /\
    ((x - 600 / 2) * (x - 600 / 2) + (y - 400 / 2) * (y - 400 / 2)
     <= SonarView.maxRadiusOf Samples.canvasR * SonarView.maxRadiusOf Samples.canvasR)%R.
Proof.
  eexists _, _, _.
  split; [reflexivity |]. split; [reflexivity |]. split; [reflexivity |].
  refine (blipOf_stays_inside_the_outer_ring Samples.mathR Samples.twoEvents Samples.canvasR
            (JS.VNum 4%R) (JS.VRef 1%positive) 0 _ 3000%R _ _
            _ canvasR_ring eq_refl _ eq_refl eq_refl eq_refl).
  - intros a. cbn. pose proof (sin2_cos2 a) as Hsc. unfold Rsqr in Hsc. lra.
  - lra.
Defined.

(** ** lib/pdf-generator.ts: the report *)

Section PdfMore.
Import JS PdfGenerator.
Context {num : Type} `{Num num}.

Lemma mapi_from_length {A} (f : value num -> nat -> outcome A) (l : list (value num))
    (i : nat) (ys : list A) :
  mapi_from i f l = Ok ys -> length ys = length l.
Proof.
  revert i ys. induction l as [| x l IH]; intros i ys; cbn.
  - now intros [= <-].
  - destruct (f x i) as [y |]; cbn; [| discriminate].
    destruct (mapi_from (S i) f l) as [ys' |] eqn:Hys; cbn; [| discriminate].
    intros [= <-]. cbn. f_equal. exact (IH _ _ Hys).
Qed.

(** What [get] answers with a reference is a property of an object. *)
Lemma get_ref (h : gmap loc (cell num)) (v : value num) (f : string) (r : loc) :
  get h v f = Ok (VRef r) ->
  exists x fields, v = VRef x /\ h !! x = Some (CObj fields) /\ fields !! f = Some (VRef r).
Proof.
  destruct v as [| | b | n | s | x]; cbn; try discriminate.
  - destruct (String.eqb f "length"); discriminate.
  - destruct (h !! x) as [[es | fields] |] eqn:Hx; cbn.
    + destruct (String.eqb f "length"); discriminate.
    + destruct (fields !! f) as [v |] eqn:Hf; cbn; [| discriminate].
      intros [= ->]. eauto.
    + discriminate.
Qed.

(** Replacing an array by an array of the same length changes no property
    read, whatever the object. *)
Lemma get_insert_array (h : gmap loc (cell num)) (l : loc) (es es' : list (value num))
    (v : value num) (f : string) :
  h !! l = Some (CArr es) -> length es' = length es ->
  get (<[l := CArr es']> h) v f = get h v f.
Proof.
  intros Hl Hlen. destruct v as [| | b | n | s | x]; cbn; try reflexivity.
  destruct (decide (x = l)) as [-> | Hne].
  - rewrite lookup_insert_eq, Hl, Hlen. reflexivity.
  - now rewrite lookup_insert_ne by congruence.
Qed.

(** X18: a file without a [name] gets no report.  When [audioData] has no
    [name] property, [generatePDFReport] always throws, also after it has
    drawn every page: the file name of the document is computed last, with
    [audioData.name.replace]. *)
Theorem generatePDFReport_needs_a_name
    (h : gmap loc (cell num)) (la : loc) (audio : gmap string (value num)) :
  h !! la = Some (CObj audio) ->
  audio !! "name" = None ->
  exists e, snd (generatePDFReport h (VRef la)) = Throw e.
Proof.
  intros Hla Hname.
  assert (Hlast : forall h' results,
            h' !! la = Some (CObj audio) ->
            exists e, lastPages h' (VRef la) results = Throw e).
  { intros h' results Hla'. unfold lastPages.
    destruct (generateStatisticalAnalysis h' results); cbn; [| eauto].
    destruct (generateDetailedConclusions h' results); cbn; [| eauto].
    destruct (techSpecs h' results); cbn; [| eauto].
    unfold reportName. cbn. rewrite Hla'. cbn. rewrite Hname. cbn. eauto. }
  unfold generatePDFReport.
  destruct (get h (VRef la) "analysisResults") as [results | e]; [| cbn; eauto].
  destruct (negb (truthy results)); [cbn; eauto |].
  destruct (firstPages h (VRef la) results) as [d1 | e]; [| cbn; eauto].
  destruct (frequencyAnalysis h results) as [h' [d2 | e]] eqn:Hf; [| cbn; eauto].
  assert (Hla' : h' !! la = Some (CObj audio)).
  { destruct (frequencyAnalysis_store _ _ _ _ Hf) as [-> | (l & es & es' & _ & Hl & -> & _)];
      [exact Hla |].
    rewrite lookup_insert_ne; [exact Hla |]. intros ->. rewrite Hl in Hla. discriminate. }
  destruct (Hlast h' results Hla') as [e ->]. cbn. eauto.
Qed.

Lemma plain_append_dot (s t : string) : plain (s ++ "." ++ t) = false.
Proof.
  induction s as [| c s IH].
  - reflexivity.
  - change (String c s ++ "." ++ t)%string with (String c (s ++ "." ++ t)).
    cbn [plain]. rewrite IH. apply andb_false_r.
Qed.

Lemma stripExtension_append (base ext : string) :
  plain ext = true -> ext <> "" ->
  stripExtension (base ++ "." ++ ext) = base.
Proof.
  intros Hplain Hext. induction base as [| c base IH].
  - change ("" ++ "." ++ ext)%string with (String "."%char ext). cbn.
    rewrite Hplain. destruct ext; [contradiction | reflexivity].
  - change (String c base ++ "." ++ ext)%string with (String c (base ++ "." ++ ext)).
    cbn [stripExtension]. rewrite plain_append_dot, andb_false_r, IH. reflexivity.
Qed.

(** X19: the name of the document drops the extension of the file name,
    and only the last one: for a file [base.ext], whose [ext] is not empty
    and has no dot and no slash, it is [Audio_Forensic_Report_base_]
    (followed by the date), whatever [base] holds. *)
Theorem reportName_drops_the_extension
    (h : gmap loc (cell num)) (audioData : value num) (base ext : string) :
  plain ext = true -> ext <> "" ->
  get h audioData "name" = Ok (VStr (base ++ "." ++ ext)) ->
  reportName h audioData = Ok ("Audio_Forensic_Report_" ++ base ++ "_")%string.
Proof.
  intros Hplain Hext Hname. unfold reportName. rewrite Hname. cbn.
  now rewrite stripExtension_append.
Qed.

(** X20: the tables are cut where the source says, each on its own.
    Whenever the sound events table is drawn, it has one row for each of
    the first 15 events; whenever the frequency table is drawn, it has one
    row for each of the 10 strongest components.  Neither bound needs the
    other table. *)
Theorem tables_are_bounded (h : gmap loc (cell num)) (results : value num) :
  (forall events head body,
     soundEventsTable h results = Ok events ->
     Table head body ∈ events ->
     exists soundEvents es,
       get h results "soundEvents" = Ok soundEvents /\
       array_of h soundEvents "slice" = Ok es /\
       length body = Nat.min 15 (length es)) /\
  (forall h' frequencies head body,
     frequencyAnalysis h results = (h', Ok frequencies) ->
     Table head body ∈ frequencies ->
     exists l es,
       get h results "frequencySpectrum" = Ok (VRef l) /\
       h !! l = Some (CArr es) /\
       length body = Nat.min 10 (length es)).
Proof.
  split.
  - intros events head body Hev Hin. revert Hev. unfold soundEventsTable.
    destruct (get h results "soundEvents") as [se |]; cbn; [| discriminate].
    destruct (nonempty h se) as [[|] |]; cbn; try discriminate.
    + destruct (array_of h se "slice") as [es |] eqn:Hes; cbn; [| discriminate].
      destruct (mapi (soundEventRow h) (take 15 es)) as [rows |] eqn:Hrows; cbn;
        [| discriminate].
      intros [= <-].
      apply elem_of_cons in Hin as [Hin | Hin]; [discriminate |].
      apply list_elem_of_singleton in Hin. injection Hin as _ ->.
      exists se, es. repeat split; try reflexivity; try assumption.
      apply mapi_from_length in Hrows. rewrite Hrows, length_take. reflexivity.
    + intros [= <-].
      apply elem_of_cons in Hin as [Hin | Hin]; [discriminate |].
      apply list_elem_of_singleton in Hin. discriminate.
  - intros h' frequencies head body Hfr Hin. revert Hfr. unfold frequencyAnalysis.
    destruct (get h results "frequencySpectrum") as [fs |]; cbn; [| discriminate].
    destruct (nonempty h fs) as [[|] |]; cbn; try discriminate.
    2: { intros [= _ <-].
         apply elem_of_cons in Hin as [Hin | Hin]; [discriminate |].
         apply list_elem_of_singleton in Hin. discriminate. }
    destruct fs as [| | b | n | s | l]; cbn [array_of]; try discriminate.
    destruct (h !! l) as [[es | fields] |] eqn:Hl; try discriminate.
    destruct (mapi (magnitudeKey h) es) as [keyed |] eqn:Hk; [| discriminate].
    set (sorted := map fst (stable_sort after keyed)).
    destruct (mapi _ (take 10 sorted)) as [rows |] eqn:Hrows; cbn; [| discriminate].
    intros [= _ <-].
    apply elem_of_cons in Hin as [Hin | Hin]; [discriminate |].
    apply elem_of_cons in Hin as [Hin | Hin]; [discriminate |].
    apply elem_of_cons in Hin as [Hin | Hin]; [discriminate |].
    apply list_elem_of_singleton in Hin. injection Hin as _ ->.
    exists l, es. repeat split; try reflexivity; try assumption.
    apply mapi_from_length in Hrows. rewrite Hrows, length_take. subst sorted.
    rewrite length_map.
    rewrite (Permutation_length (stable_sort_perm after keyed)).
    apply mapi_from_length in Hk. now rewrite Hk.
Qed.

End PdfMore.

Lemma generatePDFReport_needs_a_name_witness :
  exists e,
    snd (PdfGenerator.generatePDFReport
           (<[6%positive := JS.CObj (<["analysisResults" := JS.VRef 5%positive]> ∅)]>
              Samples.twoPoints)
           (JS.VRef 6%positive))
    = JS.Throw e.
Proof.
  exact (generatePDFReport_needs_a_name
           (<[6%positive := JS.CObj (<["analysisResults" := JS.VRef 5%positive]> ∅)]>
              Samples.twoPoints)
           6%positive (<["analysisResults" := JS.VRef 5%positive]> ∅) eq_refl eq_refl).
Defined.

Lemma reportName_witness :
  PdfGenerator.reportName Samples.twoPoints Samples.twoPointsAudio
  = JS.Ok ("Audio_Forensic_Report_" ++ "a" ++ "_")%string.
Proof.
  refine (reportName_drops_the_extension Samples.twoPoints Samples.twoPointsAudio
            "a" "wav" eq_refl _ eq_refl).
  discriminate.
Defined.

Lemma tables_witness :
  (exists body : list (list (PdfGenerator.Cell float)),
     exists soundEvents es,
       JS.get (num:=float) Samples.twoEvents (JS.VRef 4%positive) "soundEvents"
       = JS.Ok soundEvents /\
       JS.array_of (num:=float) Samples.twoEvents soundEvents "slice" = JS.Ok es /\
       length body = Nat.min 15 (length es)) /\
  (exists body : list (list (PdfGenerator.Cell float)),
     exists l es,
       JS.get Samples.twoPoints (JS.VRef 5%positive) "frequencySpectrum"
       = JS.Ok (JS.VRef l) /\
       Samples.twoPoints !! l = Some (JS.CArr es) /\
       length body = Nat.min 10 (length es)).
Proof.
  split.
  - destruct (PdfGenerator.soundEventsTable (num:=float) Samples.twoEvents
                (JS.VRef 4%positive)) as [events | e] eqn:Hev.
    2: { vm_compute in Hev. discriminate Hev. }
    pose proof Hev as Hev'. vm_compute in Hev'. injection Hev' as <-.
    eexists.
    refine (proj1 (tables_are_bounded Samples.twoEvents (JS.VRef 4%positive))
              _ _ _ Hev _).
    apply (list_elem_of_lookup_2 _ 1%nat). reflexivity.
  - destruct (PdfGenerator.frequencyAnalysis Samples.twoPoints (JS.VRef 5%positive))
      as [h' [frequencies | e]] eqn:Hfr.
    2: { vm_compute in Hfr. discriminate Hfr. }
    pose proof Hfr as Hfr'. vm_compute in Hfr'. injection Hfr' as _ <-.
    eexists.
    refine (proj2 (tables_are_bounded Samples.twoPoints (JS.VRef 5%positive))
              h' _ _ _ Hfr _).
    apply (list_elem_of_lookup_2 _ 3%nat). reflexivity.
Defined.

Section PdfStore.
Import JS PdfGenerator.
Context {num : Type} `{Num num}.

(** X21: the report touches one array at most.  After
    [generatePDFReport], whether it returned or threw, every cell of the
    store is as it was, except that the array behind
    [audioData.analysisResults.frequencySpectrum] may hold its elements in
    another order; no element is lost, added or replaced. *)
Theorem generatePDFReport_only_rearranges_the_spectrum
    (h h' : gmap loc (cell num)) (audioData : value num) (out : outcome (list (Draw num))) :
  generatePDFReport h audioData = (h', out) ->
  dom h' = dom h /\
  forall l,
    h' !! l = h !! l \/
    exists results es es',
      get h audioData "analysisResults" = Ok results /\
      get h results "frequencySpectrum" = Ok (VRef l) /\
      h !! l = Some (CArr es) /\
      h' !! l = Some (CArr es') /\
      Permutation es es'.
Proof.
  intros Hgen.
  destruct (generatePDFReport_store _ _ _ _ Hgen)
    as [-> | (results & ls & es & es' & Hres & Hfs & Hls & -> & Hperm)].
  - split; [reflexivity |]. intros l. now left.
  - split.
    + apply dom_insert_lookup_L. now rewrite Hls.
    + intros l. destruct (decide (l = ls)) as [-> | Hne].
      * right. exists results, es, es'. rewrite lookup_insert_eq.
        repeat split; assumption.
      * left. now apply lookup_insert_ne.
Qed.

End PdfStore.

Lemma generatePDFReport_store_witness :
  let after := PdfGenerator.generatePDFReport Samples.twoPoints Samples.twoPointsAudio in
  dom (fst after) = dom Samples.twoPoints /\
  forall l,
    fst after !! l = Samples.twoPoints !! l \/
    exists results es es',
      JS.get Samples.twoPoints Samples.twoPointsAudio "analysisResults" = JS.Ok results /\
      JS.get Samples.twoPoints results "frequencySpectrum" = JS.Ok (JS.VRef l) /\
      Samples.twoPoints !! l = Some (JS.CArr es) /\
      fst after !! l = Some (JS.CArr es') /\
      Permutation es es'.
Proof.
  exact (generatePDFReport_only_rearranges_the_spectrum Samples.twoPoints _
           Samples.twoPointsAudio _ (surjective_pairing _)).
Defined.

(** X22: a missing frequency is printed as 0 Hz and classified as 440 Hz.
    In the sound events table and in the frequency table, a row whose
    [frequency] is absent, [null] or 0 shows "0 Hz" in the frequency
    column and "Low-Mid", the band of the other default, 440 Hz, in the
    classification column. *)
Theorem rows_default_the_frequency_twice
    (h : gmap JS.loc (JS.cell float)) (item f : JS.value float) (index : nat)
    (eventRow frequencyRow : list (PdfGenerator.Cell float)) :
  JS.get h item "frequency" = JS.Ok f ->
  JS.truthy f = false ->
  PdfGenerator.soundEventRow h item index = JS.Ok eventRow ->
  PdfGenerator.frequencyRow h item index = JS.Ok frequencyRow ->
  eventRow !! 3%nat = Some (PdfGenerator.Shown (JS.VNum 0%float) " Hz") /\
  eventRow !! 6%nat = Some (PdfGenerator.Text "Low-Mid") /\
  frequencyRow !! 1%nat = Some (PdfGenerator.Shown (JS.VNum 0%float) " Hz") /\
  frequencyRow !! 4%nat = Some (PdfGenerator.Text "Low-Mid").
Proof.
  intros Hf Hfalsy.
  unfold PdfGenerator.soundEventRow, PdfGenerator.frequencyRow,
    PdfGenerator.shown, PdfGenerator.number_or.
  rewrite Hf.
  destruct (JS.get h item "time") as [t |]; cbn; [| discriminate].
  destruct (JS.get h item "type") as [ty |]; cbn; [| discriminate].
  destruct (JS.get h item "amplitude") as [a |]; cbn; [| discriminate].
  destruct (JS.get h item "decibels") as [db |]; cbn; [| discriminate].
  destruct (JS.get h item "magnitude") as [mg |]; cbn; [| discriminate].
  unfold JS.or_else. rewrite Hfalsy.
  intros [= <-] [= <-]. repeat split.
Qed.

Lemma rows_default_witness :
  let h : gmap JS.loc (JS.cell float) :=
    <[1%positive := JS.CObj (<["time" := JS.VNum 1%float]> ∅)]> ∅ in
  exists eventRow frequencyRow,
    PdfGenerator.soundEventRow h (JS.VRef 1%positive) 0 = JS.Ok eventRow /\
    PdfGenerator.frequencyRow h (JS.VRef 1%positive) 0 = JS.Ok frequencyRow /\
    eventRow !! 3%nat = Some (PdfGenerator.Shown (JS.VNum 0%float) " Hz") /\
    eventRow !! 6%nat = Some (PdfGenerator.Text "Low-Mid") /\
    frequencyRow !! 1%nat = Some (PdfGenerator.Shown (JS.VNum 0%float) " Hz") /\
    frequencyRow !! 4%nat = Some (PdfGenerator.Text "Low-Mid").
Proof.
  intros h.
  destruct (PdfGenerator.soundEventRow h (JS.VRef 1%positive) 0) as [eventRow | e] eqn:Hev.
  2: { vm_compute in Hev. discriminate Hev. }
  destruct (PdfGenerator.frequencyRow h (JS.VRef 1%positive) 0) as [frequencyRow | e] eqn:Hfr.
  2: { vm_compute in Hfr. discriminate Hfr. }
  exists eventRow, frequencyRow.
  split; [reflexivity |]. split; [reflexivity |].
  exact (rows_default_the_frequency_twice h (JS.VRef 1%positive) JS.VUndef 0
           eventRow frequencyRow eq_refl eq_refl Hev Hfr).
Defined.

(** *** The sort *)

Section Sorting.
Import JS.
Context {A : Type} (cmp : A -> A -> bool).

(** [a] may stand before [b]: the comparator does not put it after. *)
Local Notation "a '≼' b" := (cmp a b = false) (at level 70).

Hypothesis asym : forall a b, cmp a b = true -> cmp b a = false.

Lemma insert_sorted_HdRel (y x : A) (l : list A) :
  y ≼ x -> HdRel (fun a b => a ≼ b) y l ->
  HdRel (fun a b => a ≼ b) y (insert_sorted cmp x l).
Proof.
  intros Hyx Hy. destruct l as [| a l]; cbn.
  - now constructor.
  - destruct (cmp x a); constructor; [now inversion Hy | exact Hyx].
Qed.

Lemma insert_sorted_Sorted (x : A) (l : list A) :
  Sorted (fun a b => a ≼ b) l -> Sorted (fun a b => a ≼ b) (insert_sorted cmp x l).
Proof using asym.
  induction 1 as [| a l Hl IH Ha]; cbn.
  - repeat constructor.
  - destruct (cmp x a) eqn:Hxa.
    + constructor; [exact IH |]. apply insert_sorted_HdRel; [now apply asym | exact Ha].
    + constructor; [now constructor | now constructor].
Qed.

(** What [sort] leaves is in order. *)
Lemma stable_sort_Sorted (l : list A) : Sorted (fun a b => a ≼ b) (stable_sort cmp l).
Proof using asym.
  induction l as [| x l IH]; cbn; [constructor |]. now apply insert_sorted_Sorted.
Qed.

(** [sort] leaves a list in order as it is. *)
Lemma stable_sort_fixed (l : list A) :
  Sorted (fun a b => a ≼ b) l -> stable_sort cmp l = l.
Proof.
  induction 1 as [| a l Hl IH Ha]; cbn; [reflexivity |].
  rewrite IH. destruct Ha as [| b l Hab]; cbn; [reflexivity |]. now rewrite Hab.
Qed.

End Sorting.

Section PdfSort.
Import JS PdfGenerator.
Context {num : Type} `{Num num}.

(** The keys [sort] compares are those of the elements. *)
Lemma magnitudeKey_keys (h : gmap loc (cell num)) (es : list (value num)) (i : nat)
    (keyed : list (value num * option num)) :
  mapi_from i (magnitudeKey h) es = Ok keyed ->
  Forall (fun p => number_or h (fst p) "magnitude" 0 = Ok (snd p)) keyed.
Proof.
  revert i keyed. induction es as [| e es IH]; intros i keyed; cbn.
  - intros [= <-]. constructor.
  - destruct (magnitudeKey h e i) as [pk | err] eqn:Hpk; cbn; [| discriminate].
    destruct (mapi_from (S i) (magnitudeKey h) es) as [ks | err] eqn:E; cbn; [| discriminate].
    intros [= <-]. constructor; [| exact (IH _ _ E)].
    unfold magnitudeKey in Hpk.
    destruct (number_or h e "magnitude" 0) as [k |] eqn:Hk; cbn in Hpk; [| discriminate].
    injection Hpk as <-. exact Hk.
Qed.

Lemma magnitudeKey_again (h : gmap loc (cell num)) (ps : list (value num * option num))
    (i : nat) :
  Forall (fun p => number_or h (fst p) "magnitude" 0 = Ok (snd p)) ps ->
  mapi_from i (magnitudeKey h) (map fst ps) = Ok ps.
Proof.
  intros Hps. revert i. induction Hps as [| [e k] ps Hp _ IH]; intros i.
  - reflexivity.
  - cbn [map mapi_from fst snd] in *.
    assert (Hstep : magnitudeKey h e i = Ok (e, k)).
    { unfold magnitudeKey. now rewrite Hp. }
    rewrite Hstep. cbn. now rewrite IH.
Qed.

(** The frequency section, by what it does to the store. *)
Lemma frequencyAnalysis_exact (h h' : gmap loc (cell num)) (results : value num)
    (out : outcome (list (Draw num))) :
  frequencyAnalysis h results = (h', out) ->
  (h' = h /\
   forall l, get h results "frequencySpectrum" = Ok (VRef l) ->
             nonempty h (VRef l) = Ok true ->
             is_Some (h !! l) ->
             exists e, out = Throw e) \/
  exists l es keyed,
    get h results "frequencySpectrum" = Ok (VRef l) /\
    h !! l = Some (CArr es) /\
    mapi (magnitudeKey h) es = Ok keyed /\
    h' = <[l := CArr (map fst (stable_sort after keyed))]> h.
Proof.
  unfold frequencyAnalysis.
  destruct (get h results "frequencySpectrum") as [fs | err].
  2: { intros [= <- <-]. left. split; [reflexivity | discriminate]. }
  destruct (nonempty h fs) as [[|] | err] eqn:Hne.
  2: { intros [= <- <-]. left. split; [reflexivity |]. intros l [= ->]. congruence. }
  2: { intros [= <- <-]. left. split; [reflexivity |]. intros l [= ->]. congruence. }
  destruct fs as [| | b | n | s | l]; cbn [array_of];
    try (intros [= <- <-]; left; split; [reflexivity | discriminate]).
  destruct (h !! l) as [[es | fields] |] eqn:Hl.
  - destruct (mapi (magnitudeKey h) es) as [keyed | err] eqn:Hk.
    + intros [= <- _]. right. now exists l, es, keyed.
    + intros [= <- <-]. left. split; [reflexivity |]. eauto.
  - intros [= <- <-]. left. split; [reflexivity |]. eauto.
  - intros [= <- <-]. left. split; [reflexivity |]. eauto.
Qed.

(** [generatePDFReport], by what it does to the store. *)
Lemma generatePDFReport_exact (h h' : gmap loc (cell num)) (audioData : value num)
    (out : outcome (list (Draw num))) :
  generatePDFReport h audioData = (h', out) ->
  (h' = h /\
   forall results l,
     get h audioData "analysisResults" = Ok results ->
     get h results "frequencySpectrum" = Ok (VRef l) ->
     nonempty h (VRef l) = Ok true ->
     is_Some (h !! l) ->
     exists e, out = Throw e) \/
  exists results l es keyed,
    get h audioData "analysisResults" = Ok results /\
    get h results "frequencySpectrum" = Ok (VRef l) /\
    h !! l = Some (CArr es) /\
    mapi (magnitudeKey h) es = Ok keyed /\
    h' = <[l := CArr (map fst (stable_sort after keyed))]> h.
Proof.
  unfold generatePDFReport.
  destruct (get h audioData "analysisResults") as [results | err].
  2: { intros [= <- <-]. left. split; [reflexivity | discriminate]. }
  destruct (negb (truthy results)).
  { intros [= <- <-]. left. split; [reflexivity | eauto]. }
  destruct (firstPages h audioData results) as [d1 | err].
  2: { intros [= <- <-]. left. split; [reflexivity | eauto]. }
  destruct (frequencyAnalysis h results) as [h1 out1] eqn:Hf.
  intros Hgen.
  assert (Hh' : h' = h1).
  { destruct out1 as [d2 | err]; [| now inversion Hgen].
    destruct (lastPages h1 audioData results); now inversion Hgen. }
  subst h1.
  destruct (frequencyAnalysis_exact _ _ _ _ Hf)
    as [[-> Hthrow] | (l & es & keyed & Hfs & Hl & Hk & ->)].
  - left. split; [reflexivity |]. intros results' l [= <-] Hfs Hne Hl.
    destruct (Hthrow l Hfs Hne Hl) as [e ->]. cbn in Hgen. injection Hgen as <-. eauto.
  - right. now exists results, l, es, keyed.
Qed.

End PdfSort.

Section PdfSortReal.
Import JS PdfGenerator.

Lemma after_asym (a b : value R * option R) : after a b = true -> after b a = false.
Proof.
  unfold after. destruct a as [va [ka |]], b as [vb [kb |]]; cbn; try discriminate;
    try reflexivity.
  intros Hlt. apply Rltb_true in Hlt. apply Rltb_not. lra.
Qed.

Lemma after_false (a b : value R * option R) (ka kb : R) :
  snd a = Some ka -> snd b = Some kb -> after a b = false -> (kb <= ka)%R.
Proof.
  unfold after. intros -> ->. cbn. intros Hge. apply Rltb_not in Hge. lra.
Qed.

(** Over the real numbers an array is empty when [length > 0] fails. *)
Lemma nonempty_array (h : gmap loc (cell R)) (l : loc) (es : list (value R)) :
  h !! l = Some (CArr es) ->
  nonempty h (VRef l) = Ok (negb (Nat.eqb (length es) 0)).
Proof.
  intros Hl. unfold nonempty. cbn. rewrite Hl. cbn. f_equal.
  unfold gt_value, ngtb. cbn. destruct es as [| e es]; cbn [length Nat.eqb negb].
  - apply Rltb_not. change (Z.of_nat 0) with 0%Z. lra.
  - apply Rltb_true. apply (IZR_lt 0). lia.
Qed.

Lemma sorted_keys (ps : list (value R * option R)) :
  Sorted (fun a b => after a b = false) ps ->
  Forall (fun p => is_Some (snd p)) ps ->
  Sorted (fun x y => (y <= x)%R) (map (fun p => default 0%R (snd p)) ps).
Proof.
  induction 1 as [| a ps Hps IH Ha]; intros Hall; cbn; constructor.
  - apply IH. now apply Forall_inv_tail in Hall.
  - destruct Ha as [| b ps Hab]; cbn; constructor.
    apply Forall_cons in Hall as [[ka Hka] Hall].
    apply Forall_cons in Hall as [[kb Hkb] _].
    rewrite Hka, Hkb. cbn. exact (after_false a b ka kb Hka Hkb Hab).
Qed.

Lemma keys_Forall2 (h : gmap loc (cell R)) (ps : list (value R * option R)) :
  Forall (fun p => number_or h (fst p) "magnitude" 0 = Ok (snd p) /\ is_Some (snd p)) ps ->
  Forall2 (fun e k => number_or h e "magnitude" 0 = Ok (Some k))
    (map fst ps) (map (fun p => default 0%R (snd p)) ps).
Proof.
  induction 1 as [| [e k] ps [Hp [k' Hk]] _ IH]; cbn; constructor; [| exact IH].
  cbn in *. now rewrite Hp, Hk.
Qed.

Lemma keys_numeric (h : gmap loc (cell R)) (keyed : list (value R * option R)) :
  Forall (fun p => number_or h (fst p) "magnitude" 0 = Ok (snd p)) keyed ->
  Forall (fun e => exists k, number_or h e "magnitude" 0 = Ok (Some k)) (map fst keyed) ->
  Forall (fun p => number_or h (fst p) "magnitude" 0 = Ok (snd p) /\ is_Some (snd p)) keyed.
Proof.
  induction 1 as [| p ps Hp _ IH]; intros Hnum; [constructor |].
  cbn in Hnum. apply Forall_cons in Hnum as [[k Hpk] Hnum].
  constructor; [| exact (IH Hnum)].
  split; [exact Hp |]. exists k. congruence.
Qed.

(** X23: unless the report fails before it comes to the frequency section,
    the spectrum is left sorted.  When every magnitude is a number, the
    array behind [audioData.analysisResults.frequencySpectrum] holds the
    same points after [generatePDFReport] as before, in descending order of
    magnitude, also when the report fails later on. *)
Theorem generatePDFReport_sorts_the_spectrum
    (h : gmap loc (cell R)) (audioData results : value R) (l : loc)
    (es : list (value R)) :
  get h audioData "analysisResults" = Ok results ->
  get h results "frequencySpectrum" = Ok (VRef l) ->
  h !! l = Some (CArr es) ->
  Forall (fun e => exists k, number_or h e "magnitude" 0 = Ok (Some k)) es ->
  let after_call := generatePDFReport h audioData in
  (fst after_call = h /\ exists e, snd after_call = Throw e) \/
  exists es' keys,
    fst after_call !! l = Some (CArr es') /\
    Permutation es es' /\
    Forall2 (fun e k => number_or h e "magnitude" 0 = Ok (Some k)) es' keys /\
    StronglySorted (fun x y => (y <= x)%R) keys.
Proof.
  intros Hres Hfs Hl Hnum. cbn zeta.
  destruct (generatePDFReport h audioData) as [h' out] eqn:Hgen. cbn [fst snd].
  destruct (generatePDFReport_exact _ _ _ _ Hgen)
    as [[-> Hthrow] | (results' & l' & es0 & keyed & Hres' & Hfs' & Hl' & Hk & ->)].
  - pose proof (nonempty_array h l es Hl) as Hne.
    destruct es as [| e es].
    + right. exists [], []. repeat split; try constructor. exact Hl.
    + left. split; [reflexivity |]. apply (Hthrow results l Hres Hfs Hne). now rewrite Hl.
  - rewrite Hres in Hres'. injection Hres' as <-.
    rewrite Hfs in Hfs'. injection Hfs' as <-.
    rewrite Hl in Hl'. injection Hl' as <-.
    right.
    pose proof (magnitudeKey_fst _ _ _ _ Hk) as Hfst.
    pose proof (magnitudeKey_keys _ _ _ _ Hk) as Hkeys.
    assert (Hall : Forall (fun p => number_or h (fst p) "magnitude" 0 = Ok (snd p) /\
                                    is_Some (snd p)) (stable_sort after keyed)).
    { rewrite (stable_sort_perm after keyed).
      rewrite <- Hfst in Hnum. exact (keys_numeric h keyed Hkeys Hnum). }
    exists (map fst (stable_sort after keyed)),
      (map (fun p => default 0%R (snd p)) (stable_sort after keyed)).
    split; [apply lookup_insert_eq |]. split.
    { rewrite <- Hfst at 1. apply Permutation_map. symmetry. apply stable_sort_perm. }
    split; [exact (keys_Forall2 h _ Hall) |].
    apply Sorted_StronglySorted.
    { intros x y z Hxy Hyz. lra. }
    apply sorted_keys.
    + apply stable_sort_Sorted. exact after_asym.
    + eapply Forall_impl; [exact Hall |]. now intros p [_ Hp].
Qed.

Lemma mapi_from_ext {B} (f g : value R -> nat -> outcome B) (l : list (value R)) (i : nat) :
  (forall x j, f x j = g x j) -> mapi_from i f l = mapi_from i g l.
Proof.
  intros Hfg. revert i. induction l as [| x l IH]; intros i; cbn; [reflexivity |].
  now rewrite Hfg, IH.
Qed.

(** X24: a second report changes nothing.  When every magnitude of the
    spectrum is a number, the store [generatePDFReport] leaves is a fixed
    point: generating the report again from it gives that same store
    back.  (The comparator is then consistent, and the order a stable sort
    leaves is the same whatever the algorithm.) *)
Theorem generatePDFReport_again_keeps_the_store
    (h : gmap loc (cell R)) (audioData : value R) :
  (forall results l es,
     get h audioData "analysisResults" = Ok results ->
     get h results "frequencySpectrum" = Ok (VRef l) ->
     h !! l = Some (CArr es) ->
     Forall (fun e => exists k, number_or h e "magnitude" 0 = Ok (Some k)) es) ->
  let h1 := fst (generatePDFReport h audioData) in
  fst (generatePDFReport h1 audioData) = h1.
Proof.
  intros _. cbn zeta.
  destruct (generatePDFReport h audioData) as [h1 out1] eqn:H1. cbn [fst].
  destruct (generatePDFReport h1 audioData) as [h2 out2] eqn:H2. cbn [fst].
  destruct (generatePDFReport_exact _ _ _ _ H1)
    as [[-> _] | (results & l & es & keyed & Hres & Hfs & Hl & Hk & Hh1)].
  { rewrite H1 in H2. now injection H2 as <- _. }
  set (sorted := stable_sort after keyed) in *.
  assert (Hlen : length (map fst sorted) = length es).
  { rewrite length_map. subst sorted.
    rewrite (Permutation_length (stable_sort_perm after keyed)).
    exact (mapi_from_length _ _ _ _ Hk). }
  assert (Hget : forall v f, get h1 v f = get h v f).
  { intros v f. subst h1. now apply (get_insert_array h l es). }
  assert (Hl1 : h1 !! l = Some (CArr (map fst sorted))).
  { subst h1. apply lookup_insert_eq. }
  destruct (generatePDFReport_exact _ _ _ _ H2)
    as [[-> _] | (results2 & l2 & es2 & keyed2 & Hres2 & Hfs2 & Hl2 & Hk2 & ->)];
    [reflexivity |].
  rewrite Hget, Hres in Hres2. injection Hres2 as <-.
  rewrite Hget, Hfs in Hfs2. injection Hfs2 as <-.
  rewrite Hl1 in Hl2. injection Hl2 as <-.
  assert (Hsame : mapi (magnitudeKey h1) (map fst sorted) = Ok sorted).
  { unfold mapi. rewrite (mapi_from_ext _ (magnitudeKey h)).
    - apply magnitudeKey_again. subst sorted.
      rewrite (stable_sort_perm after keyed). exact (magnitudeKey_keys _ _ _ _ Hk).
    - intros x j. unfold magnitudeKey, number_or. now rewrite Hget. }
  rewrite Hsame in Hk2. injection Hk2 as <-.
  rewrite (stable_sort_fixed after sorted).
  - now apply insert_id.
  - subst sorted. apply stable_sort_Sorted. exact after_asym.
Qed.

End PdfSortReal.

(** The magnitudes of the sample spectrum are numbers. *)
Lemma twoEvents_numeric :
  Forall (fun e => exists k : R,
            PdfGenerator.number_or Samples.twoEvents e "magnitude" 0 = JS.Ok (Some k))
    [JS.VRef 6%positive; JS.VRef 7%positive].
Proof.
  assert (H6 : JS.get (num:=R) Samples.twoEvents (JS.VRef 6%positive) "magnitude"
               = JS.Ok (JS.VNum (1 / 4)%R)) by reflexivity.
  assert (H7 : JS.get (num:=R) Samples.twoEvents (JS.VRef 7%positive) "magnitude"
               = JS.Ok (JS.VNum (3 / 4)%R)) by reflexivity.
  constructor; [| constructor; [| constructor]]; unfold PdfGenerator.number_or.
  - rewrite H6. cbn. unfold JS.or_else.
    destruct (JS.truthy (JS.VNum (1 / 4)%R)); eexists; reflexivity.
  - rewrite H7. cbn. unfold JS.or_else.
    destruct (JS.truthy (JS.VNum (3 / 4)%R)); eexists; reflexivity.
Qed.

Lemma generatePDFReport_sorts_witness :
  let after_call :=
    PdfGenerator.generatePDFReport (num:=R) Samples.twoEvents (JS.VRef 5%positive) in
  (fst after_call = Samples.twoEvents /\ exists e, snd after_call = JS.Throw e) \/
  exists es' keys,
    fst after_call !! 8%positive = Some (JS.CArr es') /\
    Permutation [JS.VRef 6%positive; JS.VRef 7%positive] es' /\
    Forall2 (fun e k => PdfGenerator.number_or Samples.twoEvents e "magnitude" 0
                        = JS.Ok (Some k)) es' keys /\
    StronglySorted (fun x y => (y <= x)%R) keys.
Proof.
  exact (generatePDFReport_sorts_the_spectrum Samples.twoEvents (JS.VRef 5%positive)
           (JS.VRef 4%positive) 8%positive [JS.VRef 6%positive; JS.VRef 7%positive]
           eq_refl eq_refl eq_refl twoEvents_numeric).
Defined.

Lemma generatePDFReport_again_witness :
  let h1 := fst (PdfGenerator.generatePDFReport (num:=R) Samples.twoEvents
                   (JS.VRef 5%positive)) in
  fst (PdfGenerator.generatePDFReport h1 (JS.VRef 5%positive)) = h1.
Proof.
  refine (generatePDFReport_again_keeps_the_store Samples.twoEvents (JS.VRef 5%positive) _).
  intros results l es Hres Hfs Hl.
  assert (H5 : JS.get (num:=R) Samples.twoEvents (JS.VRef 5%positive) "analysisResults"
               = JS.Ok (JS.VRef 4%positive)) by reflexivity.
  rewrite H5 in Hres. injection Hres as <-.
  assert (H4 : JS.get (num:=R) Samples.twoEvents (JS.VRef 4%positive) "frequencySpectrum"
               = JS.Ok (JS.VRef 8%positive)) by reflexivity.
  rewrite H4 in Hfs. injection Hfs as <-.
  assert (H8 : (Samples.twoEvents : gmap JS.loc (JS.cell R)) !! 8%positive
               = Some (JS.CArr [JS.VRef 6%positive; JS.VRef 7%positive])) by reflexivity.
  pose proof (eq_trans (eq_sym Hl) H8) as Hes. injection Hes as ->.
  exact twoEvents_numeric.
Defined.

Lemma handleSaveToDatabase_never_demo_witness :
  Supabase.isSupabaseAvailable Samples.someEnv = true /\
  (Database.SetTimeout 1000%N ∉
     Database.effects
       (Database.saveAnalysis Samples.someEnv 0%N Samples.acceptAll
          Samples.twoPoints Samples.twoPointsAudio)) /\
  ((exists rec,
      Database.effects
        (Database.saveAnalysis Samples.someEnv 0%N Samples.acceptAll
           Samples.twoPoints Samples.twoPointsAudio)
      = [Database.Insert "audio_analyses" rec]) \/
   (Database.effects
      (Database.saveAnalysis Samples.someEnv 0%N Samples.acceptAll
         Samples.twoPoints Samples.twoPointsAudio) = [] /\
    exists e,
      Database.result
        (Database.saveAnalysis Samples.someEnv 0%N Samples.acceptAll
           Samples.twoPoints Samples.twoPointsAudio) = JS.Throw e)) /\
  EnhancedAudioAnalysis.saved
    (EnhancedAudioAnalysis.handleSaveToDatabase Samples.someEnv 0%N Samples.acceptAll
       EnhancedAudioAnalysis.initialDbStatus Samples.twoPoints Samples.twoPointsAudio)
  = None.
Proof.
  exact (handleSaveToDatabase_never_saves_in_demo_mode Samples.someEnv
           (JS.Ok {| Database.data := Some []; Database.error := None |})
           0%N Samples.acceptAll Samples.twoPoints Samples.twoPointsAudio
           (Database.saveAnalysis Samples.someEnv 0%N Samples.acceptAll
              Samples.twoPoints Samples.twoPointsAudio)
           eq_refl).
Defined.
